(** * LiveClient: the duplex audio session manager of the J.A.R.V.I.S. front end

    A shallow embedding of [src/services/liveClient.ts] (class [LiveClient])
    and of the types of [types.ts] it uses.

    - A JavaScript [number] is a real number ([R]); [Math.max], [Math.min] and
      [Math.sqrt] are [Rmax], [Rmin] and [sqrt].
    - The fields of the class are the fields of the record [LiveClient]; a
      field of type [T | null] is an [option].
    - Every call the class makes on a collaborator (the callbacks of its
      configuration, the session, the Web Audio nodes) is an [Event]; a method
      returns the client after the call together with the events it caused,
      in program order.  Calls to [console] are left out.
    - What the environment decides (the output clock, the outcome of
      [getUserMedia], the settlement of the session promise, the outcome of
      the tool handler) is an argument of the method that observes it.
    - A promise is modelled by the way it settles.  A callback registered
      with [then] on a fulfilled promise runs, on a rejected promise it never
      does; its events are listed where it is registered.
    - A callback runs to its end before the next one starts: what another
      callback could do to the fields while this one is suspended at an
      [await] is not modelled.  In particular the tool handler is a function
      to the settlement of its promise; a statement that would not hold of a
      handler that calls back into the client while it is awaited (the
      handler of the application does, for a shutdown, a reboot and a change
      of voice), or of messages that overtake one that waits for its
      handler, excludes those cases in its hypotheses.
    - The helpers of [utils/audioUtils] are imported by the class and are not
      part of it: they are variables of the section that holds the model. *)

From Stdlib Require Import List Sorted String Ascii Bool Arith ZArith Reals Lra Lia.
From Stdlib Require Import Strings.Byte.
Import ListNotations.
Local Open Scope string_scope.
Local Open Scope list_scope.
Local Open Scope R_scope.

Set Warnings "-register-all".

(** ** JavaScript values *)

Definition number := R.

(** The values exchanged with the tool handler ([any] in the source). *)
Inductive JsValue :=
| JsUndefined
| JsNull
| JsBool (b : bool)
| JsNumber (x : number)
| JsString (s : string)
| JsObject (fields : list (string * JsValue)).

(** What a [catch] clause can receive.  [ThrownNullish] is [null] or
    [undefined]; [ThrownError m] is an instance of [Error] with message [m];
    [ThrownValue m] is any other value, [m] being its [message] property when
    it has one. *)
Inductive JsThrown :=
| ThrownNullish
| ThrownError (message : string)
| ThrownValue (message : option string).

(** A settled promise. *)
Inductive Settled (A : Type) :=
| Fulfilled (v : A)
| Rejected (e : JsThrown).
Arguments Fulfilled {A} v.
Arguments Rejected {A} e.

(** [s.includes(pat)] *)
Fixpoint includes (s pat : string) : bool :=
  String.prefix pat s ||
  match s with
  | EmptyString => false
  | String _ s' => includes s' pat
  end.

(** A string is truthy when it is not empty. *)
Definition truthy (s : string) : bool :=
  match s with
  | EmptyString => false
  | String _ _ => true
  end.

(** ** types.ts *)

Inductive ConnectionState := DISCONNECTED | CONNECTING | CONNECTED | ERROR.

Inductive LogSource := SYSTEM | USER | JARVIS.
Inductive LogType := LogInfo | LogSuccess | LogWarning | LogError.

(** [LogEntry] without [id] and [timestamp], which are a random string and
    the wall clock. *)
Record LogEntry := mkLog {
  log_source : LogSource;
  log_message : string;
  log_type : LogType
}.

(** ** The wire messages *)

Record FunctionCall := mkFunctionCall {
  fc_id : string;
  fc_name : string;
  fc_args : JsValue
}.

Record FunctionResponse := mkFunctionResponse {
  fr_id : string;
  fr_name : string;
  fr_response : JsValue
}.

Record Blob := mkBlob { data : string }.
Record Part := mkPart { inlineData : option Blob }.
Record Content := mkContent { parts : list Part }.

Record ServerContent := mkServerContent {
  modelTurn : option Content;
  interrupted : bool
}.

Record LiveServerMessage := mkMessage {
  toolCall : option (list FunctionCall);
  serverContent : option ServerContent
}.

(** ** Web Audio objects *)

Inductive AudioContextState := Running | Suspended | Closed.

Record AudioContext := mkAudioContext {
  sampleRate : Z;
  ctx_state : AudioContextState
}.

Record AudioBuffer := mkAudioBuffer { duration : number }.

(** An [AudioBufferSourceNode]: [node_id] is the identity of the object. *)
Record AudioBufferSourceNode := mkSourceNode {
  node_id : nat;
  buffer : AudioBuffer
}.

Record MediaStream := mkMediaStream { tracks : list nat }.

Record ScriptProcessorNode := mkScriptProcessor { bufferSize : nat }.

Inductive Session := TheSession.

Inductive WhichContext := InputContext | OutputContext.

(** ** Events: the calls the class makes on its collaborators *)

Inductive Event :=
| OnStatusChange (status : ConnectionState)
| OnAudioData (volume : number)
| OnLog (entry : LogEntry)
| OnError (message : string)
| SendToolResponse (functionResponses : list FunctionResponse)
| SendRealtimeInput (mimeType : string) (payload : string)
| SourceStart (node : AudioBufferSourceNode) (when : number)
| SourceStop (node : AudioBufferSourceNode)
| ProcessorDisconnect
| StreamSourceDisconnect
| TrackStop (track : nat)
| ContextClose (which : WhichContext)
| SessionClose.

(** ** The class *)

Record LiveClient := mkLiveClient {
  sessionPromise : option (Settled Session);
  inputAudioContext : option AudioContext;
  outputAudioContext : option AudioContext;
  stream : option MediaStream;
  processor : option ScriptProcessorNode;
  source : option unit;
  nextStartTime : number;
  activeSources : list AudioBufferSourceNode;
  isMuted : bool;
  (** the number of source nodes created so far: the next object identity *)
  nodesCreated : nat
}.

(** The field initialisers of the class. *)
Definition newLiveClient : LiveClient :=
  {| sessionPromise := None;
     inputAudioContext := None;
     outputAudioContext := None;
     stream := None;
     processor := None;
     source := None;
     nextStartTime := 0;
     activeSources := [];
     isMuted := false;
     nodesCreated := 0 |}.

Definition set_sessionPromise v (c : LiveClient) : LiveClient :=
  mkLiveClient v (inputAudioContext c) (outputAudioContext c) (stream c)
    (processor c) (source c) (nextStartTime c) (activeSources c) (isMuted c)
    (nodesCreated c).
Definition set_inputAudioContext v (c : LiveClient) : LiveClient :=
  mkLiveClient (sessionPromise c) v (outputAudioContext c) (stream c)
    (processor c) (source c) (nextStartTime c) (activeSources c) (isMuted c)
    (nodesCreated c).
Definition set_outputAudioContext v (c : LiveClient) : LiveClient :=
  mkLiveClient (sessionPromise c) (inputAudioContext c) v (stream c)
    (processor c) (source c) (nextStartTime c) (activeSources c) (isMuted c)
    (nodesCreated c).
Definition set_stream v (c : LiveClient) : LiveClient :=
  mkLiveClient (sessionPromise c) (inputAudioContext c) (outputAudioContext c) v
    (processor c) (source c) (nextStartTime c) (activeSources c) (isMuted c)
    (nodesCreated c).
Definition set_processor v (c : LiveClient) : LiveClient :=
  mkLiveClient (sessionPromise c) (inputAudioContext c) (outputAudioContext c)
    (stream c) v (source c) (nextStartTime c) (activeSources c) (isMuted c)
    (nodesCreated c).
Definition set_source v (c : LiveClient) : LiveClient :=
  mkLiveClient (sessionPromise c) (inputAudioContext c) (outputAudioContext c)
    (stream c) (processor c) v (nextStartTime c) (activeSources c) (isMuted c)
    (nodesCreated c).
Definition set_nextStartTime v (c : LiveClient) : LiveClient :=
  mkLiveClient (sessionPromise c) (inputAudioContext c) (outputAudioContext c)
    (stream c) (processor c) (source c) v (activeSources c) (isMuted c)
    (nodesCreated c).
Definition set_activeSources v (c : LiveClient) : LiveClient :=
  mkLiveClient (sessionPromise c) (inputAudioContext c) (outputAudioContext c)
    (stream c) (processor c) (source c) (nextStartTime c) v (isMuted c)
    (nodesCreated c).
Definition set_isMuted v (c : LiveClient) : LiveClient :=
  mkLiveClient (sessionPromise c) (inputAudioContext c) (outputAudioContext c)
    (stream c) (processor c) (source c) (nextStartTime c) (activeSources c) v
    (nodesCreated c).
Definition set_nodesCreated v (c : LiveClient) : LiveClient :=
  mkLiveClient (sessionPromise c) (inputAudioContext c) (outputAudioContext c)
    (stream c) (processor c) (source c) (nextStartTime c) (activeSources c)
    (isMuted c) v.

(** A method run: the client afterwards and the events caused. *)
Definition Op := LiveClient -> LiveClient * list Event.

Definition skip : Op := fun c => (c, []).
Definition emit (evs : list Event) : Op := fun c => (c, evs).
Definition update (f : LiveClient -> LiveClient) : Op := fun c => (f c, []).
Definition andThen (f g : Op) : Op :=
  fun c => let (c1, e1) := f c in
           let (c2, e2) := g c1 in
           (c2, e1 ++ e2).
Notation "f ;; g" := (andThen f g) (at level 61, right associativity).

(** How an async method ends: it returns, or an exception escapes it. *)
Inductive Completion := Normal | Abrupt.

Record Run := mkRun {
  after : LiveClient;
  effects : list Event;
  completion : Completion
}.

(** [sessionPromise?.then(session => k(session))]: the callback runs once
    the promise is fulfilled, and never when the field is null or the promise
    rejects. *)
Definition withSession (c : LiveClient) (k : Session -> list Event) : list Event :=
  match sessionPromise c with
  | Some (Fulfilled session) => k session
  | Some (Rejected _) => []
  | None => []
  end.

(** [setMute] *)
Definition setMute (muted : bool) : Op := update (set_isMuted muted).

(** ** The loudness computations *)

Definition byteZ (b : byte) : Z := Z.of_N (Byte.to_N b).

(** The loop of [handleMessage] over the decoded bytes, two at a time:
    [val = (audioBytes[i] | (audioBytes[i+1] << 8)) / 32768; sum += val * val].
    Past the end [audioBytes[i+1]] is [undefined], and [undefined << 8] is 0. *)
Fixpoint pcmSquares (audioBytes : list byte) (sum : number) : number :=
  match audioBytes with
  | [] => sum
  | [lo] =>
      let val := IZR (Z.lor (byteZ lo) (Z.shiftl 0 8)) / 32768 in
      sum + val * val
  | lo :: hi :: rest =>
      let val := IZR (Z.lor (byteZ lo) (Z.shiftl (byteZ hi) 8)) / 32768 in
      pcmSquares rest (sum + val * val)
  end.

(** [Math.sqrt(sum / (audioBytes.length/2))]; for a chunk of no byte the
    code divides 0 by 0 and the level it reports is NaN, which the reals do
    not have. *)
Definition playbackRms (audioBytes : list byte) : number :=
  sqrt (pcmSquares audioBytes 0 / (INR (List.length audioBytes) / 2)).

(** [Math.min(1, rms * 5)] *)
Definition playbackLevel (audioBytes : list byte) : number :=
  Rmin 1 (playbackRms audioBytes * 5).

(** The loop of [onaudioprocess]: [sum += inputData[i] * inputData[i]]. *)
Definition frameSquares (inputData : list number) : number :=
  fold_left (fun sum x => sum + x * x) inputData 0.

(** [Math.sqrt(sum / inputData.length)] *)
Definition captureRms (inputData : list number) : number :=
  sqrt (frameSquares inputData / INR (List.length inputData)).

(** ** Sample data

    The methods below take the helpers of [utils/audioUtils] and the tool
    handler as they come.  To run them on concrete messages, here are a
    decoder, a buffer, a handler and some messages. *)

(** Modelled from the spec: [base64ToUint8Array] of [utils/audioUtils] is not
    part of the class; the wire shape names the transport encoding of
    [inlineData.data] base64.  Characters outside the alphabet (the padding
    among them) are skipped. *)
Definition sextetOf (a : ascii) : option N :=
  let n := N_of_ascii a in
  if ((65 <=? n) && (n <=? 90))%N then Some (n - 65)%N
  else if ((97 <=? n) && (n <=? 122))%N then Some (n - 71)%N
  else if ((48 <=? n) && (n <=? 57))%N then Some (n + 4)%N
  else if (n =? 43)%N then Some 62%N
  else if (n =? 47)%N then Some 63%N
  else None.

Fixpoint sextetsOf (s : string) : list N :=
  match s with
  | EmptyString => []
  | String a rest =>
      match sextetOf a with
      | Some n => n :: sextetsOf rest
      | None => sextetsOf rest
      end
  end.

Definition octet (n : N) : byte :=
  match Byte.of_N (N.land n 255) with
  | Some b => b
  | None => x00
  end.

Fixpoint octetsOf (sextets : list N) : list byte :=
  match sextets with
  | a :: b :: c :: d :: rest =>
      octet (N.lor (N.shiftl a 2) (N.shiftr b 4))
      :: octet (N.lor (N.shiftl b 4) (N.shiftr c 2))
      :: octet (N.lor (N.shiftl c 6) d)
      :: octetsOf rest
  | [a; b; c] =>
      [ octet (N.lor (N.shiftl a 2) (N.shiftr b 4));
        octet (N.lor (N.shiftl b 4) (N.shiftr c 2)) ]
  | [a; b] => [ octet (N.lor (N.shiftl a 2) (N.shiftr b 4)) ]
  | _ => []
  end.

Definition base64Decode (s : string) : list byte := octetsOf (sextetsOf s).

(** Modelled from the spec: [decodeAudioData] of [utils/audioUtils] is not
    part of the class; a chunk is 16-bit PCM, one channel, played at 24000
    Hz, so a buffer lasts (bytes / 2) / 24000 seconds. *)
Definition pcmBuffer (audioBytes : list byte) : AudioBuffer :=
  mkAudioBuffer (INR (Nat.div (List.length audioBytes) 2) / 24000).

(** The encoders of the capture path are left out of the sample runs: the
    payload of an outbound frame is the frame's length in unary. *)
Definition framePcm (inputData : list number) : list byte :=
  map (fun _ => x00) inputData.

Definition frameText (pcm16 : list byte) : string :=
  string_of_list_byte pcm16.

(** A tool handler: it knows the tool [scanSystem] and rejects every other
    name with an [Error], as the handler of the application does; the tool
    [X] fails with the message [boom]. *)
Definition sampleHandler (name : string) (args : JsValue) : Settled JsValue :=
  if String.eqb name "scanSystem"
  then Fulfilled (JsObject [("status", JsString "OPTIMAL")])
  else if String.eqb name "X"
  then Rejected (ThrownError "boom")
  else Rejected (ThrownError (String.append "Unknown protocol action: " name)).

(** A tool handler whose promise rejects with [undefined]. *)
Definition rejectingHandler (name : string) (args : JsValue) : Settled JsValue :=
  Rejected ThrownNullish.

(** Messages: a chunk of two samples, a chunk of four, an interruption, a
    tool call, and a turn whose audio sits in its second part. *)
Definition chunkMessage (base64 : string) : LiveServerMessage :=
  mkMessage None
    (Some (mkServerContent (Some (mkContent [mkPart (Some (mkBlob base64))])) false)).

Definition interruptionMessage : LiveServerMessage :=
  mkMessage None (Some (mkServerContent None true)).

Definition toolMessage (id name : string) : LiveServerMessage :=
  mkMessage (Some [mkFunctionCall id name (JsObject [])]) None.

Definition laterPartMessage : LiveServerMessage :=
  mkMessage None
    (Some (mkServerContent
             (Some (mkContent [mkPart None; mkPart (Some (mkBlob "AAABAA=="))])) false)).

Definition sampleArrivals : list (LiveServerMessage * number) :=
  [(chunkMessage "AAABAA==", 0); (chunkMessage "AAABAAIAAwA=", 0)].

Definition twoToolsMessage : LiveServerMessage :=
  mkMessage (Some [ mkFunctionCall "7" "scanSystem" (JsObject []);
                    mkFunctionCall "1" "X" (JsObject []) ]) None.

Definition sampleFrames : list (list number) :=
  [[1 / 2; - (1 / 2)]; [0; 0]].

(** ** The methods *)

Section LiveClientModel.

#[local] Set Default Proof Using "Type".

(** [utils/audioUtils]: the decoder of the transport encoding, the decoder
    of a chunk into a playable buffer (at 24000 Hz, one channel), and the
    two encoders of the capture path. *)
Variable base64ToUint8Array : string -> list byte.
Variable decodeAudioData : list byte -> AudioBuffer.
Variable float32ToPCM16 : list number -> list byte.
Variable arrayBufferToBase64 : list byte -> string.

(** [config.onSystemAction]: the tool handler, by the way its promise
    settles. *)
Variable onSystemAction : string -> JsValue -> Settled JsValue.

(** *** connect *)

(** What [connect] meets: each constructor call may throw, [getUserMedia]
    settles, and [client.live.connect] hands back a promise that settles
    later ([liveConnect] is its settlement). *)
Record ConnectEnv := mkConnectEnv {
  newInputContext : option JsThrown;
  newOutputContext : option JsThrown;
  getUserMedia : Settled MediaStream;
  liveConnect : Settled Session
}.

(** The message the [catch] clause of [connect] builds. *)
Definition connectErrorMessage (error : JsThrown) : string :=
  match error with
  | ThrownError message =>
      let errorMessage := message in
      let errorMessage :=
        if includes errorMessage "403"
        then "ACCESS DENIED: Invalid API Key or Permissions." else errorMessage in
      let errorMessage :=
        if includes errorMessage "503"
        then "SERVICE UNAVAILABLE: Server Overload." else errorMessage in
      let errorMessage :=
        if includes errorMessage "Failed to fetch"
        then "NETWORK FAILURE: Unable to reach command servers." else errorMessage in
      errorMessage
  | _ => "Unknown Connection Protocol Error"
  end.

(** The [catch] clause of [connect]. *)
Definition connectCatch (error : JsThrown) : Op :=
  let errorMessage := connectErrorMessage error in
  emit [ OnStatusChange ERROR;
         OnError errorMessage;
         OnLog (mkLog SYSTEM (String.append "Connection Aborted: " errorMessage) LogError) ].

(** The [try] block of [connect], statement by statement; the promise of
    [client.live.connect] is stored, never awaited. *)
Definition connectTry (env : ConnectEnv) : Op :=
  fun c =>
    match newInputContext env with
    | Some error => connectCatch error c
    | None =>
        let c := set_inputAudioContext (Some (mkAudioContext 16000%Z Running)) c in
        match newOutputContext env with
        | Some error => connectCatch error c
        | None =>
            let c := set_outputAudioContext (Some (mkAudioContext 24000%Z Running)) c in
            match getUserMedia env with
            | Rejected error => connectCatch error c
            | Fulfilled mediaStream =>
                let c := set_stream (Some mediaStream) c in
                (set_sessionPromise (Some (liveConnect env)) c, [])
            end
        end
    end.

Definition connect (env : ConnectEnv) : Op :=
  emit [OnStatusChange CONNECTING] ;; connectTry env.

(** *** startAudioStreaming and the frame handler it installs *)

Definition startAudioStreaming : Op :=
  fun c =>
    match inputAudioContext c, stream c with
    | Some _, Some _ =>
        (set_processor (Some (mkScriptProcessor 4096)) (set_source (Some tt) c), [])
    | _, _ => (c, [])
    end.

(** The body of [processor.onaudioprocess]. *)
Definition onaudioprocess (inputData : list number) : Op :=
  fun c =>
    if isMuted c then (c, [])
    else
      let rms := captureRms inputData in
      let level := if Rgt_dec rms (1 / 100) then [OnAudioData (rms * 5)] else [] in
      let pcm16 := float32ToPCM16 inputData in
      let base64Data := arrayBufferToBase64 pcm16 in
      (c, level ++
          withSession c (fun _ => [SendRealtimeInput "audio/pcm;rate=16000" base64Data])).

(** A capture frame delivered by the browser: the handler runs when a
    processor holds it. *)
Definition audioprocess (inputData : list number) : Op :=
  fun c =>
    match processor c with
    | Some _ => onaudioprocess inputData c
    | None => (c, [])
    end.

(** The frames the browser delivers one after the other. *)
Fixpoint audioprocessAll (frames : list (list number)) : Op :=
  fun c =>
    match frames with
    | [] => (c, [])
    | inputData :: rest =>
        let (c1, evs1) := audioprocess inputData c in
        let (c2, evs2) := audioprocessAll rest c1 in
        (c2, evs1 ++ evs2)
    end.

(** *** The callbacks of the session *)

Definition handleOpen : Op :=
  emit [ OnStatusChange CONNECTED;
         OnLog (mkLog SYSTEM "J.A.R.V.I.S. Protocol Online" LogSuccess) ] ;;
  startAudioStreaming.

Definition handleError : Op :=
  let msg := "WebSocket communication interrupted." in
  emit [ OnError msg;
         OnLog (mkLog SYSTEM (String.append "Protocol Error Detected: " msg) LogError) ].

Definition handleClose : Op :=
  emit [ OnStatusChange DISCONNECTED;
         OnLog (mkLog SYSTEM "J.A.R.V.I.S. Protocol Offline" LogWarning) ].


(** *** handleMessage *)

(** [err.message || "Unknown tool failure"]; reading a property of [null]
    or [undefined] throws. *)
Definition errStrOf (err : JsThrown) : option string :=
  match err with
  | ThrownNullish => None
  | ThrownError message =>
      Some (if truthy message then message else "Unknown tool failure")
  | ThrownValue (Some message) =>
      Some (if truthy message then message else "Unknown tool failure")
  | ThrownValue None => Some "Unknown tool failure"
  end.

(** [{ error: errStr, status: 'FAILED' }] *)
Definition failurePayload (errStr : string) : JsValue :=
  JsObject [("error", JsString errStr); ("status", JsString "FAILED")].

(** [{ id: fc.id, name: fc.name, response: { result: result } }] *)
Definition functionResponse (fc : FunctionCall) (result : JsValue) : FunctionResponse :=
  mkFunctionResponse (fc_id fc) (fc_name fc) (JsObject [("result", result)]).

(** [sessionPromise?.then(session => session.sendToolResponse(...))] *)
Definition sendToolResponse (c : LiveClient) (fc : FunctionCall) (result : JsValue)
  : list Event :=
  withSession c (fun _ => [SendToolResponse [functionResponse fc result]]).

(** One iteration of the loop over [message.toolCall.functionCalls]. *)
Definition dispatch (c : LiveClient) (fc : FunctionCall) : list Event * Completion :=
  let announce :=
    OnLog (mkLog JARVIS (String.append "Executing protocol: " (fc_name fc)) LogInfo) in
  match onSystemAction (fc_name fc) (fc_args fc) with
  | Fulfilled result => (announce :: sendToolResponse c fc result, Normal)
  | Rejected err =>
      match errStrOf err with
      | None => ([announce], Abrupt)
      | Some errStr =>
          (announce ::
           OnLog (mkLog SYSTEM
                    (String.append "CRITICAL: Tool Failure ("
                       (String.append (fc_name fc) (String.append ") - " errStr)))
                    LogError) ::
           sendToolResponse c fc (failurePayload errStr), Normal)
      end
  end.

(** The loop: an exception that escapes an iteration ends it. *)
Fixpoint dispatchAll (c : LiveClient) (functionCalls : list FunctionCall)
  : list Event * Completion :=
  match functionCalls with
  | [] => ([], Normal)
  | fc :: rest =>
      match dispatch c fc with
      | (evs, Abrupt) => (evs, Abrupt)
      | (evs, Normal) =>
          let (evs', k) := dispatchAll c rest in (evs ++ evs', k)
      end
  end.

(** 1. Handle Tool Calls *)
Definition handleToolCalls (message : LiveServerMessage) (c : LiveClient)
  : list Event * Completion :=
  match toolCall message with
  | Some functionCalls => dispatchAll c functionCalls
  | None => ([], Normal)
  end.

(** [message.serverContent?.modelTurn?.parts[0]?.inlineData?.data] *)
Definition base64AudioOf (message : LiveServerMessage) : option string :=
  match serverContent message with
  | None => None
  | Some sc =>
      match modelTurn sc with
      | None => None
      | Some turn =>
          match nth_error (parts turn) 0 with
          | None => None
          | Some part =>
              match inlineData part with
              | None => None
              | Some blob => Some (data blob)
              end
          end
      end
  end.

(** 2. Handle Audio Output; [currentTime] is
    [outputAudioContext.currentTime] when the message is handled. *)
Definition handleAudioOutput (message : LiveServerMessage) (currentTime : number) : Op :=
  fun c =>
    match base64AudioOf message, outputAudioContext c with
    | Some base64Audio, Some _ =>
        if truthy base64Audio then
          let audioBytes := base64ToUint8Array base64Audio in
          let level := OnAudioData (playbackLevel audioBytes) in
          let startAt := Rmax (nextStartTime c) currentTime in
          let audioBuffer := decodeAudioData audioBytes in
          let node := mkSourceNode (nodesCreated c) audioBuffer in
          let c := set_nodesCreated (S (nodesCreated c)) c in
          let c := set_nextStartTime (startAt + duration audioBuffer) c in
          let c := set_activeSources (activeSources c ++ [node]) c in
          (c, [level; SourceStart node startAt])
        else (c, [])
    | _, _ => (c, [])
    end.

(** [message.serverContent?.interrupted] *)
Definition interruptedOf (message : LiveServerMessage) : bool :=
  match serverContent message with
  | None => false
  | Some sc => interrupted sc
  end.

(** 3. Handle Interruption *)
Definition handleInterruption (message : LiveServerMessage) : Op :=
  fun c =>
    if interruptedOf message then
      let stops := map SourceStop (activeSources c) in
      let c := set_activeSources [] c in
      let c := set_nextStartTime 0 c in
      (c, stops ++ [OnLog (mkLog SYSTEM "Output Interrupted" LogWarning)])
    else (c, []).

Definition handleMessage (message : LiveServerMessage) (currentTime : number)
           (c : LiveClient) : Run :=
  match handleToolCalls message c with
  | (evs, Abrupt) => mkRun c evs Abrupt
  | (evs, Normal) =>
      let (c', evs') :=
        (handleAudioOutput message currentTime ;; handleInterruption message) c in
      mkRun c' (evs ++ evs') Normal
  end.

(** [source.onended]: the node removes itself from the set. *)
Definition onended (node : AudioBufferSourceNode) : Op :=
  update (fun c =>
    set_activeSources
      (filter (fun s => negb (Nat.eqb (node_id s) (node_id node))) (activeSources c)) c).

(** *** disconnect *)

Definition releaseProcessor : Op :=
  fun c =>
    match processor c with
    | Some _ => (set_processor None c, [ProcessorDisconnect])
    | None => (c, [])
    end.

Definition releaseSource : Op :=
  fun c =>
    match source c with
    | Some _ => (set_source None c, [StreamSourceDisconnect])
    | None => (c, [])
    end.

Definition releaseStream : Op :=
  fun c =>
    match stream c with
    | Some mediaStream => (set_stream None c, map TrackStop (tracks mediaStream))
    | None => (c, [])
    end.

Definition isClosed (st : AudioContextState) : bool :=
  match st with Closed => true | _ => false end.

Definition closeInputContext : Op :=
  fun c =>
    match inputAudioContext c with
    | Some ctx =>
        if isClosed (ctx_state ctx) then (c, [])
        else (set_inputAudioContext None c, [ContextClose InputContext])
    | None => (c, [])
    end.

Definition closeOutputContext : Op :=
  fun c =>
    match outputAudioContext c with
    | Some ctx =>
        if isClosed (ctx_state ctx) then (c, [])
        else (set_outputAudioContext None c, [ContextClose OutputContext])
    | None => (c, [])
    end.

Definition stopActiveSources : Op :=
  fun c => (set_activeSources [] c, map SourceStop (activeSources c)).

(** [await this.sessionPromise; session.close()] inside [try], then
    [this.sessionPromise = null]. *)
Definition closeSession : Op :=
  fun c =>
    match sessionPromise c with
    | Some (Fulfilled _) => (set_sessionPromise None c, [SessionClose])
    | Some (Rejected _) => (set_sessionPromise None c, [])
    | None => (c, [])
    end.

Definition disconnect : Op :=
  releaseProcessor ;; releaseSource ;; releaseStream ;;
  closeInputContext ;; closeOutputContext ;;
  stopActiveSources ;; closeSession.


(** *** Runs and what is read off their events *)

(** Messages are handled in arrival order, each with the output clock at
    its arrival; a handler that ends abruptly does not stop the next. *)
Fixpoint handleMessages (arrivals : list (LiveServerMessage * number))
         (c : LiveClient) : LiveClient * list Event :=
  match arrivals with
  | [] => (c, [])
  | (message, currentTime) :: rest =>
      let r := handleMessage message currentTime c in
      let (c', evs) := handleMessages rest (after r) in
      (c', effects r ++ evs)
  end.

(** The chunks a trace schedules: start time and duration, in order. *)
Fixpoint scheduled (evs : list Event) : list (number * number) :=
  match evs with
  | [] => []
  | SourceStart node when :: rest => (when, duration (buffer node)) :: scheduled rest
  | _ :: rest => scheduled rest
  end.

(** The volumes a trace delivers to [onAudioData]. *)
Fixpoint volumes (evs : list Event) : list number :=
  match evs with
  | [] => []
  | OnAudioData v :: rest => v :: volumes rest
  | _ :: rest => volumes rest
  end.

(** The tool replies a trace hands to the session. *)
Fixpoint replies (evs : list Event) : list FunctionResponse :=
  match evs with
  | [] => []
  | SendToolResponse functionResponses :: rest => functionResponses ++ replies rest
  | _ :: rest => replies rest
  end.

(** The messages a trace reports through [onError]. *)
Fixpoint errorsReported (evs : list Event) : list string :=
  match evs with
  | [] => []
  | OnError m :: rest => m :: errorsReported rest
  | _ :: rest => errorsReported rest
  end.

(** The statuses a trace reports through [onStatusChange]. *)
Fixpoint statuses (evs : list Event) : list ConnectionState :=
  match evs with
  | [] => []
  | OnStatusChange st :: rest => st :: statuses rest
  | _ :: rest => statuses rest
  end.

(** The status the collaborator holds after a trace, from [init]. *)
Definition lastStatus (init : ConnectionState) (evs : list Event) : ConnectionState :=
  last (statuses evs) init.

(** The chunk a message enqueues on client [c]: the decoded buffer, when
    the tool loop returns, the first part carries data and an output
    context exists. *)
Definition chunkOf (message : LiveServerMessage) (c : LiveClient) : option AudioBuffer :=
  match snd (handleToolCalls message c), base64AudioOf message, outputAudioContext c with
  | Normal, Some base64Audio, Some _ =>
      if truthy base64Audio
      then Some (decodeAudioData (base64ToUint8Array base64Audio))
      else None
  | _, _, _ => None
  end.

(** The enqueued chunks of a sequence of arrivals: output clock at arrival
    and duration. *)
Fixpoint enqueued (arrivals : list (LiveServerMessage * number)) (c : LiveClient)
  : list (number * number) :=
  match arrivals with
  | [] => []
  | (message, currentTime) :: rest =>
      match chunkOf message c with
      | Some audioBuffer => [(currentTime, duration audioBuffer)]
      | None => []
      end ++ enqueued rest (after (handleMessage message currentTime c))
  end.

(** The scheduling rule in the words of the specification (4.2, steps 3
    and 4): a chunk starts at [max(nextPlaybackTime, clock)] and the cursor
    advances by its duration. *)
Fixpoint specSchedule (nextPlaybackTime : number) (chunks : list (number * number))
  : list (number * number) :=
  match chunks with
  | [] => []
  | (clock, d) :: rest =>
      let start := Rmax nextPlaybackTime clock in
      (start, d) :: specSchedule (start + d) rest
  end.

(** No capture or playback resource is held. *)
Definition contextReleased (ctx : option AudioContext) : Prop :=
  match ctx with
  | None => True
  | Some a => ctx_state a = Closed
  end.

Definition released (c : LiveClient) : Prop :=
  processor c = None /\ source c = None /\ stream c = None /\
  contextReleased (inputAudioContext c) /\ contextReleased (outputAudioContext c) /\
  activeSources c = [] /\ sessionPromise c = None.


(** The [message] property of a thrown value, when it has one. *)
Definition messageOf (err : JsThrown) : option string :=
  match err with
  | ThrownNullish => None
  | ThrownError message => Some message
  | ThrownValue message => message
  end.

(** The result the dispatcher holds for a call when it reaches the reply:
    the handler's result, or the failure payload built in the [catch]
    clause. *)
Definition resultFor (fc : FunctionCall) : JsValue :=
  match onSystemAction (fc_name fc) (fc_args fc) with
  | Fulfilled result => result
  | Rejected err =>
      match errStrOf err with
      | Some errStr => failurePayload errStr
      | None => JsUndefined
      end
  end.

(** The handler settles with something other than a rejection with [null]
    or [undefined], for which the [catch] clause itself throws. *)
Definition settlesWithValue (fc : FunctionCall) : Prop :=
  onSystemAction (fc_name fc) (fc_args fc) <> Rejected ThrownNullish.

(** The events of a capture frame that is not dropped, on a client whose
    session promise is fulfilled. *)
Definition captureEvents (inputData : list number) : list Event :=
  (if Rgt_dec (captureRms inputData) (1 / 100)
   then [OnAudioData (captureRms inputData * 5)] else [])
  ++ [SendRealtimeInput "audio/pcm;rate=16000"
        (arrayBufferToBase64 (float32ToPCM16 inputData))].

(** The step of [connect]'s [try] block that fails first, if any. *)
Definition tryFailure (env : ConnectEnv) : option JsThrown :=
  match newInputContext env with
  | Some error => Some error
  | None =>
      match newOutputContext env with
      | Some error => Some error
      | None =>
          match getUserMedia env with
          | Rejected error => Some error
          | Fulfilled _ => None
          end
      end
  end.

(** Two environments of [connect]: the capture device is granted and the
    service accepts the session; the capture device is denied. *)
Definition grantedEnv : ConnectEnv :=
  mkConnectEnv None None (Fulfilled (mkMediaStream [0%nat])) (Fulfilled TheSession).

Definition deniedEnv : ConnectEnv :=
  mkConnectEnv None None (Rejected (ThrownError "Permission denied"))
               (Fulfilled TheSession).

(** A client while CONNECTED: a fresh client after [connect] under
    [grantedEnv] and the open callback. *)
Definition connectedClient : LiveClient :=
  fst (handleOpen (fst (connect grantedEnv newLiveClient))).

(** ** Properties *)

(** *** The projections of a trace *)

Ltac by_events evs IH :=
  induction evs as [| [] evs IH]; intros; simpl; rewrite ?IH; auto.

Lemma scheduled_app evs1 evs2 :
  scheduled (evs1 ++ evs2) = scheduled evs1 ++ scheduled evs2.
Proof. revert evs2; by_events evs1 IH. Qed.

Lemma volumes_app evs1 evs2 :
  volumes (evs1 ++ evs2) = volumes evs1 ++ volumes evs2.
Proof. revert evs2; by_events evs1 IH. Qed.

Lemma replies_app evs1 evs2 :
  replies (evs1 ++ evs2) = replies evs1 ++ replies evs2.
Proof. revert evs2; by_events evs1 IH. now rewrite app_assoc. Qed.

Lemma statuses_app evs1 evs2 :
  statuses (evs1 ++ evs2) = statuses evs1 ++ statuses evs2.
Proof. revert evs2; by_events evs1 IH. Qed.

Lemma scheduled_stops nodes : scheduled (map SourceStop nodes) = [].
Proof. induction nodes; simpl; auto. Qed.

Lemma volumes_stops nodes : volumes (map SourceStop nodes) = [].
Proof. induction nodes; simpl; auto. Qed.

(** *** The tool loop only logs and replies *)

Lemma dispatch_quiet c fc :
  scheduled (fst (dispatch c fc)) = [] /\ volumes (fst (dispatch c fc)) = [].
Proof.
  unfold dispatch, sendToolResponse, withSession.
  destruct (onSystemAction _ _) as [result | err]; [| destruct (errStrOf err)];
    destruct (sessionPromise c) as [[session | e] |]; simpl; auto.
Qed.

Lemma dispatchAll_quiet c fcs :
  scheduled (fst (dispatchAll c fcs)) = [] /\ volumes (fst (dispatchAll c fcs)) = [].
Proof.
  induction fcs as [| fc rest IH]; simpl; auto.
  destruct (dispatch_quiet c fc) as [Hs Hv].
  destruct (dispatch c fc) as [evs []]; simpl in *; auto.
  destruct (dispatchAll c rest) as [evs' k]; simpl in *.
  rewrite scheduled_app, volumes_app, Hs, Hv.
  destruct IH as [-> ->]; auto.
Qed.

Lemma handleToolCalls_quiet message c :
  scheduled (fst (handleToolCalls message c)) = [] /\
  volumes (fst (handleToolCalls message c)) = [].
Proof.
  unfold handleToolCalls.
  destruct (toolCall message); simpl; auto using dispatchAll_quiet.
Qed.

(** *** One message on the playback path *)

Lemma handleMessage_chunk message currentTime c :
  interruptedOf message = false ->
  let r := handleMessage message currentTime c in
  match chunkOf message c with
  | Some audioBuffer =>
      scheduled (effects r) = [(Rmax (nextStartTime c) currentTime, duration audioBuffer)]
      /\ nextStartTime (after r) = Rmax (nextStartTime c) currentTime + duration audioBuffer
  | None =>
      scheduled (effects r) = [] /\ nextStartTime (after r) = nextStartTime c
  end.
Proof.
  intros Hint. unfold chunkOf, handleMessage.
  destruct (handleToolCalls_quiet message c) as [Hq _].
  destruct (handleToolCalls message c) as [evs []]; simpl in *; [| auto].
  unfold andThen, handleAudioOutput, handleInterruption. rewrite Hint.
  destruct (base64AudioOf message) as [base64Audio |]; simpl;
    [| rewrite app_nil_r; auto].
  destruct (outputAudioContext c); simpl; [| rewrite app_nil_r; auto].
  destruct (truthy base64Audio); simpl; rewrite scheduled_app, Hq; simpl; auto.
Qed.

(** *** The rule of the specification keeps chunks apart *)

Lemma specSchedule_after cursor chunks :
  Forall (fun p => 0 <= snd p) chunks ->
  Forall (fun p => cursor <= fst p) (specSchedule cursor chunks).
Proof.
  revert cursor.
  induction chunks as [| [clock d] rest IH]; intros cursor Hd; simpl; constructor.
  - simpl. apply Rmax_l.
  - inversion Hd as [| ? ? Hd0 Hrest]; subst; simpl in Hd0.
    specialize (IH (Rmax cursor clock + d) Hrest).
    eapply Forall_impl; [| exact IH].
    intros p Hp. simpl in Hp. pose proof (Rmax_l cursor clock). lra.
Qed.

Lemma specSchedule_apart cursor chunks :
  Forall (fun p => 0 <= snd p) chunks ->
  StronglySorted (fun a b => fst a + snd a <= fst b) (specSchedule cursor chunks).
Proof.
  revert cursor.
  induction chunks as [| [clock d] rest IH]; intros cursor Hd; simpl; constructor.
  - inversion Hd; subst; auto.
  - inversion Hd; subst. apply (specSchedule_after (Rmax cursor clock + d) rest); auto.
Qed.

Lemma specSchedule_monotone cursor chunks :
  Forall (fun p => 0 <= snd p) chunks ->
  StronglySorted (fun a b => fst a <= fst b) (specSchedule cursor chunks).
Proof.
  revert cursor.
  induction chunks as [| [clock d] rest IH]; intros cursor Hd; simpl; constructor.
  - inversion Hd; subst; auto.
  - inversion Hd as [| ? ? Hd0 Hrest]; subst; simpl in Hd0.
    eapply Forall_impl; [| apply (specSchedule_after (Rmax cursor clock + d) rest Hrest)].
    intros p Hp. simpl in *. lra.
Qed.

Lemma enqueued_durations arrivals c :
  (forall audioBytes, 0 <= duration (decodeAudioData audioBytes)) ->
  Forall (fun p => 0 <= snd p) (enqueued arrivals c).
Proof.
  intros Hdur. revert c.
  induction arrivals as [| [message currentTime] rest IH]; intros c; simpl; auto.
  apply Forall_app; split; auto.
  unfold chunkOf.
  destruct (snd (handleToolCalls message c)); auto.
  destruct (base64AudioOf message) as [s |]; auto.
  destruct (outputAudioContext c); auto.
  destruct (truthy s); auto.
  constructor; simpl; auto.
Qed.

Lemma handleMessages_schedule arrivals c :
  Forall (fun a => interruptedOf (fst a) = false) arrivals ->
  scheduled (snd (handleMessages arrivals c)) =
  specSchedule (nextStartTime c) (enqueued arrivals c).
Proof.
  revert c.
  induction arrivals as [| [message currentTime] rest IH]; intros c Hno; simpl; auto.
  inversion Hno as [| ? ? Hm Hrest]; subst; simpl in Hm.
  pose proof (handleMessage_chunk message currentTime c Hm) as Hstep.
  specialize (IH (after (handleMessage message currentTime c)) Hrest).
  destruct (handleMessages rest (after (handleMessage message currentTime c)))
    as [c' evs]; simpl in *.
  rewrite scheduled_app, IH.
  destruct (chunkOf message c) as [audioBuffer |]; destruct Hstep as [-> ->];
    reflexivity.
Qed.

(** Two chunks, the second arriving before the first has played out: the
    second starts exactly where the first ends. *)
Lemma specSchedule_back_to_back cursor clock1 d1 clock2 d2 :
  clock2 <= Rmax cursor clock1 + d1 ->
  specSchedule cursor [(clock1, d1); (clock2, d2)] =
  [(Rmax cursor clock1, d1); (Rmax cursor clock1 + d1, d2)].
Proof.
  intros H. cbn [specSchedule].
  rewrite (Rmax_left (Rmax cursor clock1 + d1) clock2) by exact H. reflexivity.
Qed.

(** C1. For every sequence of inbound messages without an interruption, the
    chunks they enqueue are scheduled by the rule of the specification: each
    starts at the maximum of the playback cursor and the output clock, and the
    cursor then advances by the chunk's duration.  Hence start times never
    decrease, and each chunk ends (start plus duration) no later than every
    later chunk starts: scheduled chunks do not overlap. *)
Theorem playback_schedule_gapless (arrivals : list (LiveServerMessage * number))
        (c : LiveClient) :
  (forall audioBytes, 0 <= duration (decodeAudioData audioBytes)) ->
  Forall (fun a => interruptedOf (fst a) = false) arrivals ->
  let sched := scheduled (snd (handleMessages arrivals c)) in
  sched = specSchedule (nextStartTime c) (enqueued arrivals c)
  /\ StronglySorted (fun a b => fst a <= fst b) sched
  /\ StronglySorted (fun a b => fst a + snd a <= fst b) sched.
Proof.
  intros Hdur Hno sched. subst sched.
  rewrite (handleMessages_schedule arrivals c Hno).
  pose proof (enqueued_durations arrivals c Hdur) as Hd.
  auto using specSchedule_monotone, specSchedule_apart.
Qed.

(** *** Interruption *)

Lemma scheduled_In node when evs :
  In (SourceStart node when) evs -> In (when, duration (buffer node)) (scheduled evs).
Proof.
  induction evs as [| e evs IH]; simpl; [tauto |].
  intros [-> | Hin]; simpl; auto.
  destruct e; simpl; auto.
Qed.

Lemma handleMessage_start message currentTime c :
  scheduled (effects (handleMessage message currentTime c)) =
  match chunkOf message c with
  | Some audioBuffer => [(Rmax (nextStartTime c) currentTime, duration audioBuffer)]
  | None => []
  end.
Proof.
  unfold chunkOf, handleMessage.
  destruct (handleToolCalls_quiet message c) as [Hq _].
  destruct (handleToolCalls message c) as [evs []]; simpl in *; [| auto].
  unfold andThen, handleAudioOutput, handleInterruption.
  destruct (base64AudioOf message) as [base64Audio |];
    [destruct (outputAudioContext c); [destruct (truthy base64Audio) |] |];
    destruct (interruptedOf message); simpl;
    rewrite ?scheduled_app, ?Hq, ?scheduled_app, ?scheduled_stops; simpl;
    rewrite ?scheduled_app, ?scheduled_stops; auto.
Qed.

Lemma handleAudioOutput_registers message currentTime c :
  let out := handleAudioOutput message currentTime c in
  (forall node, In node (activeSources c) -> In node (activeSources (fst out)))
  /\ (forall node when,
        In (SourceStart node when) (snd out) -> In node (activeSources (fst out))).
Proof.
  clear onSystemAction float32ToPCM16 arrayBufferToBase64.
  unfold handleAudioOutput.
  destruct (base64AudioOf message) as [base64Audio |];
    [destruct (outputAudioContext c); [destruct (truthy base64Audio) |] |];
    simpl; split; try tauto; intros node.
  - intros Hin. apply in_or_app; auto.
  - intros when [Hin | [Hin | []]]; [discriminate |].
    inversion Hin; subst. apply in_or_app; right; simpl; auto.
Qed.

Lemma handleInterruption_flush message c :
  interruptedOf message = true ->
  handleInterruption message c =
  (set_nextStartTime 0 (set_activeSources [] c),
   map SourceStop (activeSources c) ++ [OnLog (mkLog SYSTEM "Output Interrupted" LogWarning)]).
Proof. intros H. unfold handleInterruption. rewrite H. reflexivity. Qed.

Lemma not_scheduled_not_started evs node when :
  scheduled evs = [] -> ~ In (SourceStart node when) evs.
Proof. intros Hq Hin. apply scheduled_In in Hin. rewrite Hq in Hin. inversion Hin. Qed.

(** When the handling of a message that carries the interruption flag
    reaches its third step (no exception has escaped the tool loop), every
    playback handle registered then (those registered before the message
    and the one the message itself enqueued) is stopped, the set of active
    handles is emptied and the playback cursor is reset to zero, whatever
    was pending; the next chunk enqueued then starts at the output clock. *)
Theorem interruption_flushes_playback (message : LiveServerMessage)
        (currentTime : number) (c : LiveClient) :
  interruptedOf message = true ->
  completion (handleMessage message currentTime c) = Normal ->
  let r := handleMessage message currentTime c in
  (forall node, In node (activeSources c) -> In (SourceStop node) (effects r))
  /\ (forall node when,
        In (SourceStart node when) (effects r) -> In (SourceStop node) (effects r))
  /\ activeSources (after r) = []
  /\ nextStartTime (after r) = 0
  /\ (forall message' clock audioBuffer,
        0 <= clock ->
        chunkOf message' (after r) = Some audioBuffer ->
        scheduled (effects (handleMessage message' clock (after r)))
        = [(clock, duration audioBuffer)]).
Proof.
  intros Hint Hdone r.
  assert (Hrun : exists evs c1 evs1,
             scheduled evs = [] /\
             handleAudioOutput message currentTime c = (c1, evs1) /\
             r = mkRun (set_nextStartTime 0 (set_activeSources [] c1))
                       (evs ++ evs1 ++ map SourceStop (activeSources c1)
                            ++ [OnLog (mkLog SYSTEM "Output Interrupted" LogWarning)])
                       Normal).
  { subst r. revert Hdone. unfold handleMessage.
    pose proof (handleToolCalls_quiet message c) as [Hq _].
    destruct (handleToolCalls message c) as [evs []]; simpl in *; [| discriminate].
    intros _. unfold andThen.
    destruct (handleAudioOutput message currentTime c) as [c1 evs1].
    rewrite (handleInterruption_flush message c1 Hint).
    exists evs, c1, evs1. auto. }
  destruct Hrun as (evs & c1 & evs1 & Hq & Haudio & Hr).
  pose proof (handleAudioOutput_registers message currentTime c) as [Hold Hnew].
  rewrite Haudio in Hold, Hnew. simpl in Hold, Hnew.
  assert (Hstop : forall node, In node (activeSources c1) -> In (SourceStop node) (effects r)).
  { intros node Hin. rewrite Hr. simpl.
    apply in_or_app; right. apply in_or_app; right. apply in_or_app; left.
    now apply in_map. }
  split; [auto |]. split.
  - intros node when Hin. apply Hstop. rewrite Hr in Hin. simpl in Hin.
    apply in_app_or in Hin. destruct Hin as [Hin | Hin];
      [exfalso; eapply not_scheduled_not_started; eauto |].
    apply in_app_or in Hin. destruct Hin as [Hin | Hin]; [eauto |].
    apply in_app_or in Hin. destruct Hin as [Hin | [Hin | []]]; [| discriminate].
    apply in_map_iff in Hin. destruct Hin as [x [Hx _]]. discriminate.
  - assert (Hzero : nextStartTime (after r) = 0) by (rewrite Hr; reflexivity).
    split; [rewrite Hr; reflexivity |]. split; [exact Hzero |].
    intros message' clock audioBuffer Hclock Hchunk.
    rewrite handleMessage_start, Hchunk, Hzero.
    rewrite Rmax_right by exact Hclock. reflexivity.
Qed.

(** *** The tool-call dispatcher *)

Lemma replies_stops nodes : replies (map SourceStop nodes) = [].
Proof. induction nodes; simpl; auto. Qed.

Lemma playback_replies message currentTime c :
  replies (snd ((handleAudioOutput message currentTime ;; handleInterruption message) c)) = [].
Proof.
  unfold andThen, handleAudioOutput, handleInterruption.
  destruct (base64AudioOf message) as [base64Audio |];
    [destruct (outputAudioContext c); [destruct (truthy base64Audio) |] |];
    destruct (interruptedOf message); simpl;
    rewrite ?replies_app, ?replies_stops; auto.
Qed.

Lemma errStrOf_value err : err <> ThrownNullish -> exists errStr, errStrOf err = Some errStr.
Proof. destruct err as [| m | [m |]]; simpl; intros H; try congruence; eauto. Qed.

Lemma dispatch_normal c fc : settlesWithValue fc -> snd (dispatch c fc) = Normal.
Proof.
  unfold settlesWithValue, dispatch. intros Hv.
  destruct (onSystemAction _ _) as [result | err]; simpl; auto.
  destruct (errStrOf_value err) as [errStr ->]; [congruence | reflexivity].
Qed.

Lemma dispatchAll_normal c fcs :
  Forall settlesWithValue fcs ->
  dispatchAll c fcs = (flat_map (fun fc => fst (dispatch c fc)) fcs, Normal).
Proof.
  induction 1 as [| fc rest Hfc Hrest IH]; simpl; auto.
  pose proof (dispatch_normal c fc Hfc) as Hn.
  destruct (dispatch c fc) as [evs k]; simpl in *; subst k.
  rewrite IH. reflexivity.
Qed.

Lemma dispatch_replies c fc session :
  sessionPromise c = Some (Fulfilled session) ->
  settlesWithValue fc ->
  replies (fst (dispatch c fc)) = [functionResponse fc (resultFor fc)].
Proof.
  unfold settlesWithValue, dispatch, resultFor, sendToolResponse, withSession.
  intros -> Hv.
  destruct (onSystemAction _ _) as [result | err]; simpl; auto.
  destruct (errStrOf_value err) as [errStr ->]; [congruence | reflexivity].
Qed.

Lemma dispatchAll_replies c fcs session :
  sessionPromise c = Some (Fulfilled session) ->
  Forall settlesWithValue fcs ->
  replies (flat_map (fun fc => fst (dispatch c fc)) fcs) =
  map (fun fc => functionResponse fc (resultFor fc)) fcs.
Proof.
  intros Hs. induction 1 as [| fc rest Hfc Hrest IH]; simpl; auto.
  rewrite replies_app, IH, (dispatch_replies c fc session Hs Hfc). reflexivity.
Qed.

Lemma handleMessage_tools_normal message currentTime c functionCalls :
  toolCall message = Some functionCalls ->
  Forall settlesWithValue functionCalls ->
  let tail := (handleAudioOutput message currentTime ;; handleInterruption message) c in
  handleMessage message currentTime c =
  mkRun (fst tail)
        (flat_map (fun fc => fst (dispatch c fc)) functionCalls ++ snd tail) Normal.
Proof.
  intros Htc Hall. unfold handleMessage, handleToolCalls. rewrite Htc.
  rewrite (dispatchAll_normal c functionCalls Hall).
  destruct ((handleAudioOutput message currentTime ;; handleInterruption message) c).
  reflexivity.
Qed.

Lemma answered_once functionCalls fc :
  NoDup (map fc_id functionCalls) ->
  In fc functionCalls ->
  List.length
    (filter (fun fr => String.eqb (fr_id fr) (fc_id fc))
       (map (fun fc' => functionResponse fc' (resultFor fc')) functionCalls)) = 1%nat.
Proof.
  induction functionCalls as [| a rest IH]; simpl; [tauto |].
  intros Hnd Hin. inversion Hnd as [| ? ? Hfresh Hrest]; subst.
  destruct Hin as [-> | Hin].
  - rewrite String.eqb_refl. simpl. f_equal.
    clear IH Hnd Hrest. induction rest as [| b rest IH]; simpl; auto.
    simpl in Hfresh.
    destruct (String.eqb_spec (fc_id b) (fc_id fc)) as [Heq | Hne]; [tauto | tauto].
  - destruct (String.eqb_spec (fc_id a) (fc_id fc)) as [Heq | Hne].
    + exfalso. apply Hfresh. rewrite Heq. now apply in_map.
    + auto.
Qed.

(** C3 (as amended). While the client holds a fulfilled session handle, and
    every handler called for the message settles with a value (returns, or
    fails with something other than null or undefined), the replies handed
    to the session are, in order, one reply per invocation of the message,
    each with the invocation's id and name and the result or failure payload
    of its handler; with distinct ids, exactly one reply carries the id of
    each invocation. *)
Theorem tool_calls_answered_once (message : LiveServerMessage) (currentTime : number)
        (c : LiveClient) (functionCalls : list FunctionCall) (session : Session) :
  toolCall message = Some functionCalls ->
  sessionPromise c = Some (Fulfilled session) ->
  Forall settlesWithValue functionCalls ->
  let sent := replies (effects (handleMessage message currentTime c)) in
  sent = map (fun fc => functionResponse fc (resultFor fc)) functionCalls
  /\ (NoDup (map fc_id functionCalls) ->
      forall fc, In fc functionCalls ->
        List.length (filter (fun fr => String.eqb (fr_id fr) (fc_id fc)) sent) = 1%nat).
Proof.
  intros Htc Hs Hall sent.
  assert (Hsent : sent = map (fun fc => functionResponse fc (resultFor fc)) functionCalls).
  { subst sent.
    rewrite (handleMessage_tools_normal message currentTime c functionCalls Htc Hall).
    simpl. rewrite replies_app, playback_replies, app_nil_r.
    apply (dispatchAll_replies c functionCalls session Hs Hall). }
  split; [exact Hsent |].
  intros Hnd fc Hin. rewrite Hsent. now apply answered_once.
Qed.

(** With no session handle, or a rejected one, nothing is sent. *)
Lemma no_session_no_reply message currentTime c :
  (forall session, sessionPromise c <> Some (Fulfilled session)) ->
  replies (effects (handleMessage message currentTime c)) = [].
Proof.
  intros Hs.
  assert (Hd : forall fc, replies (fst (dispatch c fc)) = []).
  { intros fc. unfold dispatch, sendToolResponse, withSession.
    destruct (sessionPromise c) as [[session | e] |];
      [exfalso; eapply Hs; eauto | |];
      (destruct (onSystemAction _ _) as [result | err];
       [| destruct (errStrOf err)]; reflexivity). }
  assert (Hall : forall fcs, replies (fst (dispatchAll c fcs)) = []).
  { induction fcs as [| fc rest IH]; simpl; auto.
    specialize (Hd fc). destruct (dispatch c fc) as [evs []]; simpl in *; auto.
    destruct (dispatchAll c rest) as [evs' k]; simpl in *.
    now rewrite replies_app, Hd, IH. }
  unfold handleMessage, handleToolCalls.
  destruct (toolCall message) as [fcs |].
  - specialize (Hall fcs). destruct (dispatchAll c fcs) as [evs []]; simpl in *; auto.
    pose proof (playback_replies message currentTime c) as Hp.
    destruct ((handleAudioOutput message currentTime ;; handleInterruption message) c).
    simpl in *. now rewrite replies_app, Hall, Hp.
  - pose proof (playback_replies message currentTime c) as Hp.
    destruct ((handleAudioOutput message currentTime ;; handleInterruption message) c).
    simpl in *. auto.
Qed.

Lemma errStrOf_message err msg :
  messageOf err = Some msg -> msg <> "" -> errStrOf err = Some msg.
Proof.
  destruct err as [| m | [m |]]; simpl; intros H Hne; inversion H; subst;
    destruct msg; simpl; congruence.
Qed.

(** [err.message || "Unknown tool failure"] for a thrown value that is not
    [null] or [undefined]: the text of the log entry and of the payload. *)
Definition failureText (err : JsThrown) : string :=
  match messageOf err with
  | Some msg => if truthy msg then msg else "Unknown tool failure"
  | None => "Unknown tool failure"
  end.

Lemma errStrOf_failureText err :
  err <> ThrownNullish -> errStrOf err = Some (failureText err).
Proof.
  unfold failureText. destruct err as [| m | [m |]]; simpl; intros H;
    [congruence | reflexivity ..].
Qed.

Lemma failureText_message err msg :
  messageOf err = Some msg -> msg <> "" -> failureText err = msg.
Proof.
  unfold failureText. intros -> Hne. destruct msg; [congruence | reflexivity].
Qed.

(** The loop reaches an invocation when the invocations before it settle
    with a value; what the iteration for it emits is part of the trace,
    whatever follows. *)
Lemma dispatchAll_reaches c before fc rest :
  Forall settlesWithValue before ->
  snd (dispatch c fc) = Normal ->
  dispatchAll c (before ++ fc :: rest) =
  (flat_map (fun fc' => fst (dispatch c fc')) before
   ++ fst (dispatch c fc) ++ fst (dispatchAll c rest),
   snd (dispatchAll c rest)).
Proof.
  intros Hall Hfc.
  induction Hall as [| a before Ha Hbefore IH]; simpl.
  - destruct (dispatch c fc) as [evs k]; simpl in *; subst k.
    destruct (dispatchAll c rest); reflexivity.
  - pose proof (dispatch_normal c a Ha) as Hn.
    destruct (dispatch c a) as [evs k]; simpl in *; subst k.
    rewrite IH. simpl. now rewrite app_assoc.
Qed.

Lemma dispatched_events message currentTime c before fc rest event :
  toolCall message = Some (before ++ fc :: rest) ->
  Forall settlesWithValue before ->
  snd (dispatch c fc) = Normal ->
  In event (fst (dispatch c fc)) ->
  In event (effects (handleMessage message currentTime c)).
Proof.
  intros Htc Hall Hfc Hin. unfold handleMessage, handleToolCalls.
  rewrite Htc, (dispatchAll_reaches c before fc rest Hall Hfc).
  assert (Hev : In event (flat_map (fun fc' => fst (dispatch c fc')) before
                          ++ fst (dispatch c fc) ++ fst (dispatchAll c rest))).
  { apply in_or_app; right. apply in_or_app; left. exact Hin. }
  destruct (snd (dispatchAll c rest)).
  - destruct ((handleAudioOutput message currentTime ;; handleInterruption message) c).
    simpl. apply in_or_app; left. exact Hev.
  - exact Hev.
Qed.

(** C4 (as amended). When the handler of an invocation that the loop
    reaches fails with a value other than [null] or [undefined], the
    dispatcher recovers inside [handleMessage]: a log entry of severity
    error is emitted with the text [err.message || "Unknown tool failure"]
    (the message of the error when it carries a non-empty one), and the
    loop goes on to the invocations that follow.  While the client holds a
    fulfilled session handle, the reply for the invocation carries
    [{error: <that text>, status: "FAILED"}] as its result; a client that
    holds no fulfilled session handle sends no reply at all. *)
Theorem tool_failure_replied (message : LiveServerMessage) (currentTime : number)
        (c : LiveClient) (before : list FunctionCall) (fc : FunctionCall)
        (rest : list FunctionCall) (err : JsThrown) :
  toolCall message = Some (before ++ fc :: rest) ->
  Forall settlesWithValue before ->
  onSystemAction (fc_name fc) (fc_args fc) = Rejected err ->
  err <> ThrownNullish ->
  let r := handleMessage message currentTime c in
  In (OnLog (mkLog SYSTEM
               (String.append "CRITICAL: Tool Failure ("
                  (String.append (fc_name fc) (String.append ") - " (failureText err))))
               LogError)) (effects r)
  /\ (forall session,
        sessionPromise c = Some (Fulfilled session) ->
        In (SendToolResponse
              [mkFunctionResponse (fc_id fc) (fc_name fc)
                 (JsObject [("result",
                             JsObject [("error", JsString (failureText err));
                                       ("status", JsString "FAILED")])])])
           (effects r))
  /\ ((forall session, sessionPromise c <> Some (Fulfilled session)) ->
      replies (effects r) = [])
  /\ (forall msg, messageOf err = Some msg -> msg <> "" -> failureText err = msg)
  /\ (Forall settlesWithValue rest -> completion r = Normal).
Proof.
  intros Htc Hall Herr Hvalue r. subst r.
  assert (Hd : dispatch c fc =
               (OnLog (mkLog JARVIS (String.append "Executing protocol: " (fc_name fc))
                         LogInfo) ::
                OnLog (mkLog SYSTEM
                         (String.append "CRITICAL: Tool Failure ("
                            (String.append (fc_name fc)
                               (String.append ") - " (failureText err))))
                         LogError) ::
                sendToolResponse c fc (failurePayload (failureText err)), Normal)).
  { unfold dispatch. rewrite Herr, (errStrOf_failureText err Hvalue). reflexivity. }
  assert (Hn : snd (dispatch c fc) = Normal) by (rewrite Hd; reflexivity).
  split; [| split; [| split; [| split]]].
  - apply (dispatched_events message currentTime c before fc rest _ Htc Hall Hn).
    rewrite Hd. simpl. auto.
  - intros session Hs.
    apply (dispatched_events message currentTime c before fc rest _ Htc Hall Hn).
    rewrite Hd. unfold sendToolResponse, withSession. rewrite Hs. simpl. auto.
  - apply no_session_no_reply.
  - apply failureText_message.
  - intros Hrest.
    assert (Hfc : settlesWithValue fc).
    { unfold settlesWithValue. rewrite Herr. congruence. }
    rewrite (handleMessage_tools_normal message currentTime c (before ++ fc :: rest) Htc);
      [reflexivity |].
    apply Forall_app. split; [exact Hall |]. constructor; assumption.
Qed.

(** *** The capture path *)

Lemma onaudioprocess_unmuted inputData c session :
  isMuted c = false ->
  sessionPromise c = Some (Fulfilled session) ->
  onaudioprocess inputData c = (c, captureEvents inputData).
Proof.
  intros Hm Hs. unfold onaudioprocess, captureEvents, withSession.
  rewrite Hm, Hs. reflexivity.
Qed.

Lemma muted_frames_dropped frames c :
  isMuted c = true -> audioprocessAll frames c = (c, []).
Proof.
  intros Hm. induction frames as [| inputData rest IH]; simpl; auto.
  unfold audioprocess, onaudioprocess. rewrite Hm.
  destruct (processor c); rewrite IH; reflexivity.
Qed.

Lemma unmuted_frames_processed frames c node session :
  processor c = Some node ->
  isMuted c = false ->
  sessionPromise c = Some (Fulfilled session) ->
  audioprocessAll frames c = (c, flat_map captureEvents frames).
Proof.
  intros Hp Hm Hs. induction frames as [| inputData rest IH]; simpl; auto.
  unfold audioprocess. rewrite Hp, (onaudioprocess_unmuted inputData c session Hm Hs), IH.
  reflexivity.
Qed.

(** C5. [setMute] only sets the flag and calls nobody.  While the flag is
    set every capture frame is dropped whole: no loudness callback, no
    outbound frame, the client unchanged.  After [setMute(false)] the client
    holds the same session handle and the frames that follow are processed
    in full: loudness is reported (above the noise floor) and each frame is
    handed to the session. *)
Theorem mute_drops_frames (c : LiveClient) (frames : list (list number))
        (node : ScriptProcessorNode) (session : Session) :
  processor c = Some node ->
  sessionPromise c = Some (Fulfilled session) ->
  let muted := fst (setMute true c) in
  let resumed := fst (setMute false muted) in
  snd (setMute true c) = []
  /\ isMuted muted = true
  /\ audioprocessAll frames muted = (muted, [])
  /\ snd (setMute false muted) = []
  /\ sessionPromise resumed = sessionPromise c
  /\ audioprocessAll frames resumed = (resumed, flat_map captureEvents frames).
Proof.
  intros Hp Hs muted resumed. subst muted resumed.
  unfold setMute, update; simpl.
  split; [reflexivity |]. split; [reflexivity |].
  split; [now apply muted_frames_dropped |].
  split; [reflexivity |]. split; [reflexivity |].
  now apply (unmuted_frames_processed frames _ node session).
Qed.

(** *** disconnect *)

Lemma statuses_tracks l : statuses (map TrackStop l) = [].
Proof. induction l; simpl; auto. Qed.

Lemma statuses_stops l : statuses (map SourceStop l) = [].
Proof. induction l; simpl; auto. Qed.

Lemma errorsReported_app evs1 evs2 :
  errorsReported (evs1 ++ evs2) = errorsReported evs1 ++ errorsReported evs2.
Proof. revert evs2; by_events evs1 IH. Qed.

Lemma errorsReported_tracks l : errorsReported (map TrackStop l) = [].
Proof. induction l; simpl; auto. Qed.

Lemma errorsReported_stops l : errorsReported (map SourceStop l) = [].
Proof. induction l; simpl; auto. Qed.

Ltac run_disconnect c :=
  destruct c as [sp ictx octx st pr so nst act mu nc];
  unfold disconnect, andThen, releaseProcessor, releaseSource, releaseStream,
    closeInputContext, closeOutputContext, stopActiveSources, closeSession; simpl;
  destruct pr; simpl; destruct so; simpl; destruct st; simpl;
  destruct ictx as [[? []] |]; simpl;
  destruct octx as [[? []] |]; simpl;
  destruct sp as [[] |]; simpl.

Lemma disconnect_released c : released (fst (disconnect c)).
Proof. run_disconnect c; unfold released; simpl; tauto. Qed.

Lemma disconnect_silent c :
  statuses (snd (disconnect c)) = [] /\ errorsReported (snd (disconnect c)) = [].
Proof.
  run_disconnect c;
    repeat (rewrite ?statuses_app, ?errorsReported_app, ?statuses_tracks,
             ?statuses_stops, ?errorsReported_tracks, ?errorsReported_stops; simpl);
    auto.
Qed.

Lemma disconnect_again c : disconnect (fst (disconnect c)) = (fst (disconnect c), []).
Proof. run_disconnect c; reflexivity. Qed.

Lemma disconnect_closes_session c session :
  sessionPromise c = Some (Fulfilled session) -> In SessionClose (snd (disconnect c)).
Proof.
  intros Hs. run_disconnect c; simpl in Hs; try discriminate;
    repeat first [left; reflexivity | apply in_or_app; right | right].
Qed.

(** C8 (as amended). From every state [disconnect] runs to its end, leaves
    every capture and playback resource released and the session handle
    cleared, and a second call right after does nothing and changes nothing.
    [disconnect] itself reports no status and no error to the collaborator:
    it closes the session when one is open, and DISCONNECTED is what the
    close callback reports. *)
Theorem disconnect_idempotent (c : LiveClient) :
  let r := disconnect c in
  released (fst r)
  /\ statuses (snd r) = []
  /\ errorsReported (snd r) = []
  /\ disconnect (fst r) = (fst r, [])
  /\ (forall session,
        sessionPromise c = Some (Fulfilled session) -> In SessionClose (snd r))
  /\ (forall init, lastStatus init (snd r ++ snd (handleClose (fst r))) = DISCONNECTED).
Proof.
  intros r. subst r.
  destruct (disconnect_silent c) as [Hs He].
  split; [apply disconnect_released |].
  split; [exact Hs |]. split; [exact He |].
  split; [apply disconnect_again |]. split.
  - intros session. apply disconnect_closes_session.
  - intros init. unfold lastStatus. rewrite statuses_app, Hs. reflexivity.
Qed.

(** *** Remote close *)

(** C9. The close callback reports DISCONNECTED and logs, and leaves the
    client as it was: nothing is released.  The capture frames delivered
    afterwards are processed as before (loudness above the noise floor is
    reported, each frame is encoded and handed to the session), until
    [disconnect] removes the processor, after which frames do nothing. *)
Theorem remote_close_keeps_capturing (c : LiveClient) (frames : list (list number))
        (node : ScriptProcessorNode) (session : Session) :
  processor c = Some node ->
  isMuted c = false ->
  sessionPromise c = Some (Fulfilled session) ->
  let closed := fst (handleClose c) in
  snd (handleClose c) =
    [ OnStatusChange DISCONNECTED;
      OnLog (mkLog SYSTEM "J.A.R.V.I.S. Protocol Offline" LogWarning) ]
  /\ closed = c
  /\ audioprocessAll frames closed = (closed, flat_map captureEvents frames)
  /\ audioprocessAll frames (fst (disconnect closed)) = (fst (disconnect closed), []).
Proof.
  intros Hp Hm Hs closed. subst closed. unfold handleClose, emit; simpl.
  split; [reflexivity |]. split; [reflexivity |].
  split; [now apply (unmuted_frames_processed frames c node session) |].
  destruct (disconnect_released c) as [Hnone _].
  induction frames as [| inputData rest IH]; simpl; auto.
  unfold audioprocess. rewrite Hnone, IH. reflexivity.
Qed.

(** *** connect *)

Lemma connectErrorMessage_cases error :
  let msg := connectErrorMessage error in
  msg = "ACCESS DENIED: Invalid API Key or Permissions."
  \/ msg = "SERVICE UNAVAILABLE: Server Overload."
  \/ msg = "NETWORK FAILURE: Unable to reach command servers."
  \/ msg = "Unknown Connection Protocol Error"
  \/ error = ThrownError msg.
Proof.
  destruct error as [| m | m]; simpl; auto.
  destruct (includes m "403"); [vm_compute; auto |].
  destruct (includes m "503"); [vm_compute; auto |].
  destruct (includes m "Failed to fetch"); auto 6.
Qed.

Lemma connectTry_failure env c error :
  tryFailure env = Some error ->
  snd (connectTry env c) = snd (connectCatch error c)
  /\ processor (fst (connectTry env c)) = processor c
  /\ source (fst (connectTry env c)) = source c
  /\ stream (fst (connectTry env c)) = stream c
  /\ sessionPromise (fst (connectTry env c)) = sessionPromise c
  /\ activeSources (fst (connectTry env c)) = activeSources c.
Proof.
  unfold tryFailure, connectTry.
  destruct (newInputContext env) as [e1 |];
    [| destruct (newOutputContext env) as [e2 |];
       [| destruct (getUserMedia env) as [ms | e3]]];
    intros H; inversion H; subst; simpl; auto 10.
Qed.

(** The categories of the [catch] clause as the amended claim words them:
    the permission text for a message that contains 403, otherwise the
    overload text for one that contains 503, otherwise the unreachable text
    for one that contains "Failed to fetch", otherwise the message itself. *)
Definition categorizedMessage (message : string) : string :=
  if includes message "403" then "ACCESS DENIED: Invalid API Key or Permissions."
  else if includes message "503" then "SERVICE UNAVAILABLE: Server Overload."
  else if includes message "Failed to fetch"
       then "NETWORK FAILURE: Unable to reach command servers."
       else message.

Lemma connectErrorMessage_categorized message :
  connectErrorMessage (ThrownError message) = categorizedMessage message.
Proof.
  unfold connectErrorMessage, categorizedMessage.
  destruct (includes message "403"); [reflexivity |].
  destruct (includes message "503"); [reflexivity |].
  destruct (includes message "Failed to fetch"); reflexivity.
Qed.

(** C6 (as amended). When a step of the [try] block of [connect] fails (a
    context constructor throws, or access to the capture device is denied),
    [connect] reports CONNECTING then ERROR, exactly one error message, and
    one log entry of severity error, and nothing else; CONNECTED is not
    reported.  For an [Error] the message is the permission text when its
    message contains 403, otherwise the overload text when it contains 503,
    otherwise the unreachable text when it contains "Failed to fetch", and
    otherwise the message of the [Error] itself; for any other thrown value
    it is the text for an unknown error.  [connect] then leaves the
    processor, the stream source, the stream, the session handle and the
    active playback handles of the client as they were: none is created.
    The audio contexts constructed before the failing step are kept: none
    when the first constructor throws, the input context when the second
    throws, and both, running, when the capture device is denied. *)
Theorem connect_failure_reported (env : ConnectEnv) (c : LiveClient)
        (error : JsThrown) (init : ConnectionState) :
  tryFailure env = Some error ->
  let r := connect env c in
  let msg := connectErrorMessage error in
  snd r = [ OnStatusChange CONNECTING;
            OnStatusChange ERROR;
            OnError msg;
            OnLog (mkLog SYSTEM (String.append "Connection Aborted: " msg) LogError) ]
  /\ errorsReported (snd r) = [msg]
  /\ ~ In CONNECTED (statuses (snd r))
  /\ lastStatus init (snd r) = ERROR
  /\ (forall message, error = ThrownError message -> msg = categorizedMessage message)
  /\ ((forall message, error <> ThrownError message) ->
      msg = "Unknown Connection Protocol Error")
  /\ processor (fst r) = processor c
  /\ source (fst r) = source c
  /\ stream (fst r) = stream c
  /\ sessionPromise (fst r) = sessionPromise c
  /\ activeSources (fst r) = activeSources c
  /\ (newInputContext env <> None ->
      inputAudioContext (fst r) = inputAudioContext c
      /\ outputAudioContext (fst r) = outputAudioContext c)
  /\ (newInputContext env = None ->
      newOutputContext env <> None ->
      inputAudioContext (fst r) = Some (mkAudioContext 16000%Z Running)
      /\ outputAudioContext (fst r) = outputAudioContext c)
  /\ (newInputContext env = None ->
      newOutputContext env = None ->
      getUserMedia env = Rejected error
      /\ inputAudioContext (fst r) = Some (mkAudioContext 16000%Z Running)
      /\ outputAudioContext (fst r) = Some (mkAudioContext 24000%Z Running)).
Proof.
  intros Hfail r msg. subst r msg.
  destruct (connectTry_failure env c error Hfail) as (Hev & Hp & Hso & Hst & Hsp & Hact).
  assert (Hctx :
            (newInputContext env <> None ->
             inputAudioContext (fst (connectTry env c)) = inputAudioContext c
             /\ outputAudioContext (fst (connectTry env c)) = outputAudioContext c)
            /\ (newInputContext env = None ->
                newOutputContext env <> None ->
                inputAudioContext (fst (connectTry env c))
                = Some (mkAudioContext 16000%Z Running)
                /\ outputAudioContext (fst (connectTry env c)) = outputAudioContext c)
            /\ (newInputContext env = None ->
                newOutputContext env = None ->
                getUserMedia env = Rejected error
                /\ inputAudioContext (fst (connectTry env c))
                   = Some (mkAudioContext 16000%Z Running)
                /\ outputAudioContext (fst (connectTry env c))
                   = Some (mkAudioContext 24000%Z Running))).
  { revert Hfail. unfold tryFailure, connectTry.
    destruct (newInputContext env) as [e1 |];
      [| destruct (newOutputContext env) as [e2 |];
         [| destruct (getUserMedia env) as [ms | e3]]];
      intros H; inversion H; subst; simpl;
      (split; [| split]); intros; try congruence; auto. }
  destruct Hctx as (Hc1 & Hc2 & Hc3).
  unfold connect, andThen, emit.
  destruct (connectTry env c) as [c' evs]; simpl in *. subst evs.
  unfold connectCatch, emit; simpl. unfold lastStatus; simpl.
  split; [reflexivity |]. split; [reflexivity |].
  split; [intros [H | [H | []]]; discriminate |].
  split; [reflexivity |].
  split; [intros message ->; apply connectErrorMessage_categorized |].
  split.
  { intros Hother. destruct error as [| message | message]; try reflexivity.
    exfalso. apply (Hother message). reflexivity. }
  repeat (split; [assumption |]). exact Hc3.
Qed.

(** A rejection of the promise of [client.live.connect] does not reach the
    [catch] clause: [connect] has stored the promise and returned. *)
Lemma connect_rejection_unreported env c mediaStream error :
  newInputContext env = None ->
  newOutputContext env = None ->
  getUserMedia env = Fulfilled mediaStream ->
  liveConnect env = Rejected error ->
  snd (connect env c) = [OnStatusChange CONNECTING]
  /\ sessionPromise (fst (connect env c)) = Some (Rejected error)
  /\ stream (fst (connect env c)) = Some mediaStream.
Proof.
  intros H1 H2 H3 H4. unfold connect, andThen, emit, connectTry.
  rewrite H1, H2, H3, H4. simpl. auto.
Qed.

(** *** Only the first part of a turn is read *)

Lemma handleMessage_ext m m' currentTime c :
  toolCall m = toolCall m' ->
  base64AudioOf m = base64AudioOf m' ->
  interruptedOf m = interruptedOf m' ->
  handleMessage m currentTime c = handleMessage m' currentTime c.
Proof.
  intros Ht Ha Hi.
  unfold handleMessage, handleToolCalls, andThen, handleAudioOutput, handleInterruption.
  rewrite Ht, Ha, Hi. reflexivity.
Qed.

Lemma handleMessage_no_audio message currentTime c :
  base64AudioOf message = None ->
  let r := handleMessage message currentTime c in
  scheduled (effects r) = [] /\ volumes (effects r) = []
  /\ (forall node, In node (activeSources (after r)) -> In node (activeSources c))
  /\ nodesCreated (after r) = nodesCreated c.
Proof.
  intros Ha. unfold handleMessage.
  destruct (handleToolCalls_quiet message c) as [Hq Hv].
  destruct (handleToolCalls message c) as [evs []]; simpl in *; [| auto].
  unfold andThen, handleAudioOutput, handleInterruption. rewrite Ha.
  destruct (interruptedOf message); simpl;
    rewrite ?scheduled_app, ?volumes_app, ?scheduled_app, ?volumes_app,
      ?scheduled_stops, ?volumes_stops, ?Hq, ?Hv; simpl; auto.
  repeat split; auto. intros node [].
Qed.

(** C10. Of the parts of a model turn only the first is read.  When the
    first part carries no inline data, whatever the later parts carry, the
    message schedules no playback, delivers no loudness, registers no handle
    and creates no source node; and the message is handled exactly as the
    message that holds the first part alone. *)
Theorem only_first_part_is_played (message : LiveServerMessage) (currentTime : number)
        (c : LiveClient) (sc : ServerContent) (turn : Content)
        (first : Part) (later : list Part) :
  serverContent message = Some sc ->
  modelTurn sc = Some turn ->
  parts turn = first :: later ->
  inlineData first = None ->
  let r := handleMessage message currentTime c in
  scheduled (effects r) = []
  /\ volumes (effects r) = []
  /\ (forall node, In node (activeSources (after r)) -> In node (activeSources c))
  /\ nodesCreated (after r) = nodesCreated c
  /\ r = handleMessage
           (mkMessage (toolCall message)
              (Some (mkServerContent (Some (mkContent [first])) (interrupted sc))))
           currentTime c.
Proof.
  intros Hsc Hturn Hparts Hfirst r. subst r.
  assert (Ha : base64AudioOf message = None).
  { unfold base64AudioOf. rewrite Hsc, Hturn, Hparts. simpl. now rewrite Hfirst. }
  destruct (handleMessage_no_audio message currentTime c Ha) as (H1 & H2 & H3 & H4).
  repeat split; auto.
  apply handleMessage_ext; simpl.
  - reflexivity.
  - rewrite Ha. unfold base64AudioOf. simpl. now rewrite Hfirst.
  - unfold interruptedOf. rewrite Hsc. reflexivity.
Qed.

(** What is read of the parts is the first one, with or without data. *)
Lemma later_parts_ignored tc first later flag currentTime c :
  handleMessage
    (mkMessage tc (Some (mkServerContent (Some (mkContent (first :: later))) flag)))
    currentTime c
  = handleMessage
      (mkMessage tc (Some (mkServerContent (Some (mkContent [first])) flag)))
      currentTime c.
Proof. apply handleMessage_ext; reflexivity. Qed.

(** *** Loudness *)

Lemma playbackLevel_bounded audioBytes : 0 <= playbackLevel audioBytes <= 1.
Proof.
  unfold playbackLevel, playbackRms. split.
  - apply Rmin_glb; [lra |].
    pose proof (sqrt_pos (pcmSquares audioBytes 0 / (INR (List.length audioBytes) / 2))).
    lra.
  - apply Rmin_l.
Qed.

(** Every volume the playback path delivers lies in [0,1]. *)
Lemma playback_volume_bounded message currentTime c v :
  In v (volumes (snd (handleAudioOutput message currentTime c))) -> 0 <= v <= 1.
Proof.
  unfold handleAudioOutput.
  destruct (base64AudioOf message) as [base64Audio |];
    [destruct (outputAudioContext c); [destruct (truthy base64Audio) |] |];
    simpl; try (intros []; fail).
  intros [<- | []]. apply playbackLevel_bounded.
Qed.

Lemma frameSquares_constant x n a :
  fold_left (fun sum y => sum + y * y) (repeat x n) a = a + INR n * (x * x).
Proof.
  revert a. induction n as [| n IH]; intros a.
  - simpl. lra.
  - change (repeat x (S n)) with (x :: repeat x n).
    cbn [fold_left]. rewrite IH, S_INR. lra.
Qed.

Lemma captureRms_constant x n :
  0 <= x -> (0 < n)%nat -> captureRms (repeat x n) = x.
Proof.
  intros Hx Hn. unfold captureRms, frameSquares.
  rewrite frameSquares_constant, repeat_length.
  assert (Hpos : 0 < INR n) by (apply lt_0_INR; exact Hn).
  replace ((0 + INR n * (x * x)) / INR n) with (x * x) by (field; lra).
  now apply sqrt_square.
Qed.

(** On the capture path the level handed to [onAudioData] is [rms * 5]
    as it is: a frame whose RMS exceeds 1/5 is reported above 1. *)
Lemma capture_level_above_one inputData c node :
  processor c = Some node ->
  isMuted c = false ->
  1 / 5 < captureRms inputData ->
  exists v, In v (volumes (snd (audioprocess inputData c))) /\ 1 < v.
Proof.
  intros Hp Hm Hrms. exists (captureRms inputData * 5).
  split; [| lra].
  unfold audioprocess, onaudioprocess. rewrite Hp, Hm. simpl.
  destruct (Rgt_dec (captureRms inputData) (1 / 100)) as [_ | Hn]; [| exfalso; lra].
  rewrite volumes_app. simpl. auto.
Qed.

(** C7. On the connected client, a capture frame of 4096 samples of value
    1/2 is reported to [onAudioData] with volume 5/2, which is above 1: the
    capture path scales the RMS by 5 and does not clamp. *)
Theorem capture_level_not_clamped :
  volumes (snd (audioprocess (repeat (1 / 2) 4096) connectedClient)) = [5 / 2]
  /\ 1 < 5 / 2.
Proof.
  split; [| lra].
  unfold audioprocess, onaudioprocess, withSession.
  change (processor connectedClient) with (Some (mkScriptProcessor 4096)).
  change (isMuted connectedClient) with false.
  change (sessionPromise connectedClient) with (Some (Fulfilled TheSession)).
  cbv iota beta.
  rewrite (captureRms_constant (1 / 2) 4096) by (lra || lia).
  destruct (Rgt_dec (1 / 2) (1 / 100)) as [_ | Hn]; [| exfalso; lra].
  cbn [app fst snd volumes]. f_equal. lra.
Qed.

(** ** More of the class *)

(** *** What handling a message leaves alone *)

Lemma statuses_dispatchAll c fcs :
  statuses (fst (dispatchAll c fcs)) = [] /\ errorsReported (fst (dispatchAll c fcs)) = [].
Proof.
  assert (Hd : forall fc, statuses (fst (dispatch c fc)) = []
                          /\ errorsReported (fst (dispatch c fc)) = []).
  { intros fc. unfold dispatch, sendToolResponse, withSession.
    destruct (onSystemAction _ _) as [result | err]; [| destruct (errStrOf err)];
      destruct (sessionPromise c) as [[session | e] |]; simpl; auto. }
  induction fcs as [| fc rest IH]; simpl; auto.
  destruct (Hd fc) as [Hs He].
  destruct (dispatch c fc) as [evs []]; simpl in *; auto.
  destruct (dispatchAll c rest) as [evs' k]; simpl in *.
  rewrite statuses_app, errorsReported_app, Hs, He.
  destruct IH as [-> ->]; auto.
Qed.

Lemma playback_fields message currentTime c :
  let out := (handleAudioOutput message currentTime ;; handleInterruption message) c in
  statuses (snd out) = [] /\ errorsReported (snd out) = []
  /\ sessionPromise (fst out) = sessionPromise c
  /\ inputAudioContext (fst out) = inputAudioContext c
  /\ outputAudioContext (fst out) = outputAudioContext c
  /\ stream (fst out) = stream c
  /\ processor (fst out) = processor c
  /\ source (fst out) = source c
  /\ isMuted (fst out) = isMuted c.
Proof.
  destruct c as [sp ictx octx st pr so nst act mu nc].
  unfold andThen, handleAudioOutput, handleInterruption. cbn [outputAudioContext].
  destruct (base64AudioOf message) as [base64Audio |];
    [destruct octx; [destruct (truthy base64Audio) |] |];
    destruct (interruptedOf message); simpl;
    rewrite ?statuses_app, ?errorsReported_app, ?statuses_stops, ?errorsReported_stops;
    simpl; repeat split; reflexivity.
Qed.

(** The statements of [handleMessage] themselves report no status and no
    error and assign none of the fields below (what a tool handler does to
    the client while it is awaited is not part of them). *)
Lemma handleMessage_fields (message : LiveServerMessage)
        (currentTime : number) (c : LiveClient) :
  let r := handleMessage message currentTime c in
  statuses (effects r) = []
  /\ errorsReported (effects r) = []
  /\ sessionPromise (after r) = sessionPromise c
  /\ inputAudioContext (after r) = inputAudioContext c
  /\ outputAudioContext (after r) = outputAudioContext c
  /\ stream (after r) = stream c
  /\ processor (after r) = processor c
  /\ source (after r) = source c
  /\ isMuted (after r) = isMuted c.
Proof.
  unfold handleMessage, handleToolCalls.
  assert (Ht : statuses (fst (match toolCall message with
                              | Some fcs => dispatchAll c fcs
                              | None => ([], Normal)
                              end)) = []
               /\ errorsReported (fst (match toolCall message with
                                       | Some fcs => dispatchAll c fcs
                                       | None => ([], Normal)
                                       end)) = []).
  { destruct (toolCall message); simpl; auto using statuses_dispatchAll. }
  destruct (match toolCall message with
            | Some fcs => dispatchAll c fcs
            | None => ([], Normal)
            end) as [evs []]; simpl in Ht; destruct Ht as [Hs He].
  - pose proof (playback_fields message currentTime c) as Hp.
    destruct ((handleAudioOutput message currentTime ;; handleInterruption message) c)
      as [c' evs']. simpl in *.
    rewrite statuses_app, errorsReported_app, Hs, He. simpl. exact Hp.
  - simpl. repeat split; auto.
Qed.

(** *** Never in the past *)

Lemma enqueued_step message currentTime rest c :
  enqueued ((message, currentTime) :: rest) c =
  match chunkOf message c with
  | Some audioBuffer => [(currentTime, duration audioBuffer)]
  | None => []
  end ++ enqueued rest (after (handleMessage message currentTime c)).
Proof. reflexivity. Qed.

(** X2. For any sequence of inbound messages that carry no tool call
    (a message with one waits for its handler before its audio is handled,
    and later messages overtake it), interruptions included, the chunks
    scheduled are the chunks enqueued, one for one and in order, each with
    its own duration, and each starts no earlier than the output clock at
    its arrival: no chunk is scheduled in the past. *)
Theorem playback_never_in_the_past (arrivals : list (LiveServerMessage * number))
        (c : LiveClient) :
  Forall (fun a => toolCall (fst a) = None) arrivals ->
  Forall2 (fun sch enq => fst enq <= fst sch /\ snd sch = snd enq)
          (scheduled (snd (handleMessages arrivals c)))
          (enqueued arrivals c).
Proof.
  intros _. revert c.
  induction arrivals as [| [message currentTime] rest IH]; intros c.
  - constructor.
  - rewrite enqueued_step. cbn [handleMessages].
    specialize (IH (after (handleMessage message currentTime c))).
    pose proof (handleMessage_start message currentTime c) as Hstart.
    destruct (handleMessages rest (after (handleMessage message currentTime c)))
      as [c' evs]. cbn [snd] in *.
    rewrite scheduled_app, Hstart.
    destruct (chunkOf message c) as [audioBuffer |]; cbn [app]; [| exact IH].
    constructor; [| exact IH].
    cbn [fst snd]. split; [apply Rmax_r | reflexivity].
Qed.

(** *** The playback meter *)

(** The data of a message decodes to at least one byte (with none, the
    mean of the squares is 0/0). *)
Definition decodesToBytes (message : LiveServerMessage) : Prop :=
  forall base64Audio,
    base64AudioOf message = Some base64Audio ->
    base64ToUint8Array base64Audio <> [].

Lemma handleMessage_volumes message currentTime c v :
  In v (volumes (effects (handleMessage message currentTime c))) -> 0 <= v <= 1.
Proof.
  unfold handleMessage.
  destruct (handleToolCalls_quiet message c) as [_ Hv].
  destruct (handleToolCalls message c) as [evs []]; simpl in *;
    [| rewrite Hv; intros []].
  unfold andThen.
  pose proof (playback_volume_bounded message currentTime c v) as Hb.
  destruct (handleAudioOutput message currentTime c) as [c1 evs1].
  unfold handleInterruption.
  destruct (interruptedOf message); simpl in *;
    rewrite !volumes_app, ?volumes_stops, Hv; simpl; rewrite ?app_nil_r; exact Hb.
Qed.

(** X3. Every volume the playback path hands to [onAudioData], over any
    sequence of inbound messages, lies between 0 and 1 (for chunks that
    decode to at least one byte). *)
Theorem playback_volumes_bounded (arrivals : list (LiveServerMessage * number))
        (c : LiveClient) :
  Forall (fun a => decodesToBytes (fst a)) arrivals ->
  Forall (fun v => 0 <= v <= 1) (volumes (snd (handleMessages arrivals c))).
Proof.
  intros _. revert c.
  induction arrivals as [| [message currentTime] rest IH]; intros c; simpl.
  - constructor.
  - specialize (IH (after (handleMessage message currentTime c))).
    destruct (handleMessages rest (after (handleMessage message currentTime c)))
      as [c' evs]. simpl in *.
    rewrite volumes_app. apply Forall_app. split; [| exact IH].
    apply Forall_forall. intros v. apply handleMessage_volumes.
Qed.

(** *** A handler that rejects with null or undefined *)

Lemma dispatchAll_abort c before fc rest :
  Forall settlesWithValue before ->
  onSystemAction (fc_name fc) (fc_args fc) = Rejected ThrownNullish ->
  dispatchAll c (before ++ fc :: rest) =
  (flat_map (fun fc' => fst (dispatch c fc')) before
   ++ [OnLog (mkLog JARVIS (String.append "Executing protocol: " (fc_name fc)) LogInfo)],
   Abrupt).
Proof.
  intros Hall Hrej.
  induction Hall as [| a before Ha Hbefore IH]; simpl.
  - unfold dispatch. rewrite Hrej. reflexivity.
  - pose proof (dispatch_normal c a Ha) as Hn.
    destruct (dispatch c a) as [evs k]; simpl in *; subst k.
    rewrite IH. now rewrite app_assoc.
Qed.

(** X4. When the handler of an invocation rejects with null or undefined,
    the exception raised in the catch clause ends the handling of the whole
    message: the invocations before it are answered as usual, the failing
    one is announced and gets neither an error log entry nor a reply, the
    invocations after it are not dispatched, and the audio and the
    interruption flag of the message are not handled (the client is left as
    it was). *)
Theorem nullish_rejection_aborts_message (message : LiveServerMessage)
        (currentTime : number) (c : LiveClient)
        (before : list FunctionCall) (fc : FunctionCall) (rest : list FunctionCall) :
  toolCall message = Some (before ++ fc :: rest) ->
  Forall settlesWithValue before ->
  onSystemAction (fc_name fc) (fc_args fc) = Rejected ThrownNullish ->
  let r := handleMessage message currentTime c in
  completion r = Abrupt
  /\ after r = c
  /\ effects r =
     flat_map (fun fc' => fst (dispatch c fc')) before
     ++ [OnLog (mkLog JARVIS (String.append "Executing protocol: " (fc_name fc)) LogInfo)].
Proof.
  intros Htc Hall Hrej. unfold handleMessage, handleToolCalls.
  rewrite Htc, (dispatchAll_abort c before fc rest Hall Hrej). auto.
Qed.

(** *** The capture meter *)

Lemma frameSquares_bounds a inputData acc :
  Forall (fun x => - a <= x <= a) inputData ->
  acc <= fold_left (fun sum x => sum + x * x) inputData acc
      <= acc + INR (List.length inputData) * (a * a).
Proof.
  intros Hall. revert acc.
  induction Hall as [| x rest Hx Hrest IH]; intros acc.
  - simpl. lra.
  - cbn [fold_left List.length]. rewrite S_INR.
    specialize (IH (acc + x * x)).
    assert (0 <= x * x <= a * a) by nra.
    lra.
Qed.

Lemma captureRms_amplitude a inputData :
  0 <= a ->
  Forall (fun x => - a <= x <= a) inputData ->
  0 <= captureRms inputData <= a.
Proof.
  intros Ha Hall. unfold captureRms, frameSquares.
  split; [apply sqrt_pos |].
  pose proof (frameSquares_bounds a inputData 0 Hall) as [Hlo Hhi].
  set (total := fold_left (fun sum x => sum + x * x) inputData 0) in *.
  rewrite <- (sqrt_square a Ha). apply sqrt_le_1_alt.
  destruct inputData as [| x rest].
  - subst total. simpl. unfold Rdiv. rewrite Rmult_0_l. nra.
  - assert (Hn : 0 < INR (List.length (x :: rest))) by (apply lt_0_INR; simpl; lia).
    apply (Rmult_le_reg_r (INR (List.length (x :: rest)))); [exact Hn |].
    unfold Rdiv. rewrite Rmult_assoc, Rinv_l by lra. lra.
Qed.

Lemma audioprocess_volumes inputData c v :
  In v (volumes (snd (audioprocess inputData c))) ->
  v = captureRms inputData * 5 /\ 1 / 100 < captureRms inputData.
Proof.
  unfold audioprocess, onaudioprocess.
  destruct (processor c); [| intros []].
  destruct (isMuted c); [intros [] |].
  cbn [snd]. rewrite volumes_app.
  assert (Hsend : forall k, volumes (withSession c k) = []
                            \/ exists session, volumes (withSession c k) = volumes (k session)).
  { intros k. unfold withSession.
    destruct (sessionPromise c) as [[session | e] |]; eauto. }
  destruct (Hsend (fun _ => [SendRealtimeInput "audio/pcm;rate=16000"
                               (arrayBufferToBase64 (float32ToPCM16 inputData))]))
    as [-> | [session ->]]; simpl; rewrite app_nil_r;
    (destruct (Rgt_dec (captureRms inputData) (1 / 100)) as [Hgt | _];
     [intros [<- | []]; split; [reflexivity | lra] | intros []]).
Qed.

(** X5. For a capture frame whose samples lie in [-1, 1], every volume
    the capture path hands to [onAudioData] is above 1/20 and at most 5:
    the noise floor bounds it from below, and five times the largest RMS of
    such a frame bounds it from above. *)
Theorem capture_level_range (inputData : list number) (c : LiveClient) (v : number) :
  Forall (fun x => - 1 <= x <= 1) inputData ->
  In v (volumes (snd (audioprocess inputData c))) ->
  1 / 20 < v <= 5.
Proof.
  intros Hall Hin.
  destruct (audioprocess_volumes inputData c v Hin) as [-> Hfloor].
  assert (H01 : 0 <= 1) by lra.
  destruct (captureRms_amplitude 1 inputData H01 Hall) as [_ Hup].
  lra.
Qed.

(** X6. A capture frame whose samples all lie within the noise floor
    (silence and the empty frame among them) is encoded and handed to the
    session like any other, and no loudness is reported for it. *)
Theorem quiet_frame_sent_unreported (inputData : list number) (c : LiveClient)
        (node : ScriptProcessorNode) (session : Session) :
  processor c = Some node ->
  isMuted c = false ->
  sessionPromise c = Some (Fulfilled session) ->
  Forall (fun x => - (1 / 100) <= x <= 1 / 100) inputData ->
  audioprocess inputData c =
  (c, [SendRealtimeInput "audio/pcm;rate=16000"
         (arrayBufferToBase64 (float32ToPCM16 inputData))]).
Proof.
  intros Hp Hm Hs Hall.
  assert (Hpos : 0 <= 1 / 100) by lra.
  destruct (captureRms_amplitude (1 / 100) inputData Hpos Hall) as [_ Hup].
  unfold audioprocess. rewrite Hp, (onaudioprocess_unmuted inputData c session Hm Hs).
  unfold captureEvents.
  destruct (Rgt_dec (captureRms inputData) (1 / 100)) as [Hgt | _]; [exfalso; lra |].
  reflexivity.
Qed.

(** *** The other callbacks of the session *)

(** X8. The open callback always reports CONNECTED and logs; it starts
    the capture pipeline (a 4096-sample processor and the stream source)
    when the client holds an input context and a stream, and changes
    nothing otherwise.  An open callback that arrives after [disconnect]
    therefore reports CONNECTED on a client that captures nothing. *)
Theorem open_starts_capture (c : LiveClient) (inputData : list number) :
  let r := handleOpen c in
  snd r = [ OnStatusChange CONNECTED;
            OnLog (mkLog SYSTEM "J.A.R.V.I.S. Protocol Online" LogSuccess) ]
  /\ (inputAudioContext c <> None -> stream c <> None ->
      processor (fst r) = Some (mkScriptProcessor 4096) /\ source (fst r) = Some tt)
  /\ (inputAudioContext c = None \/ stream c = None -> fst r = c)
  /\ fst (handleOpen (fst (disconnect c))) = fst (disconnect c)
  /\ audioprocess inputData (fst (handleOpen (fst (disconnect c))))
     = (fst (disconnect c), []).
Proof.
  assert (Hlate : fst (handleOpen (fst (disconnect c))) = fst (disconnect c)).
  { destruct (disconnect_released c) as (_ & _ & Hst & _).
    unfold handleOpen, andThen, emit, startAudioStreaming. simpl. rewrite Hst.
    destruct (inputAudioContext (fst (disconnect c))); reflexivity. }
  unfold handleOpen, andThen, emit, startAudioStreaming in *. simpl in *.
  split; [destruct (inputAudioContext c); destruct (stream c); reflexivity |].
  split; [| split; [| split]].
  - intros Hi Hs.
    destruct (inputAudioContext c); [| congruence].
    destruct (stream c); [| congruence]. simpl. auto.
  - intros [Hi | Hs]; [rewrite Hi | rewrite Hs];
      try destruct (inputAudioContext c); reflexivity.
  - exact Hlate.
  - rewrite Hlate. unfold audioprocess.
    destruct (disconnect_released c) as (-> & _). reflexivity.
Qed.

(** *** The life of a client *)

(** No resource is held and no field is left behind. *)
Definition idle (c : LiveClient) : Prop :=
  sessionPromise c = None /\ inputAudioContext c = None
  /\ outputAudioContext c = None /\ stream c = None /\ processor c = None
  /\ source c = None /\ activeSources c = [].

(** [connect] finds the capture device and the contexts. *)
Definition granted (env : ConnectEnv) (mediaStream : MediaStream) : Prop :=
  newInputContext env = None /\ newOutputContext env = None
  /\ getUserMedia env = Fulfilled mediaStream.

Lemma connect_granted env c mediaStream :
  granted env mediaStream ->
  connect env c =
  (set_sessionPromise (Some (liveConnect env))
     (set_stream (Some mediaStream)
        (set_outputAudioContext (Some (mkAudioContext 24000%Z Running))
           (set_inputAudioContext (Some (mkAudioContext 16000%Z Running)) c))),
   [OnStatusChange CONNECTING]).
Proof.
  intros (H1 & H2 & H3). unfold connect, andThen, emit, connectTry.
  rewrite H1, H2, H3. reflexivity.
Qed.

(** X9. When the contexts are created and the capture device is granted,
    [connect] reports CONNECTING and nothing else, whatever becomes of the
    session: it holds both contexts, the stream and the promise, and does
    not start capture.  When the promise rejects, no ERROR and no message
    was reported by [connect], and the [disconnect] that follows closes no
    session and reports nothing either. *)
Theorem connect_granted_reports_connecting (env : ConnectEnv) (c : LiveClient)
        (mediaStream : MediaStream) :
  granted env mediaStream ->
  let r := connect env c in
  snd r = [OnStatusChange CONNECTING]
  /\ inputAudioContext (fst r) = Some (mkAudioContext 16000%Z Running)
  /\ outputAudioContext (fst r) = Some (mkAudioContext 24000%Z Running)
  /\ stream (fst r) = Some mediaStream
  /\ sessionPromise (fst r) = Some (liveConnect env)
  /\ processor (fst r) = processor c
  /\ (forall error,
        liveConnect env = Rejected error ->
        ~ In SessionClose (snd (disconnect (fst r)))
        /\ statuses (snd r ++ snd (disconnect (fst r))) = [CONNECTING]
        /\ errorsReported (snd r ++ snd (disconnect (fst r))) = []).
Proof.
  intros Hg r. subst r. rewrite (connect_granted env c mediaStream Hg).
  cbn [fst snd]. repeat split.
  - intros Hin. revert Hin. rewrite H.
    destruct c as [sp ictx octx st pr so nst act mu nc].
    unfold disconnect, andThen, releaseProcessor, releaseSource, releaseStream,
      closeInputContext, closeOutputContext, stopActiveSources, closeSession; simpl.
    destruct pr; destruct so; simpl; rewrite ?app_nil_r;
      intros Hin;
      repeat (first [ apply in_app_or in Hin; destruct Hin as [Hin | Hin]
                    | destruct Hin as [Hin | Hin] ]; try discriminate);
      try (apply in_map_iff in Hin; destruct Hin as [x [Hx _]]; discriminate);
      try contradiction.
  - rewrite statuses_app.
    destruct (disconnect_silent
                (set_sessionPromise (Some (liveConnect env))
                   (set_stream (Some mediaStream)
                      (set_outputAudioContext (Some (mkAudioContext 24000%Z Running))
                         (set_inputAudioContext (Some (mkAudioContext 16000%Z Running)) c)))))
      as [-> _]. reflexivity.
  - rewrite errorsReported_app.
    destruct (disconnect_silent
                (set_sessionPromise (Some (liveConnect env))
                   (set_stream (Some mediaStream)
                      (set_outputAudioContext (Some (mkAudioContext 24000%Z Running))
                         (set_inputAudioContext (Some (mkAudioContext 16000%Z Running)) c)))))
      as [_ ->]. reflexivity.
Qed.

(** X10. A client that holds nothing, taken through [connect] (device
    granted, session accepted), the open callback and [disconnect], is
    back exactly where it started, mute flag and playback cursor included;
    on the way [disconnect] releases, in this order, the processor, the
    stream source, every track of the stream, the input context, the output
    context and the session. *)
Theorem connect_open_disconnect_round_trip (env : ConnectEnv) (c : LiveClient)
        (mediaStream : MediaStream) (session : Session) :
  idle c ->
  granted env mediaStream ->
  liveConnect env = Fulfilled session ->
  disconnect (fst (handleOpen (fst (connect env c)))) =
  (c, [ProcessorDisconnect; StreamSourceDisconnect]
      ++ map TrackStop (tracks mediaStream)
      ++ [ContextClose InputContext; ContextClose OutputContext; SessionClose]).
Proof.
  intros (Hsp & Hi & Ho & Hst & Hp & Hso & Hact) Hg Hs.
  rewrite (connect_granted env c mediaStream Hg), Hs.
  destruct c as [sp ictx octx st pr so nst act mu nc]. simpl in *. subst.
  unfold handleOpen, andThen, emit, startAudioStreaming. simpl.
  unfold disconnect, andThen, releaseProcessor, releaseSource, releaseStream,
    closeInputContext, closeOutputContext, stopActiveSources, closeSession; simpl.
  reflexivity.
Qed.

(** *** Every state a client can reach *)

(** What can happen to a client: a call of a public method, or a callback
    fired by the session, the processor or a source node. *)
Inductive Call :=
| CallSetMute (muted : bool)
| CallConnect (env : ConnectEnv)
| CallOpen
| CallMessage (message : LiveServerMessage) (currentTime : number)
| CallError
| CallClose
| CallFrame (inputData : list number)
| CallEnded (node : AudioBufferSourceNode)
| CallDisconnect.

Definition step (call : Call) : Op :=
  match call with
  | CallSetMute muted => setMute muted
  | CallConnect env => connect env
  | CallOpen => handleOpen
  | CallMessage message currentTime =>
      fun c => let r := handleMessage message currentTime c in (after r, effects r)
  | CallError => handleError
  | CallClose => handleClose
  | CallFrame inputData => audioprocess inputData
  | CallEnded node => onended node
  | CallDisconnect => disconnect
  end.

Fixpoint run (calls : list Call) : Op :=
  fun c =>
    match calls with
    | [] => (c, [])
    | call :: rest =>
        let (c1, evs1) := step call c in
        let (c2, evs2) := run rest c1 in
        (c2, evs1 ++ evs2)
    end.

Definition contextRunning (ctx : option AudioContext) : Prop :=
  match ctx with
  | None => True
  | Some a => ctx_state a = Running
  end.

Definition consistent (c : LiveClient) : Prop :=
  (processor c = None <-> source c = None)
  /\ (processor c <> None -> inputAudioContext c <> None /\ stream c <> None)
  /\ (sessionPromise c <> None ->
      inputAudioContext c <> None /\ outputAudioContext c <> None /\ stream c <> None)
  /\ contextRunning (inputAudioContext c)
  /\ contextRunning (outputAudioContext c)
  /\ NoDup (map node_id (activeSources c))
  /\ Forall (fun node => (node_id node < nodesCreated c)%nat) (activeSources c).

Lemma consistent_new : consistent newLiveClient.
Proof.
  unfold consistent; simpl. repeat split; try congruence; constructor.
Qed.

Lemma consistent_connect env c : consistent c -> consistent (fst (connect env c)).
Proof.
  intros (Hps & Hp & Hs & Hi & Ho & Hnd & Hlt).
  destruct c as [sp ictx octx st pr so nst act mu nc]. simpl in *.
  unfold connect, andThen, emit, connectTry, connectCatch, consistent; simpl.
  destruct (newInputContext env); simpl;
    [| destruct (newOutputContext env); simpl;
       [| destruct (getUserMedia env); simpl]];
    repeat split; try tauto; try congruence;
    try (intros H; destruct (Hp H); congruence);
    try (intros H; destruct (Hs H) as (? & ? & ?); congruence).
Qed.

Lemma consistent_open c : consistent c -> consistent (fst (handleOpen c)).
Proof.
  intros (Hps & Hp & Hs & Hi & Ho & Hnd & Hlt).
  destruct c as [sp ictx octx st pr so nst act mu nc]. simpl in *.
  unfold handleOpen, andThen, emit, startAudioStreaming, consistent; simpl.
  destruct ictx; destruct st; simpl; repeat split; try tauto; try congruence.
Qed.

Lemma consistent_message message currentTime c :
  consistent c -> consistent (after (handleMessage message currentTime c)).
Proof.
  intros (Hps & Hp & Hs & Hi & Ho & Hnd & Hlt).
  unfold handleMessage.
  destruct (handleToolCalls message c) as [evs []];
    [| simpl; unfold consistent; tauto].
  destruct c as [sp ictx octx st pr so nst act mu nc]. simpl in *.
  unfold andThen, handleAudioOutput, handleInterruption. cbn [outputAudioContext].
  assert (Hfresh : NoDup (map node_id (act ++ [mkSourceNode nc
              (decodeAudioData (base64ToUint8Array
                 (match base64AudioOf message with Some s => s | None => "" end)))]))).
  { rewrite map_app. apply NoDup_app; [exact Hnd | repeat constructor; intros [] |].
    intros a Ha [<- | []]. apply in_map_iff in Ha. destruct Ha as [node [Hid Hin]].
    rewrite Forall_forall in Hlt. specialize (Hlt node Hin). simpl in *. lia. }
  assert (Hbelow : Forall (fun node => (node_id node < S nc)%nat)
                     (act ++ [mkSourceNode nc
              (decodeAudioData (base64ToUint8Array
                 (match base64AudioOf message with Some s => s | None => "" end)))])).
  { apply Forall_app. split.
    - eapply Forall_impl; [| exact Hlt]. simpl. intros; lia.
    - repeat constructor. }
  destruct (base64AudioOf message) as [base64Audio |];
    [destruct octx; [destruct (truthy base64Audio) |] |];
    destruct (interruptedOf message); simpl; unfold consistent; simpl;
    repeat split; try tauto; try congruence; try constructor;
    try (intros H; destruct (Hp H); congruence);
    try (intros H; destruct (Hs H) as (? & ? & ?); congruence);
    try apply Hps; auto.
Qed.

Lemma consistent_ended node c : consistent c -> consistent (fst (onended node c)).
Proof.
  intros (Hps & Hp & Hs & Hi & Ho & Hnd & Hlt).
  destruct c as [sp ictx octx st pr so nst act mu nc]. simpl in *.
  unfold onended, update, consistent; simpl.
  repeat split; try tauto.
  - clear - Hnd. induction act as [| a act IH]; simpl; [constructor |].
    inversion Hnd as [| ? ? Hfresh Hrest]; subst.
    destruct (negb (Nat.eqb (node_id a) (node_id node))); simpl; auto.
    constructor; auto.
    intros Hin. apply Hfresh. apply in_map_iff in Hin. destruct Hin as [x [Hx Hin]].
    apply filter_In in Hin. apply in_map_iff. exists x. tauto.
  - apply Forall_forall. intros x Hin. apply filter_In in Hin.
    rewrite Forall_forall in Hlt. apply Hlt. tauto.
Qed.

Lemma consistent_disconnect c : consistent c -> consistent (fst (disconnect c)).
Proof.
  intros (Hps & Hp & Hs & Hi & Ho & Hnd & Hlt).
  destruct c as [sp ictx octx st pr so nst act mu nc]. simpl in *.
  unfold disconnect, andThen, releaseProcessor, releaseSource, releaseStream,
    closeInputContext, closeOutputContext, stopActiveSources, closeSession; simpl.
  destruct pr; simpl; destruct so; simpl; destruct st; simpl;
    (destruct ictx as [[? []] |]; simpl in *; try discriminate);
    (destruct octx as [[? []] |]; simpl in *; try discriminate);
    destruct sp as [[] |]; simpl;
    unfold consistent; simpl; repeat split; try tauto; try congruence; constructor.
Qed.

Lemma consistent_step call c : consistent c -> consistent (fst (step call c)).
Proof.
  destruct call; simpl.
  - intros (Hps & Hp & Hs & Hi & Ho & Hnd & Hlt).
    unfold setMute, update, consistent; simpl.
    destruct c; simpl in *. tauto.
  - apply consistent_connect.
  - apply consistent_open.
  - apply consistent_message.
  - auto.
  - auto.
  - unfold audioprocess, onaudioprocess.
    destruct (processor c); [destruct (isMuted c) |]; auto.
  - apply consistent_ended.
  - apply consistent_disconnect.
Qed.

Lemma run_consistent calls c : consistent c -> consistent (fst (run calls c)).
Proof.
  revert c. induction calls as [| call rest IH]; intros c Hc; simpl; auto.
  pose proof (consistent_step call c Hc) as H1.
  destruct (step call c) as [c1 evs1]. simpl in H1.
  specialize (IH c1 H1). destruct (run rest c1) as [c2 evs2]. exact IH.
Qed.

Lemma same_id_same_node (l : list AudioBufferSourceNode) a b :
  NoDup (map node_id l) -> In a l -> In b l -> node_id a = node_id b -> a = b.
Proof.
  induction l as [| x l IH]; simpl; [tauto |].
  intros Hnd Ha Hb Hid. inversion Hnd as [| ? ? Hfresh Hrest]; subst.
  destruct Ha as [-> | Ha]; destruct Hb as [-> | Hb]; auto.
  - exfalso. apply Hfresh. rewrite Hid. now apply in_map.
  - exfalso. apply Hfresh. rewrite <- Hid. now apply in_map.
Qed.

Lemma filter_out_one (l : list AudioBufferSourceNode) node :
  NoDup (map node_id l) -> In node l ->
  S (List.length (filter (fun s => negb (Nat.eqb (node_id s) (node_id node))) l))
  = List.length l.
Proof.
  induction l as [| x l IH]; simpl; [tauto |].
  intros Hnd Hin. inversion Hnd as [| ? ? Hfresh Hrest]; subst.
  destruct Hin as [-> | Hin].
  - rewrite Nat.eqb_refl. simpl. f_equal.
    clear IH Hnd Hrest. induction l as [| y l IH]; simpl; auto.
    simpl in Hfresh.
    destruct (Nat.eqb_spec (node_id y) (node_id node)) as [Heq | Hne]; [tauto |].
    simpl. f_equal. apply IH. tauto.
  - destruct (Nat.eqb_spec (node_id x) (node_id node)) as [Heq | Hne].
    + exfalso. apply Hfresh. rewrite Heq. now apply in_map.
    + simpl. f_equal. auto.
Qed.

(** X12. When the playback of a registered handle ends, in any state a
    fresh client can reach, the handle removes itself and nothing else: it
    is no longer registered, every other registered handle still is, the set
    is smaller by exactly one, nobody is called and the playback cursor
    stays where it was. *)
Theorem ended_handle_removes_itself (calls : list Call) (node : AudioBufferSourceNode) :
  let c := fst (run calls newLiveClient) in
  In node (activeSources c) ->
  let c' := fst (onended node c) in
  ~ In node (activeSources c')
  /\ (forall other, In other (activeSources c) -> other <> node ->
                    In other (activeSources c'))
  /\ S (List.length (activeSources c')) = List.length (activeSources c)
  /\ snd (onended node c) = []
  /\ nextStartTime c' = nextStartTime c.
Proof.
  intros c Hin c'.
  destruct (run_consistent calls newLiveClient consistent_new)
    as (_ & _ & _ & _ & _ & Hnd & _).
  fold c in Hnd. subst c'. unfold onended, update.
  destruct c as [sp ictx octx st pr so nst act mu nc]. simpl in *.
  repeat split.
  - intros H. apply filter_In in H. destruct H as [_ H].
    rewrite Nat.eqb_refl in H. discriminate.
  - intros other Ho Hne. apply filter_In. split; [exact Ho |].
    destruct (Nat.eqb_spec (node_id other) (node_id node)) as [Heq | Hneq]; auto.
    exfalso. apply Hne. now apply (same_id_same_node act).
  - now apply filter_out_one.
Qed.

(** *** How the playback meter reads the bytes *)

Lemma byteZ_range b : (0 <= byteZ b < 256)%Z.
Proof. unfold byteZ. pose proof (Byte.to_N_bounded b). lia. Qed.

(** [lo | (hi << 8)] is the unsigned 16-bit value of the pair, low byte
    first. *)
Lemma pair_value lo hi :
  Z.lor (byteZ lo) (Z.shiftl (byteZ hi) 8) = (byteZ lo + 256 * byteZ hi)%Z.
Proof.
  pose proof (byteZ_range lo) as Hlo. pose proof (byteZ_range hi) as Hhi.
  assert (Hland : Z.land (byteZ lo) (Z.shiftl (byteZ hi) 8) = 0%Z).
  { apply Z.bits_inj'. intros n Hn.
    rewrite Z.land_spec, Z.bits_0.
    destruct (Z.lt_ge_cases n 8) as [Hlt | Hge].
    - rewrite (Z.shiftl_spec_low _ _ _ Hlt). apply andb_false_r.
    - destruct (Z.eq_dec (byteZ lo) 0) as [-> | Hnz];
        [rewrite Z.bits_0; reflexivity |].
      rewrite (Z.bits_above_log2 (byteZ lo) n); [reflexivity | lia |].
      apply Z.log2_lt_pow2; [lia |].
      apply Z.lt_le_trans with (2 ^ 8)%Z; [simpl; lia |].
      apply Z.pow_le_mono_r; lia. }
  pose proof (Z.add_lor_land (byteZ lo) (Z.shiftl (byteZ hi) 8)) as Hadd.
  rewrite Hland, Z.shiftl_mul_pow2 in Hadd by lia.
  rewrite Z.shiftl_mul_pow2 by lia.
  change (2 ^ 8)%Z with 256%Z in *. lia.
Qed.

(** Every sample of the chunk is negative as a signed 16-bit value: the
    bytes come in pairs and the high byte of each pair is 0x80 or more. *)
Fixpoint samplesNegative (audioBytes : list byte) : Prop :=
  match audioBytes with
  | [] => True
  | [_] => False
  | _ :: hi :: rest => (128 <= byteZ hi)%Z /\ samplesNegative rest
  end.

Lemma pcmSquares_negative :
  forall audioBytes acc,
    samplesNegative audioBytes ->
    acc + INR (List.length audioBytes) / 2 <= pcmSquares audioBytes acc.
Proof.
  fix IH 1. intros [| lo [| hi rest]] acc Hneg.
  - simpl. lra.
  - contradiction.
  - destruct Hneg as [Hhi Hrest].
    cbn [pcmSquares List.length]. rewrite pair_value, !S_INR.
    specialize (IH rest (acc + IZR (byteZ lo + 256 * byteZ hi) / 32768
                               * (IZR (byteZ lo + 256 * byteZ hi) / 32768)) Hrest).
    assert (Hval : 1 <= IZR (byteZ lo + 256 * byteZ hi) / 32768).
    { pose proof (byteZ_range lo).
      assert (Hz : (32768 <= byteZ lo + 256 * byteZ hi)%Z) by lia.
      apply IZR_le in Hz. lra. }
    nra.
Qed.

(** X13. The playback meter reads each pair of bytes as an unsigned
    16-bit number.  A chunk whose samples are all negative as signed 16-bit
    PCM, however small, therefore has an RMS of 1 or more and is reported
    with volume exactly 1. *)
Theorem negative_samples_saturate (audioBytes : list byte) :
  audioBytes <> [] ->
  samplesNegative audioBytes ->
  1 <= playbackRms audioBytes /\ playbackLevel audioBytes = 1.
Proof.
  intros Hne Hneg.
  assert (Hrms : 1 <= playbackRms audioBytes).
  { unfold playbackRms.
    pose proof (pcmSquares_negative audioBytes 0 Hneg) as Hsum.
    assert (Hn : 0 < INR (List.length audioBytes) / 2).
    { assert (0 < INR (List.length audioBytes)).
      { apply lt_0_INR. destruct audioBytes; [congruence | simpl; lia]. }
      lra. }
    rewrite <- sqrt_1 at 1. apply sqrt_le_1_alt.
    apply (Rmult_le_reg_r (INR (List.length audioBytes) / 2)); [exact Hn |].
    unfold Rdiv at 2. rewrite Rmult_assoc, Rinv_l by lra. lra. }
  split; [exact Hrms |].
  unfold playbackLevel. apply Rmin_left. lra.
Qed.

End LiveClientModel.

(** ** Sample runs *)

Example base64Decode_Man : base64Decode "TWFu" = [x4d; x61; x6e].
Proof. reflexivity. Qed.

Example base64Decode_Ma : base64Decode "TWE=" = [x4d; x61].
Proof. reflexivity. Qed.

Example base64Decode_M : base64Decode "TQ==" = [x4d].
Proof. reflexivity. Qed.

Lemma pcmBuffer_duration audioBytes : 0 <= duration (pcmBuffer audioBytes).
Proof.
  unfold pcmBuffer; simpl.
  pose proof (pos_INR (Nat.div (List.length audioBytes) 2)).
  apply Rmult_le_pos; [assumption |].
  apply Rlt_le, Rinv_0_lt_compat. lra.
Defined.

(** The connected client after two chunks were enqueued. *)
Example playing_handles :
  map node_id
    (activeSources
       (fst (handleMessages base64Decode pcmBuffer sampleHandler
               sampleArrivals connectedClient)))
  = [0%nat; 1%nat].
Proof. reflexivity. Qed.

(** *** C1 on two chunks *)

Lemma playback_schedule_gapless_witness :
  let sched :=
    scheduled (snd (handleMessages base64Decode pcmBuffer sampleHandler
                      sampleArrivals connectedClient)) in
  sched = specSchedule (nextStartTime connectedClient)
            (enqueued base64Decode pcmBuffer sampleHandler sampleArrivals connectedClient)
  /\ StronglySorted (fun a b => fst a <= fst b) sched
  /\ StronglySorted (fun a b => fst a + snd a <= fst b) sched.
Proof.
  apply (playback_schedule_gapless base64Decode pcmBuffer sampleHandler
           sampleArrivals connectedClient).
  - exact pcmBuffer_duration.
  - repeat constructor.
Defined.

(** The second chunk starts where the first ends. *)
Example sampleArrivals_back_to_back :
  exists start d1 d2,
    scheduled (snd (handleMessages base64Decode pcmBuffer sampleHandler
                      sampleArrivals connectedClient))
    = [(start, d1); (start + d1, d2)].
Proof.
  rewrite (handleMessages_schedule base64Decode pcmBuffer sampleHandler
             sampleArrivals connectedClient) by (repeat constructor).
  eexists _, _, _.
  change (enqueued base64Decode pcmBuffer sampleHandler sampleArrivals connectedClient)
    with [(0, duration (pcmBuffer (base64Decode "AAABAA==")));
          (0, duration (pcmBuffer (base64Decode "AAABAAIAAwA=")))].
  apply specSchedule_back_to_back.
  pose proof (pcmBuffer_duration (base64Decode "AAABAA==")).
  pose proof (Rmax_l (nextStartTime connectedClient) 0).
  change (nextStartTime connectedClient) with 0 in *. lra.
Qed.

(** *** The interruption on the client with two chunks pending *)

Lemma interruption_flushes_playback_witness :
  let playing :=
    fst (handleMessages base64Decode pcmBuffer sampleHandler
           sampleArrivals connectedClient) in
  let r := handleMessage base64Decode pcmBuffer sampleHandler
             interruptionMessage (1 / 5) playing in
  (forall node, In node (activeSources playing) -> In (SourceStop node) (effects r))
  /\ (forall node when,
        In (SourceStart node when) (effects r) -> In (SourceStop node) (effects r))
  /\ activeSources (after r) = []
  /\ nextStartTime (after r) = 0
  /\ (forall message' clock audioBuffer,
        0 <= clock ->
        chunkOf base64Decode pcmBuffer sampleHandler message' (after r) = Some audioBuffer ->
        scheduled (effects (handleMessage base64Decode pcmBuffer sampleHandler
                              message' clock (after r)))
        = [(clock, duration audioBuffer)]).
Proof.
  intros playing.
  apply (interruption_flushes_playback base64Decode pcmBuffer sampleHandler
           interruptionMessage (1 / 5) playing); reflexivity.
Defined.

(** An interruption that arrives with a tool invocation whose handler
    rejects with [undefined]. *)
Definition interruptionWithToolMessage : LiveServerMessage :=
  mkMessage (Some [mkFunctionCall "1" "X" (JsObject [])])
            (Some (mkServerContent None true)).

(** C2. Two chunks are pending on the connected client when a message
    arrives that carries the interruption flag and one tool invocation, and
    the promise of the handler rejects with [undefined]: reading
    [err.message] throws inside the [catch] clause of the tool loop, the
    exception ends [handleMessage] before its third step, and the
    interruption is lost.  No handle is stopped, both stay registered, and
    the playback cursor stays where it was, above zero. *)
Theorem interruption_lost_after_undefined_rejection :
  let playing :=
    fst (handleMessages base64Decode pcmBuffer rejectingHandler
           sampleArrivals connectedClient) in
  let r := handleMessage base64Decode pcmBuffer rejectingHandler
             interruptionWithToolMessage (1 / 5) playing in
  interruptedOf interruptionWithToolMessage = true
  /\ map node_id (activeSources playing) = [0%nat; 1%nat]
  /\ completion r = Abrupt
  /\ effects r = [OnLog (mkLog JARVIS "Executing protocol: X" LogInfo)]
  /\ (forall node, ~ In (SourceStop node) (effects r))
  /\ activeSources (after r) = activeSources playing
  /\ activeSources (after r) <> []
  /\ nextStartTime (after r) = nextStartTime playing
  /\ nextStartTime (after r) <> 0.
Proof.
  intros playing r.
  assert (Hcursor : 0 < nextStartTime playing).
  { change (nextStartTime playing)
      with (Rmax (Rmax 0 0 + duration (pcmBuffer (base64Decode "AAABAA=="))) 0
            + duration (pcmBuffer (base64Decode "AAABAAIAAwA="))).
    pose proof (pcmBuffer_duration (base64Decode "AAABAA==")) as H1.
    assert (H2 : 0 < duration (pcmBuffer (base64Decode "AAABAAIAAwA="))).
    { change (duration (pcmBuffer (base64Decode "AAABAAIAAwA=")))
        with (INR 4 / 24000).
      simpl. lra. }
    pose proof (Rmax_r (Rmax 0 0 + duration (pcmBuffer (base64Decode "AAABAA=="))) 0).
    lra. }
  split; [reflexivity |]. split; [reflexivity |]. split; [reflexivity |].
  split; [reflexivity |]. split.
  { intros node [H | []]. discriminate. }
  split; [reflexivity |]. split; [discriminate |]. split; [reflexivity |].
  change (nextStartTime (after r)) with (nextStartTime playing). lra.
Qed.

(** *** C3: two invocations answered, and one left unanswered *)

Lemma tool_calls_answered_once_witness :
  let sent :=
    replies (effects (handleMessage base64Decode pcmBuffer sampleHandler
                        twoToolsMessage 0 connectedClient)) in
  sent = [ mkFunctionResponse "7" "scanSystem"
             (JsObject [("result", JsObject [("status", JsString "OPTIMAL")])]);
           mkFunctionResponse "1" "X"
             (JsObject [("result", JsObject [("error", JsString "boom");
                                             ("status", JsString "FAILED")])]) ]
  /\ (NoDup ["7"; "1"] ->
      forall fc,
        In fc [ mkFunctionCall "7" "scanSystem" (JsObject []);
                mkFunctionCall "1" "X" (JsObject []) ] ->
        List.length (filter (fun fr => String.eqb (fr_id fr) (fc_id fc)) sent) = 1%nat).
Proof.
  apply (tool_calls_answered_once base64Decode pcmBuffer sampleHandler
           twoToolsMessage 0 connectedClient
           [ mkFunctionCall "7" "scanSystem" (JsObject []);
             mkFunctionCall "1" "X" (JsObject []) ]
           TheSession).
  - reflexivity.
  - reflexivity.
  - repeat constructor; unfold settlesWithValue; simpl; discriminate.
Defined.

(** After [disconnect] the session handle is null.  A tool invocation
    handled then (its message was already on its way, or its handler was
    still running when [disconnect] ended) runs its handler and is never
    answered: the reply is skipped by [sessionPromise?.then]. *)
Lemma tool_call_unanswered_without_session :
  let c := fst (disconnect connectedClient) in
  let r := handleMessage base64Decode pcmBuffer sampleHandler
             (toolMessage "7" "scanSystem") 0 c in
  sessionPromise c = None
  /\ toolCall (toolMessage "7" "scanSystem")
     = Some [mkFunctionCall "7" "scanSystem" (JsObject [])]
  /\ effects r = [OnLog (mkLog JARVIS "Executing protocol: scanSystem" LogInfo)]
  /\ replies (effects r) = [].
Proof. repeat split. Qed.

(** A handler that rejects with [undefined]: reading [err.message] throws
    inside the [catch] clause, the exception escapes [handleMessage], and
    neither the error log entry nor a reply follows. *)
Example nullish_rejection_escapes :
  let r := handleMessage base64Decode pcmBuffer rejectingHandler
             (toolMessage "1" "X") 0 connectedClient in
  completion r = Abrupt
  /\ effects r = [OnLog (mkLog JARVIS "Executing protocol: X" LogInfo)]
  /\ replies (effects r) = [].
Proof. repeat split. Qed.

(** *** C4: the handler of [X] rejects with [boom] *)

Lemma tool_failure_replied_witness :
  let r := handleMessage base64Decode pcmBuffer sampleHandler
             (toolMessage "1" "X") 0 connectedClient in
  completion r = Normal
  /\ In (OnLog (mkLog SYSTEM "CRITICAL: Tool Failure (X) - boom" LogError)) (effects r)
  /\ In (SendToolResponse
           [mkFunctionResponse "1" "X"
              (JsObject [("result",
                          JsObject [("error", JsString "boom");
                                    ("status", JsString "FAILED")])])])
        (effects r).
Proof.
  intros r.
  destruct (tool_failure_replied base64Decode pcmBuffer sampleHandler
              (toolMessage "1" "X") 0 connectedClient
              [] (mkFunctionCall "1" "X" (JsObject [])) []
              (ThrownError "boom"))
    as (Hlog & Hreply & _ & _ & Hdone).
  - reflexivity.
  - constructor.
  - reflexivity.
  - discriminate.
  - split; [apply Hdone; constructor |].
    split; [exact Hlog | exact (Hreply TheSession eq_refl)].
Defined.

(** The same failure on a client whose session handle is null (after
    [disconnect]): the failure is logged, and the reply is skipped by
    [sessionPromise?.then]. *)
Lemma tool_failure_unanswered_without_session :
  let c := fst (disconnect connectedClient) in
  let r := handleMessage base64Decode pcmBuffer sampleHandler
             (toolMessage "1" "X") 0 c in
  sessionPromise c = None
  /\ sampleHandler "X" (JsObject []) = Rejected (ThrownError "boom")
  /\ effects r
     = [ OnLog (mkLog JARVIS "Executing protocol: X" LogInfo);
         OnLog (mkLog SYSTEM "CRITICAL: Tool Failure (X) - boom" LogError) ]
  /\ replies (effects r) = []
  /\ (forall functionResponses, ~ In (SendToolResponse functionResponses) (effects r)).
Proof.
  repeat split. intros functionResponses [H | [H | []]]; discriminate.
Qed.

(** A handler that rejects with a value that has no [message] property,
    such as the string [boom] itself. *)
Definition messagelessHandler (name : string) (args : JsValue) : Settled JsValue :=
  Rejected (ThrownValue None).

(** The text of the reply is then "Unknown tool failure". *)
Example messageless_rejection_answered_unknown :
  replies (effects (handleMessage base64Decode pcmBuffer messagelessHandler
                      (toolMessage "1" "X") 0 connectedClient))
  = [ mkFunctionResponse "1" "X"
        (JsObject [("result",
                    JsObject [("error", JsString "Unknown tool failure");
                              ("status", JsString "FAILED")])]) ].
Proof. reflexivity. Qed.

(** *** C5 and C9 on the connected client *)

Lemma mute_drops_frames_witness :
  let muted := fst (setMute true connectedClient) in
  let resumed := fst (setMute false muted) in
  snd (setMute true connectedClient) = []
  /\ isMuted muted = true
  /\ audioprocessAll framePcm frameText sampleFrames muted = (muted, [])
  /\ snd (setMute false muted) = []
  /\ sessionPromise resumed = sessionPromise connectedClient
  /\ audioprocessAll framePcm frameText sampleFrames resumed
     = (resumed, flat_map (captureEvents framePcm frameText) sampleFrames).
Proof.
  apply (mute_drops_frames framePcm frameText connectedClient sampleFrames
           (mkScriptProcessor 4096) TheSession); reflexivity.
Defined.

Lemma remote_close_keeps_capturing_witness :
  let closed := fst (handleClose connectedClient) in
  snd (handleClose connectedClient) =
    [ OnStatusChange DISCONNECTED;
      OnLog (mkLog SYSTEM "J.A.R.V.I.S. Protocol Offline" LogWarning) ]
  /\ closed = connectedClient
  /\ audioprocessAll framePcm frameText sampleFrames closed
     = (closed, flat_map (captureEvents framePcm frameText) sampleFrames)
  /\ audioprocessAll framePcm frameText sampleFrames (fst (disconnect closed))
     = (fst (disconnect closed), []).
Proof.
  apply (remote_close_keeps_capturing framePcm frameText connectedClient
           sampleFrames (mkScriptProcessor 4096) TheSession); reflexivity.
Defined.

(** *** C6: the capture device is denied *)

Lemma connect_failure_reported_witness :
  let r := connect deniedEnv newLiveClient in
  snd r = [ OnStatusChange CONNECTING;
            OnStatusChange ERROR;
            OnError "Permission denied";
            OnLog (mkLog SYSTEM "Connection Aborted: Permission denied" LogError) ]
  /\ errorsReported (snd r) = ["Permission denied"]
  /\ ~ In CONNECTED (statuses (snd r))
  /\ lastStatus DISCONNECTED (snd r) = ERROR
  /\ "Permission denied" = categorizedMessage "Permission denied"
  /\ processor (fst r) = None
  /\ source (fst r) = None
  /\ stream (fst r) = None
  /\ sessionPromise (fst r) = None
  /\ activeSources (fst r) = []
  /\ inputAudioContext (fst r) = Some (mkAudioContext 16000%Z Running)
  /\ outputAudioContext (fst r) = Some (mkAudioContext 24000%Z Running).
Proof.
  intros r.
  destruct (connect_failure_reported deniedEnv newLiveClient
              (ThrownError "Permission denied") DISCONNECTED)
    as (H1 & H2 & H3 & H4 & H5 & _ & H7 & H8 & H9 & H10 & H11 & _ & _ & H14).
  - reflexivity.
  - destruct (H14 eq_refl eq_refl) as (_ & Hin & Hout).
    repeat (split; [assumption |]).
    split; [exact (H5 "Permission denied" eq_refl) |].
    repeat (split; [assumption |]). exact Hout.
Defined.

(** The categories, and their precedence: the permission text wins over
    the overload text. *)
Example connectErrorMessage_samples :
  connectErrorMessage (ThrownError "got status: 403 Forbidden")
  = "ACCESS DENIED: Invalid API Key or Permissions."
  /\ connectErrorMessage (ThrownError "503 after 403")
     = "ACCESS DENIED: Invalid API Key or Permissions."
  /\ connectErrorMessage (ThrownError "HTTP 503")
     = "SERVICE UNAVAILABLE: Server Overload."
  /\ connectErrorMessage (ThrownError "TypeError: Failed to fetch")
     = "NETWORK FAILURE: Unable to reach command servers."
  /\ connectErrorMessage (ThrownError "Permission denied") = "Permission denied"
  /\ connectErrorMessage (ThrownValue (Some "403"))
     = "Unknown Connection Protocol Error".
Proof. repeat split. Qed.

(** The two audio contexts created before the denial stay open: the client
    is not released when [connect] has failed. *)
Lemma connect_denied_leaves_contexts :
  let c := fst (connect deniedEnv newLiveClient) in
  tryFailure deniedEnv = Some (ThrownError "Permission denied")
  /\ inputAudioContext c = Some (mkAudioContext 16000%Z Running)
  /\ outputAudioContext c = Some (mkAudioContext 24000%Z Running)
  /\ ~ released c.
Proof.
  repeat split.
  intros (_ & _ & _ & Hin & _). simpl in Hin. discriminate.
Qed.

(** *** C8: disconnect after the denied connect *)

(** The collaborator starts in DISCONNECTED; the denied [connect] reports
    ERROR; [disconnect] reports nothing, and no session exists whose close
    could: ERROR stays. *)
Lemma disconnect_after_failed_connect_keeps_error :
  let r1 := connect deniedEnv newLiveClient in
  let r2 := disconnect (fst r1) in
  sessionPromise (fst r1) = None
  /\ statuses (snd r2) = []
  /\ lastStatus DISCONNECTED (snd r1 ++ snd r2) = ERROR
  /\ lastStatus DISCONNECTED (snd r1 ++ snd r2) <> DISCONNECTED.
Proof. repeat split. discriminate. Qed.

(** *** C10: audio in the second part only *)

Lemma only_first_part_is_played_witness :
  let r := handleMessage base64Decode pcmBuffer sampleHandler
             laterPartMessage 0 connectedClient in
  scheduled (effects r) = []
  /\ volumes (effects r) = []
  /\ (forall node, In node (activeSources (after r)) ->
                   In node (activeSources connectedClient))
  /\ nodesCreated (after r) = nodesCreated connectedClient
  /\ r = handleMessage base64Decode pcmBuffer sampleHandler
           (mkMessage None
              (Some (mkServerContent (Some (mkContent [mkPart None])) false)))
           0 connectedClient.
Proof.
  apply (only_first_part_is_played base64Decode pcmBuffer sampleHandler
           laterPartMessage 0 connectedClient
           (mkServerContent
              (Some (mkContent [mkPart None; mkPart (Some (mkBlob "AAABAA=="))])) false)
           (mkContent [mkPart None; mkPart (Some (mkBlob "AAABAA=="))])
           (mkPart None) [mkPart (Some (mkBlob "AAABAA=="))]); reflexivity.
Defined.

(** The same bytes in the first part are played. *)
Example first_part_is_played :
  List.length (scheduled (effects (handleMessage base64Decode pcmBuffer sampleHandler
                                     (chunkMessage "AAABAA==") 0 connectedClient)))
  = 1%nat.
Proof. reflexivity. Qed.

(** * The application: [src/App.tsx] and the tool declarations

    The component [App] holds the state of the interface, creates the
    [LiveClient], and supplies its tool handler.  A state variable of the
    component is a field of the record [App]; a handler reads the state
    variables through the render that created it ([Render]: the values the
    closure captured) and writes them through their setters, which act on
    the current state.  [liveClientRef] is a ref: it is read and written
    in its current value.  What the handler does besides returning (a
    setter, [window.open], a timer) is an [AppEffect], in program order.
    The built-in string functions of the language are variables of the
    section. *)

(** ** Reading a value *)

Fixpoint lookupField (fields : list (string * JsValue)) (key : string) : JsValue :=
  match fields with
  | [] => JsUndefined
  | (k, v) :: rest => if String.eqb k key then v else lookupField rest key
  end.

(** [value.key]: reading a property of [null] or [undefined] throws
    ([None]); a missing property reads as [undefined]. *)
Definition getProp (value : JsValue) (key : string) : option JsValue :=
  match value with
  | JsUndefined | JsNull => None
  | JsObject fields => Some (lookupField fields key)
  | _ => Some JsUndefined
  end.

(** [value?.method()] for a string method: [undefined] when the value is
    [null] or [undefined], the method's result on a string, and a
    [TypeError] ([None]) on any other value, which has no such method. *)
Definition optCall (method : string -> string) (value : JsValue) : option JsValue :=
  match value with
  | JsUndefined | JsNull => Some JsUndefined
  | JsString s => Some (JsString (method s))
  | _ => None
  end.

(** [value ?? fallback] *)
Definition orElse (value fallback : JsValue) : JsValue :=
  match value with
  | JsUndefined | JsNull => fallback
  | _ => value
  end.

(** [list.includes(value)] for a list of strings: strict equality, so
    only a string can be found. *)
Definition includesValue (list : list string) (value : JsValue) : bool :=
  match value with
  | JsString s => existsb (String.eqb s) list
  | _ => false
  end.

(** ** The tool declarations ([systemTools] of [liveClient.ts]) *)

Inductive ParamType := STRING | NUMBER.

Record FunctionDeclaration := mkDeclaration {
  fd_name : string;
  fd_properties : list (string * ParamType);
  fd_required : list string
}.

Definition systemTools : list FunctionDeclaration :=
  [ mkDeclaration "scanSystem" [("mode", STRING)] ["mode"];
    mkDeclaration "checkIntegrity" [("scope", STRING)] ["scope"];
    mkDeclaration "openWebsite" [("siteName", STRING)] ["siteName"];
    mkDeclaration "openFile" [("fileName", STRING)] ["fileName"];
    mkDeclaration "manageSystemPower" [("action", STRING)] ["action"];
    mkDeclaration "adjustVolume" [("level", NUMBER)] ["level"];
    mkDeclaration "changeTheme" [("theme", STRING)] ["theme"];
    mkDeclaration "changeVoice" [("voiceName", STRING)] ["voiceName"] ].

Definition hasType (value : JsValue) (t : ParamType) : Prop :=
  match t, value with
  | STRING, JsString _ => True
  | NUMBER, JsNumber _ => True
  | _, _ => False
  end.

(** The arguments are an object that gives every declared property the
    call carries a value of the declared type, and carries every required
    one. *)
Definition wellTyped (fd : FunctionDeclaration) (args : JsValue) : Prop :=
  exists fields,
    args = JsObject fields
    /\ forall key t, In (key, t) (fd_properties fd) ->
                     In key (fd_required fd) ->
                     hasType (lookupField fields key) t.

(** ** The state of the interface *)

Inductive PowerState := ONLINE | OFFLINE | REBOOTING.
Inductive Theme := cyan | red | gold.

(** What the tool handler does, statement by statement.  [WindowOpen] is
    a call of [window.open] that returned.  [CallPowerOn], [CallShutdown]
    and [CallReboot] are the calls of [handlePowerOn], [handleShutdown] and
    [handleReboot], whose bodies are not unfolded here: the last two log,
    disconnect the live client and change the power state on timers, and
    [handleReboot] also clears the log and sets the integrity to 100.
    [ReconnectIn500] is the timer of [changeVoice]. *)
Inductive AppEffect :=
| AddLog (entry : LogEntry)
| SetIntegrity (integrity : number)
| SetVolume (volume : JsValue)
| SetTheme (theme : Theme)
| SetVoiceName (voice : string)
| WindowOpen (url : string)
| CallPowerOn
| CallShutdown
| CallReboot
| ReconnectIn500 (voice : string).

Section Application.

#[local] Set Default Proof Using "Type".

(** The helpers of [utils/audioUtils] the class imports. *)
Variable base64ToUint8Array : string -> list byte.
Variable decodeAudioData : list byte -> AudioBuffer.
Variable float32ToPCM16 : list number -> list byte.
Variable arrayBufferToBase64 : list byte -> string.

(** [String.prototype.toLowerCase], [String.prototype.toUpperCase], the
    conversion of a number in a template literal, and the message of the
    [TypeError] the engine raises. *)
Variable toLowerCase : string -> string.
Variable toUpperCase : string -> string.
Variable numberToString : number -> string.
Variable typeError : string.

(** [window.open(url, '_blank')]: the call throws a [SyntaxError] when the
    address does not parse ([Some] of its message), and returns otherwise. *)
Variable windowOpen : string -> option string.

(** A value in a template literal. *)
Definition toText (value : JsValue) : string :=
  match value with
  | JsUndefined => "undefined"
  | JsNull => "null"
  | JsBool true => "true"
  | JsBool false => "false"
  | JsNumber x => numberToString x
  | JsString s => s
  | JsObject _ => "[object Object]"
  end.

Definition info (message : string) : AppEffect := AddLog (mkLog SYSTEM message LogInfo).
Definition good (message : string) : AppEffect := AddLog (mkLog SYSTEM message LogSuccess).
Definition warn (message : string) : AppEffect := AddLog (mkLog SYSTEM message LogWarning).

Definition thrown : Settled JsValue := Rejected (ThrownError typeError).

(** The url of [openWebsite] for the lower-cased site name. *)
Definition urlOf (site : string) : string :=
  if includes site "youtube" then "https://www.youtube.com"
  else if includes site "google" then "https://www.google.com"
  else if includes site "netflix" then "https://www.netflix.com"
  else if includes site "spotify" then "https://open.spotify.com"
  else if String.prefix "http" site then site
  else String.append "https://" site.

Definition themeOf (name : string) : option Theme :=
  if String.eqb name "red" then Some red
  else if String.eqb name "gold" then Some gold
  else if String.eqb name "blue" then Some cyan
  else if String.eqb name "cyan" then Some cyan
  else None.

Definition validVoices : list string := ["Puck"; "Charon"; "Kore"; "Fenrir"; "Zephyr"].

(** [Math.floor(Math.random() * 15) + 85] for the draw [random]. *)
Definition drawIntegrity (random : number) : number :=
  IZR (Zfloor (random * 15)) + 85.

(** [handleSystemAction] of the render whose [powerState] is
    [powerState], with [random] the draw of [Math.random]: what it does, in
    order, and how its promise settles. *)
Definition handleSystemAction (powerState : PowerState) (random : number)
           (action : string) (args : JsValue) : list AppEffect * Settled JsValue :=
  if String.eqb action "scanSystem" then
    ([ info "Initiating full system diagnostic scan...";
       info "Scanning File System... OK";
       info "Checking Network Protocols... OK" ],
     Fulfilled (JsObject [ ("status", JsString "OPTIMAL");
                           ("issues_found", JsNumber 0);
                           ("details",
                            JsString "All systems functioning within normal parameters.") ]))
  else if String.eqb action "checkIntegrity" then
    let newIntegrity := drawIntegrity random in
    ([ info "Running system integrity verification...";
       SetIntegrity newIntegrity;
       good (String.append "Integrity verification complete: "
               (String.append (numberToString newIntegrity) "%")) ],
     Fulfilled (JsObject [ ("integrity", JsNumber newIntegrity);
                           ("status", JsString "STABLE") ]))
  else if String.eqb action "openWebsite" then
    match getProp args "siteName" with
    | None => ([], thrown)
    | Some siteName =>
        match optCall toLowerCase siteName with
        | Some (JsString site) =>
            match windowOpen (urlOf site) with
            | Some syntaxError =>
                ([ good (String.append "Opening external protocol: " site) ],
                 Rejected (ThrownError syntaxError))
            | None =>
                ([ good (String.append "Opening external protocol: " site);
                   WindowOpen (urlOf site) ],
                 Fulfilled (JsObject [ ("success", JsBool true);
                                       ("message",
                                        JsString (String.append "Opened " site)) ]))
            end
        | _ => ([], thrown)
        end
    end
  else if String.eqb action "openFile" then
    match getProp args "fileName" with
    | None => ([], thrown)
    | Some fileName =>
        ([ info (String.append "Searching file system for: " (toText fileName));
           good (String.append "File located. Executing "
                   (String.append (toText fileName) "...")) ],
         Fulfilled (JsObject [ ("success", JsBool true);
                               ("message",
                                JsString (String.append "Opened " (toText fileName))) ]))
    end
  else if String.eqb action "manageSystemPower" then
    match getProp args "action" with
    | None => ([], thrown)
    | Some act =>
        match optCall toUpperCase act with
        | None => ([], thrown)
        | Some pAction =>
            if includesValue ["ON"] pAction then
              match powerState with
              | OFFLINE =>
                  ([CallPowerOn],
                   Fulfilled (JsObject [ ("success", JsBool true);
                                         ("status", JsString "ONLINE") ]))
              | _ =>
                  ([info "Power check: Systems are already online."],
                   Fulfilled (JsObject [ ("success", JsBool true);
                                         ("status", JsString "ONLINE");
                                         ("message", JsString "System is already running") ]))
              end
            else if includesValue ["OFF"] pAction then
              ([CallShutdown],
               Fulfilled (JsObject [ ("success", JsBool true);
                                     ("status", JsString "STANDBY") ]))
            else if includesValue ["RESTART"] pAction then
              ([CallReboot],
               Fulfilled (JsObject [ ("success", JsBool true);
                                     ("status", JsString "REBOOTING") ]))
            else
              ([],
               Fulfilled (JsObject [ ("success", JsBool true);
                                     ("message", JsString "Power command acknowledged.") ]))
        end
    end
  else if String.eqb action "adjustVolume" then
    match getProp args "level" with
    | None => ([], thrown)
    | Some level =>
        let vol := orElse level (JsNumber 50) in
        ([ SetVolume vol;
           good (String.append "Adjusting master volume to "
                   (String.append (toText vol) "%")) ],
         Fulfilled (JsObject [ ("success", JsBool true); ("new_level", vol) ]))
    end
  else if String.eqb action "changeTheme" then
    match getProp args "theme" with
    | None => ([], thrown)
    | Some theme =>
        match optCall toLowerCase theme with
        | None => ([], thrown)
        | Some (JsString newTheme) =>
            match themeOf newTheme with
            | Some t => ([SetTheme t], Fulfilled (JsObject [("success", JsBool true)]))
            | None =>
                ([], Fulfilled (JsObject [ ("success", JsBool false);
                                           ("message", JsString "Theme not available") ]))
            end
        | Some _ =>
            ([], Fulfilled (JsObject [ ("success", JsBool false);
                                       ("message", JsString "Theme not available") ]))
        end
    end
  else if String.eqb action "changeVoice" then
    match getProp args "voiceName" with
    | None => ([], thrown)
    | Some (JsString newVoice) =>
        if existsb (String.eqb newVoice) validVoices then
          ([ SetVoiceName newVoice;
             warn (String.append "Reinitializing audio synthesis protocol: " newVoice);
             ReconnectIn500 newVoice ],
           Fulfilled (JsObject [ ("success", JsBool true);
                                 ("message",
                                  JsString "Voice protocol updated. Rebooting interface...") ]))
        else
          ([], Fulfilled (JsObject [ ("success", JsBool false);
                                     ("message", JsString "Voice identity not recognized.") ]))
    | Some _ =>
        ([], Fulfilled (JsObject [ ("success", JsBool false);
                                   ("message", JsString "Voice identity not recognized.") ]))
    end
  else
    ([], Rejected (ThrownError (String.append "Unknown protocol action: " action))).

(** *** What the tool handler guarantees *)

(** The handler as the live client sees it: the settlement of its
    promise. *)
Definition toolHandler (powerState : PowerState) (draw : string -> JsValue -> number)
  : string -> JsValue -> Settled JsValue :=
  fun action args => snd (handleSystemAction powerState (draw action args) action args).

Ltac handler_cases :=
  repeat match goal with
         | |- context [if ?b then _ else _] => destruct b
         | |- context [match ?x with _ => _ end] => destruct x
         end.

Lemma toolHandler_settles powerState draw action args :
  toolHandler powerState draw action args <> Rejected ThrownNullish.
Proof.
  unfold toolHandler, handleSystemAction, thrown.
  handler_cases; simpl; discriminate.
Qed.

Lemma declared_tools_unknown powerState random name args :
  ~ In name (map fd_name systemTools) ->
  snd (handleSystemAction powerState random name args)
  = Rejected (ThrownError (String.append "Unknown protocol action: " name))
  /\ fst (handleSystemAction powerState random name args) = [].
Proof.
  intros Hout. unfold handleSystemAction.
  repeat match goal with
         | |- context [String.eqb name ?t] =>
             destruct (String.eqb_spec name t) as [-> | _];
             [exfalso; apply Hout; simpl; repeat first [left; reflexivity | right] |]
         end.
  split; reflexivity.
Qed.

(** X14. The tool handler knows exactly the declared tools.  A name
    that is not declared is rejected with the error "Unknown protocol
    action: <name>" and nothing is done.  A declared tool called with an
    object that gives its required parameter a value of the declared type
    is fulfilled, with one exception: [openWebsite] rejects with the
    [SyntaxError] of [window.open] when the address built from the site
    name does not parse. *)
Theorem declared_tools_are_handled (powerState : PowerState) (random : number)
        (name : string) (args : JsValue) :
  (~ In name (map fd_name systemTools) ->
   handleSystemAction powerState random name args
   = ([], Rejected (ThrownError (String.append "Unknown protocol action: " name))))
  /\ (forall fd,
        In fd systemTools -> wellTyped fd args ->
        (exists effects result,
           handleSystemAction powerState random (fd_name fd) args
           = (effects, Fulfilled result))
        \/ (exists fields siteName syntaxError,
              fd_name fd = "openWebsite"
              /\ args = JsObject fields
              /\ lookupField fields "siteName" = JsString siteName
              /\ windowOpen (urlOf (toLowerCase siteName)) = Some syntaxError
              /\ snd (handleSystemAction powerState random (fd_name fd) args)
                 = Rejected (ThrownError syntaxError)))
  /\ (forall fields siteName,
        lookupField fields "siteName" = JsString siteName ->
        windowOpen (urlOf (toLowerCase siteName)) = None ->
        exists effects result,
          handleSystemAction powerState random "openWebsite" (JsObject fields)
          = (effects, Fulfilled result)).
Proof.
  split; [| split].
  - intros Hout. unfold handleSystemAction.
    repeat match goal with
           | |- context [String.eqb name ?t] =>
               destruct (String.eqb_spec name t) as [-> | _];
               [exfalso; apply Hout; simpl; repeat first [left; reflexivity | right] |]
           end.
    reflexivity.
  - intros fd Hin (fields & -> & Htyped).
    simpl in Hin.
    repeat (destruct Hin as [<- | Hin]); try contradiction;
      unfold handleSystemAction; simpl; eauto.
    + specialize (Htyped "siteName" STRING (or_introl eq_refl) (or_introl eq_refl)).
      destruct (lookupField fields "siteName") as [| | b | x | siteName | fs] eqn:Hsite;
        simpl in *; try contradiction.
      destruct (windowOpen (urlOf (toLowerCase siteName))) as [syntaxError |] eqn:Hopen.
      * right. exists fields, siteName, syntaxError. auto.
      * left. eauto.
    + specialize (Htyped "action" STRING (or_introl eq_refl) (or_introl eq_refl)).
      destruct (lookupField fields "action"); simpl in *;
        try contradiction.
      left. handler_cases; eauto.
    + specialize (Htyped "theme" STRING (or_introl eq_refl) (or_introl eq_refl)).
      destruct (lookupField fields "theme"); simpl in *;
        try contradiction.
      left. handler_cases; eauto.
    + specialize (Htyped "voiceName" STRING (or_introl eq_refl) (or_introl eq_refl)).
      destruct (lookupField fields "voiceName"); simpl in *;
        try contradiction.
      left. handler_cases; eauto.
  - intros fields siteName Hsite Hopen.
    unfold handleSystemAction. simpl. rewrite Hsite. simpl. rewrite Hopen. eauto.
Qed.

(** X15. A tool call that fails has set no state, opened no window and
    started no timer, whatever the tool and the arguments, and the value it
    rejects with is an [Error], never null or undefined.  It has added no
    log entry either, with one exception: an [openWebsite] whose
    [window.open] threw on the address has logged "Opening external
    protocol: <site>" before. *)
Theorem failed_tool_call_does_nothing (powerState : PowerState) (random : number)
        (action : string) (args : JsValue) (error : JsThrown) :
  snd (handleSystemAction powerState random action args) = Rejected error ->
  (exists message, error = ThrownError message)
  /\ (fst (handleSystemAction powerState random action args) = []
      \/ exists fields siteName syntaxError,
           action = "openWebsite"
           /\ args = JsObject fields
           /\ lookupField fields "siteName" = JsString siteName
           /\ windowOpen (urlOf (toLowerCase siteName)) = Some syntaxError
           /\ error = ThrownError syntaxError
           /\ fst (handleSystemAction powerState random action args)
              = [good (String.append "Opening external protocol: "
                         (toLowerCase siteName))]).
Proof.
  unfold handleSystemAction, thrown.
  destruct (String.eqb_spec action "scanSystem") as [-> | _];
    [simpl; discriminate |].
  destruct (String.eqb_spec action "checkIntegrity") as [-> | _];
    [simpl; discriminate |].
  destruct (String.eqb_spec action "openWebsite") as [-> | _].
  - destruct args as [| | b | x | s | fields]; simpl;
      try (intros H; inversion H; split; [eauto | left; reflexivity]).
    destruct (lookupField fields "siteName") as [| | b | x | siteName | fs] eqn:Hsite;
      simpl; try (intros H; inversion H; split; [eauto | left; reflexivity]).
    destruct (windowOpen (urlOf (toLowerCase siteName))) as [syntaxError |] eqn:Hopen;
      simpl; [| discriminate].
    intros H. inversion H. split; [eauto |].
    right. exists fields, siteName, syntaxError. auto 10.
  - handler_cases; simpl; intros H; inversion H; split; eauto.
Qed.

Lemma urlOf_http site : String.prefix "http" (urlOf site) = true.
Proof.
  unfold urlOf.
  destruct (includes site "youtube"); [reflexivity |].
  destruct (includes site "google"); [reflexivity |].
  destruct (includes site "netflix"); [reflexivity |].
  destruct (includes site "spotify"); [reflexivity |].
  destruct (String.prefix "http" site) eqn:Hp; [exact Hp | reflexivity].
Qed.

(** X16. Whatever tool is called with whatever arguments, a window is
    opened only by [openWebsite] with a string for the site name, at most
    one per call, and its address starts with "http": it is one of the four
    fixed addresses, the site name itself when that starts with "http", or
    the site name behind "https://". *)
Theorem opened_address_starts_with_http (powerState : PowerState) (random : number)
        (action : string) (args : JsValue) (url : string) :
  In (WindowOpen url) (fst (handleSystemAction powerState random action args)) ->
  String.prefix "http" url = true
  /\ action = "openWebsite"
  /\ exists fields siteName,
       args = JsObject fields
       /\ lookupField fields "siteName" = JsString siteName
       /\ url = urlOf (toLowerCase siteName)
       /\ fst (handleSystemAction powerState random action args)
          = [ good (String.append "Opening external protocol: " (toLowerCase siteName));
              WindowOpen url ].
Proof.
  unfold handleSystemAction.
  destruct (String.eqb_spec action "scanSystem") as [-> | _];
    [simpl; intros [H | [H | [H | []]]]; discriminate |].
  destruct (String.eqb_spec action "checkIntegrity") as [-> | _];
    [simpl; intros [H | [H | [H | []]]]; discriminate |].
  destruct (String.eqb_spec action "openWebsite") as [-> | _].
  - destruct args as [| | b | x | s | fields]; simpl; try (intros []; fail).
    destruct (lookupField fields "siteName") as [| | b | x | siteName | fs] eqn:Hsite;
      simpl; try (intros []; fail).
    destruct (windowOpen (urlOf (toLowerCase siteName))); simpl;
      [intros [H | []]; discriminate |].
    intros [H | [H | []]]; [discriminate |]. inversion H; subst.
    split; [apply urlOf_http |]. split; [reflexivity |].
    exists fields, siteName. auto.
  - handler_cases; simpl; intros H;
      repeat (destruct H as [H | H]; try discriminate); contradiction.
Qed.

(** A tool effect that leaves the client alone: it is none of the three
    that start a disconnect of the client while the message is still being
    handled ([handleShutdown], [handleReboot], the timer of [changeVoice]). *)
Definition leavesClientAlone (effect : AppEffect) : Prop :=
  match effect with
  | CallShutdown | CallReboot | ReconnectIn500 _ => False
  | _ => True
  end.

(** No invocation of the message shuts the system down, reboots it or
    changes the voice. *)
Definition keepsClient (powerState : PowerState) (draw : string -> JsValue -> number)
  (message : LiveServerMessage) : Prop :=
  forall functionCalls,
    toolCall message = Some functionCalls ->
    Forall (fun fc =>
              Forall leavesClientAlone
                (fst (handleSystemAction powerState (draw (fc_name fc) (fc_args fc))
                        (fc_name fc) (fc_args fc))))
           functionCalls.

(** X1. With the tool handler of the application, and as long as no
    invocation of the message shuts the system down, reboots it or changes
    the voice (those run [disconnect] on the client while the message is
    being handled), handling an inbound message never reports a status or
    an error to the component and never touches the session handle, the
    audio contexts, the capture stream, the processor, the stream source or
    the mute flag, whatever else the message carries (tool calls, audio,
    the interruption flag). *)
Theorem message_leaves_session_alone (powerState : PowerState)
        (draw : string -> JsValue -> number)
        (message : LiveServerMessage) (currentTime : number) (c : LiveClient) :
  keepsClient powerState draw message ->
  let r := handleMessage base64ToUint8Array decodeAudioData
             (toolHandler powerState draw) message currentTime c in
  statuses (effects r) = []
  /\ errorsReported (effects r) = []
  /\ sessionPromise (after r) = sessionPromise c
  /\ inputAudioContext (after r) = inputAudioContext c
  /\ outputAudioContext (after r) = outputAudioContext c
  /\ stream (after r) = stream c
  /\ processor (after r) = processor c
  /\ source (after r) = source c
  /\ isMuted (after r) = isMuted c.
Proof.
  intros _.
  exact (handleMessage_fields base64ToUint8Array decodeAudioData
           (toolHandler powerState draw) message currentTime c).
Qed.

(** X17. With the tool handler of the application, the handling of an
    inbound message always runs to its end, and on a client that holds a
    fulfilled session handle every invocation of the message is answered,
    in order, with the result of the tool or with the failure payload, as
    long as no invocation shuts the system down, reboots it or changes the
    voice; an invocation of a tool that is not declared is answered with
    [{error: "Unknown protocol action: <name>", status: "FAILED"}]. *)
Theorem every_tool_call_is_answered (powerState : PowerState)
        (draw : string -> JsValue -> number)
        (message : LiveServerMessage) (currentTime : number) (c : LiveClient)
        (functionCalls : list FunctionCall) (session : Session) :
  toolCall message = Some functionCalls ->
  sessionPromise c = Some (Fulfilled session) ->
  Forall (fun fc =>
            Forall leavesClientAlone
              (fst (handleSystemAction powerState (draw (fc_name fc) (fc_args fc))
                      (fc_name fc) (fc_args fc))))
         functionCalls ->
  let handler := toolHandler powerState draw in
  let r := handleMessage base64ToUint8Array decodeAudioData handler
             message currentTime c in
  completion r = Normal
  /\ replies (effects r)
     = map (fun fc => functionResponse fc (resultFor handler fc)) functionCalls
  /\ (forall fc,
        In fc functionCalls ->
        ~ In (fc_name fc) (map fd_name systemTools) ->
        In (mkFunctionResponse (fc_id fc) (fc_name fc)
              (JsObject
                 [("result",
                   JsObject
                     [("error",
                       JsString (String.append "Unknown protocol action: " (fc_name fc)));
                      ("status", JsString "FAILED")])]))
           (replies (effects r))).
Proof.
  intros Htc Hs _ handler r.
  assert (Hall : Forall (settlesWithValue handler) functionCalls).
  { apply Forall_forall. intros fc _. apply toolHandler_settles. }
  assert (Hr : replies (effects r)
               = map (fun fc => functionResponse fc (resultFor handler fc)) functionCalls).
  { subst r.
    rewrite (handleMessage_tools_normal base64ToUint8Array decodeAudioData handler
               message currentTime c functionCalls Htc Hall).
    simpl. rewrite replies_app, playback_replies, app_nil_r.
    apply (dispatchAll_replies handler c functionCalls session Hs Hall). }
  split; [| split; [exact Hr |]].
  - subst r.
    rewrite (handleMessage_tools_normal base64ToUint8Array decodeAudioData handler
               message currentTime c functionCalls Htc Hall).
    reflexivity.
  - intros fc Hin Hout. rewrite Hr. apply in_map_iff. exists fc. split; [| exact Hin].
    unfold functionResponse, resultFor, handler, toolHandler.
    destruct (declared_tools_unknown powerState (draw (fc_name fc) (fc_args fc))
                (fc_name fc) (fc_args fc) Hout) as [-> _].
    reflexivity.
Qed.

(** ** The component state and the handlers that drive the client *)

(** The state hooks of [App] that the handlers below read and write, the
    client held by [liveClientRef], and the number of timers started by
    [handleError] that have not fired yet. *)
Record App := mkApp {
  app_connectionState : ConnectionState;
  app_logs : list LogEntry;
  app_audioVolume : number;
  app_voiceName : string;
  app_isMuted : bool;
  app_error : option string;
  app_liveClientRef : option LiveClient;
  app_errorTimers : nat
}.

(** The first render. *)
Definition initialApp : App :=
  {| app_connectionState := DISCONNECTED;
     app_logs := [];
     app_audioVolume := 0;
     app_voiceName := "Kore";
     app_isMuted := false;
     app_error := None;
     app_liveClientRef := None;
     app_errorTimers := 0 |}.

Definition setConnectionState v (a : App) : App :=
  mkApp v (app_logs a) (app_audioVolume a) (app_voiceName a) (app_isMuted a)
    (app_error a) (app_liveClientRef a) (app_errorTimers a).
Definition setLogs v (a : App) : App :=
  mkApp (app_connectionState a) v (app_audioVolume a) (app_voiceName a) (app_isMuted a)
    (app_error a) (app_liveClientRef a) (app_errorTimers a).
Definition setAudioVolume v (a : App) : App :=
  mkApp (app_connectionState a) (app_logs a) v (app_voiceName a) (app_isMuted a)
    (app_error a) (app_liveClientRef a) (app_errorTimers a).
Definition setVoiceName v (a : App) : App :=
  mkApp (app_connectionState a) (app_logs a) (app_audioVolume a) v (app_isMuted a)
    (app_error a) (app_liveClientRef a) (app_errorTimers a).
Definition setIsMuted v (a : App) : App :=
  mkApp (app_connectionState a) (app_logs a) (app_audioVolume a) (app_voiceName a) v
    (app_error a) (app_liveClientRef a) (app_errorTimers a).
Definition setError v (a : App) : App :=
  mkApp (app_connectionState a) (app_logs a) (app_audioVolume a) (app_voiceName a)
    (app_isMuted a) v (app_liveClientRef a) (app_errorTimers a).
Definition setLiveClientRef v (a : App) : App :=
  mkApp (app_connectionState a) (app_logs a) (app_audioVolume a) (app_voiceName a)
    (app_isMuted a) (app_error a) v (app_errorTimers a).
Definition setErrorTimers v (a : App) : App :=
  mkApp (app_connectionState a) (app_logs a) (app_audioVolume a) (app_voiceName a)
    (app_isMuted a) (app_error a) (app_liveClientRef a) v.

(** [addLog]: [setLogs(prev => [log, ...prev].slice(0, 50))] *)
Definition addLog (log : LogEntry) (a : App) : App :=
  setLogs (firstn 50 (log :: app_logs a)) a.

(** The lines of the log box of [InfoPanel]: [[...logs].reverse()]. *)
Definition logLines (logs : list LogEntry) : list LogEntry := rev logs.

(** The last [n] elements of a list. *)
Definition lastn {A} (n : nat) (l : list A) : list A :=
  skipn (List.length l - n) l.

(** The test of [handleError] that starts the five second timer. *)
Definition autoClears (msg : string) : bool :=
  negb (includes msg "Aborted") && negb (includes msg "Failed").

(** [handleError] of the component. *)
Definition showError (msg : string) (a : App) : App :=
  let a := setError (Some msg) a in
  if autoClears msg then setErrorTimers (S (app_errorTimers a)) a else a.

(** A timer of [handleError] fires: [setError(null)]. *)
Definition errorTimerFires (a : App) : App :=
  match app_errorTimers a with
  | O => a
  | S n => setErrorTimers n (setError None a)
  end.

(** The callbacks the component hands to the client it creates. *)
Definition notify (event : Event) (a : App) : App :=
  match event with
  | OnStatusChange status => setConnectionState status a
  | OnAudioData vol => setAudioVolume vol a
  | OnLog entry => addLog entry a
  | OnError message => showError message a
  | _ => a
  end.

Definition notifyAll (evs : list Event) (a : App) : App :=
  fold_left (fun a event => notify event a) evs a.

(** [connectToGemini] of the render [render]: the handler reads [isMuted]
    from the render that created it and writes through the setters and the
    ref.  The voice goes into the session configuration only, which is part
    of what [env] answers. *)
Definition connectToGemini (render : App) (apiKey : string) (env : ConnectEnv)
  (a : App) : App * list Event :=
  if truthy apiKey then
    let a := setError None a in
    let client := fst (setMute (app_isMuted render) newLiveClient) in
    let a := setLiveClientRef (Some client) a in
    let (client, evs) := connect env client in
    (notifyAll evs (setLiveClientRef (Some client) a), evs)
  else (a, []).

(** [disconnectFromGemini] *)
Definition disconnectFromGemini (a : App) : App * list Event :=
  let (a, evs) :=
    match app_liveClientRef a with
    | Some client =>
        let (_, evs) := disconnect client in
        (setLiveClientRef None (notifyAll evs a), evs)
    | None => (a, [])
    end in
  (setError None (setAudioVolume 0 (setConnectionState DISCONNECTED a)), evs).

(** [toggleMute] of the render [render]. *)
Definition toggleMute (render : App) (a : App) : App :=
  let newState := negb (app_isMuted render) in
  let a := setIsMuted newState a in
  let a :=
    match app_liveClientRef a with
    | Some client => setLiveClientRef (Some (fst (setMute newState client))) a
    | None => a
    end in
  addLog (mkLog SYSTEM
            (String.append "Audio Input Sensors "
               (if newState then "DISABLED" else "ENABLED"))
            (if newState then LogWarning else LogSuccess)) a.

(** [toggleConnection] of the render [render]. *)
Definition toggleConnection (render : App) (apiKey : string) (env : ConnectEnv)
  (a : App) : App * list Event :=
  match app_connectionState render with
  | CONNECTED | CONNECTING => disconnectFromGemini a
  | _ => connectToGemini render apiKey env a
  end.

(** The connection button of the render [render]:
    [onClick={toggleConnection}] and
    [disabled={connectionState === ConnectionState.CONNECTING}], so that a
    click while CONNECTING runs no handler. *)
Definition connectionButton (render : App) (apiKey : string) (env : ConnectEnv)
  (a : App) : App * list Event :=
  match app_connectionState render with
  | CONNECTING => (a, [])
  | _ => toggleConnection render apiKey env a
  end.

(** [handleVoiceChange] of the render [render]. *)
Definition handleVoiceChange (render : App) (apiKey : string) (newVoice : string)
  (env : ConnectEnv) (a : App) : App * list Event :=
  if String.eqb newVoice (app_voiceName render) then (a, [])
  else
    let a := setVoiceName newVoice a in
    match app_connectionState render with
    | CONNECTED =>
        let a := addLog (mkLog SYSTEM
                           (String.append "Reconfiguring vocal synthesis to "
                              (String.append (toUpperCase newVoice) "..."))
                           LogWarning) a in
        let (a, evs1) := disconnectFromGemini a in
        let (a, evs2) := connectToGemini render apiKey env a in
        (a, evs1 ++ evs2)
    | _ =>
        (addLog (mkLog SYSTEM
                   (String.append "Vocal identity set to " (toUpperCase newVoice))
                   LogSuccess) a, [])
    end.

(** The timer the [changeVoice] tool starts, created by the tool handler of
    the render [render]: [await disconnectFromGemini(); await
    connectToGemini(newVoice)]. *)
Definition changeVoiceTimer (render : App) (apiKey : string) (env : ConnectEnv)
  (a : App) : App * list Event :=
  let (a, evs1) := disconnectFromGemini a in
  let (a, evs2) := connectToGemini render apiKey env a in
  (a, evs1 ++ evs2).

(** A callback of the session, the processor or a source node reaches the
    client the ref holds. *)
Definition deliver (handler : string -> JsValue -> Settled JsValue) (call : Call)
  (a : App) : App * list Event :=
  match app_liveClientRef a with
  | Some client =>
      let (client, evs) :=
        step base64ToUint8Array decodeAudioData float32ToPCM16 arrayBufferToBase64
          handler call client in
      (notifyAll evs (setLiveClientRef (Some client) a), evs)
  | None => (a, [])
  end.

(** What happens to the component: a handler of the current render runs
    (for [ClickConnection] that is [toggleConnection] itself, in whatever
    state: the runs below include those that the disabled button of
    [connectionButton] rules out), a callback of the attached client, or a
    timer of [handleError]. *)
Inductive UiEvent :=
| ClickConnection (env : ConnectEnv)
| ClickMute
| ClickVoice (newVoice : string) (env : ConnectEnv)
| Fires (call : Call)
| ErrorTimer.

(** The callbacks that reach the client from outside, for a message that
    carries no tool call (a tool call runs the tool handler of the
    component in the middle of the callback). *)
Definition fromOutside (call : Call) : Prop :=
  match call with
  | CallOpen | CallError | CallClose | CallFrame _ | CallEnded _ => True
  | CallMessage message _ => toolCall message = None
  | CallSetMute _ | CallConnect _ | CallDisconnect => False
  end.


Definition uiStep (apiKey : string) (handler : string -> JsValue -> Settled JsValue)
  (event : UiEvent) (a : App) : App * list Event :=
  match event with
  | ClickConnection env => toggleConnection a apiKey env a
  | ClickMute => (toggleMute a a, [])
  | ClickVoice newVoice env => handleVoiceChange a apiKey newVoice env a
  | Fires call => deliver handler call a
  | ErrorTimer => (errorTimerFires a, [])
  end.

Fixpoint uiRun (apiKey : string) (handler : string -> JsValue -> Settled JsValue)
  (events : list UiEvent) (a : App) : App * list Event :=
  match events with
  | [] => (a, [])
  | event :: rest =>
      let (a1, evs1) := uiStep apiKey handler event a in
      let (a2, evs2) := uiRun apiKey handler rest a1 in
      (a2, evs1 ++ evs2)
  end.


(** ** The telemetry tick and what the panels draw from it *)

(** The two fields the status simulation rewrites every two seconds, for
    the draws [random] of [Math.random]. *)
Definition tickCpu (random : number) (cpu : number) : number :=
  Rmax 5 (Rmin 95 (cpu + (random * 10 - 5))).

Definition tickMemory (random : number) (memory : number) : number :=
  Rmax 10 (Rmin 90 (memory + (random * 4 - 2))).

(** [coreLoads] of [InfoPanel]. *)
Definition coreLoads (cpu : number) : list number :=
  [ Rmin 100 (Rmax 0 (cpu + 5));
    Rmin 100 (Rmax 0 (cpu - 8));
    Rmin 100 (Rmax 0 (cpu + 12));
    Rmin 100 (Rmax 0 (cpu - 2)) ].

(** [activeCpuSegments] of [ArcReactor], out of [cpuSegments = 40]. *)
Definition activeCpuSegments (cpu : number) : Z :=
  Z.max 1 (Zfloor (cpu / 100 * 40)).

(** ** The reactor: [components/ArcReactor.tsx] *)

(** What the render loop derives from the integrity. *)
Definition integrityFactor (integrity : number) : number := Rmax 0 integrity / 100.

Definition jitterAmount (integrity : number) : number :=
  (1 - integrityFactor integrity) * 8.

(** [currentStatus.integrity < 80]: the expanding red rings are drawn. *)
Definition criticalRings (integrity : number) : bool :=
  if Rlt_dec integrity 80 then true else false.

(** [integrityFactor < 1]: the red broken segment is drawn. *)
Definition brokenSegment (integrity : number) : bool :=
  if Rlt_dec (integrityFactor integrity) 1 then true else false.

(** [integrityFactor < 0.6], inside the branch of the broken segment: the
    text WARNING is drawn. *)
Definition warningText (integrity : number) : bool :=
  brokenSegment integrity
  && (if Rlt_dec (integrityFactor integrity) (6 / 10) then true else false).

(** The radii of the frame drawn at time [now] (the value of [Date.now()]). *)
Definition pulse (isActive : bool) (currentVol now : number) : number :=
  if isActive then 1 + currentVol * (3 / 10) else 1 + sin (now / 2000) * (3 / 100).

Definition radius (isActive : bool) (currentVol now : number) : number :=
  65 * pulse isActive currentVol now.

Definition cpuRadius (isActive : bool) (currentVol now : number) : number :=
  radius isActive currentVol now + 25.

Definition memRadius (isActive : bool) (currentVol now : number) : number :=
  radius isActive currentVol now + 55.

(** The radar sweep, for [pulseLoop = (Date.now() % 2000) / 2000]. *)
Definition pulseRadius (isActive : bool) (currentVol now pulseLoop : number) : number :=
  memRadius isActive currentVol now + pulseLoop * 50.

(** Half the side of the canvas, [width={420} height={420}]: the distance
    from [centerX, centerY] to the nearest edge. *)
Definition canvasHalf : number := 420 / 2.

(** ** Properties of the component *)

(** *** What the callbacks leave alone *)

Lemma notify_frame event a :
  app_isMuted (notify event a) = app_isMuted a
  /\ app_liveClientRef (notify event a) = app_liveClientRef a.
Proof.
  destruct event; simpl; unfold showError; simpl;
    try destruct (autoClears message); auto.
Qed.

Lemma notifyAll_frame evs a :
  app_isMuted (notifyAll evs a) = app_isMuted a
  /\ app_liveClientRef (notifyAll evs a) = app_liveClientRef a.
Proof.
  revert a. induction evs as [| event evs IH]; intros a; simpl; [auto |].
  destruct (IH (notify event a)) as [-> ->]. apply notify_frame.
Qed.

Lemma notifyAll_app evs1 evs2 a :
  notifyAll (evs1 ++ evs2) a = notifyAll evs2 (notifyAll evs1 a).
Proof. apply fold_left_app. Qed.

(** An event that calls none of the callbacks of the component. *)
Definition unheard (event : Event) : Prop :=
  match event with
  | OnStatusChange _ | OnAudioData _ | OnLog _ | OnError _ => False
  | _ => True
  end.

Lemma notifyAll_unheard evs a : Forall unheard evs -> notifyAll evs a = a.
Proof.
  induction 1 as [| event evs He _ IH]; simpl; [reflexivity |].
  destruct event; simpl in He; try contradiction; exact IH.
Qed.

Lemma andThen_unheard (f g : Op) c :
  (forall c, Forall unheard (snd (f c))) ->
  (forall c, Forall unheard (snd (g c))) ->
  Forall unheard (snd ((f ;; g) c)).
Proof.
  intros Hf Hg. unfold andThen.
  specialize (Hf c). destruct (f c) as [c1 e1].
  specialize (Hg c1). destruct (g c1) as [c2 e2].
  simpl in *. apply Forall_app. split; assumption.
Qed.

Lemma map_unheard {A} (f : A -> Event) l :
  (forall x, unheard (f x)) -> Forall unheard (map f l).
Proof. intros H. induction l; simpl; constructor; auto. Qed.

Lemma disconnect_unheard c : Forall unheard (snd (disconnect c)).
Proof.
  unfold disconnect.
  repeat (apply andThen_unheard; [clear c; intros c | clear c; intros c]).
  - unfold releaseProcessor. destruct (processor c); simpl; repeat constructor.
  - unfold releaseSource. destruct (source c); simpl; repeat constructor.
  - unfold releaseStream. destruct (stream c); simpl; [| constructor].
    apply map_unheard. intros x. exact I.
  - unfold closeInputContext.
    destruct (inputAudioContext c) as [ctx |]; [destruct (isClosed (ctx_state ctx)) |];
      simpl; repeat constructor.
  - unfold closeOutputContext.
    destruct (outputAudioContext c) as [ctx |]; [destruct (isClosed (ctx_state ctx)) |];
      simpl; repeat constructor.
  - unfold stopActiveSources. simpl. apply map_unheard. intros x. exact I.
  - unfold closeSession. destruct (sessionPromise c) as [[] |]; simpl; repeat constructor.
Qed.

Lemma connect_isMuted env c : isMuted (fst (connect env c)) = isMuted c.
Proof.
  unfold connect, andThen, emit, connectTry, connectCatch, emit.
  destruct (newInputContext env); [reflexivity |].
  destruct (newOutputContext env); [reflexivity |].
  destruct (getUserMedia env); reflexivity.
Qed.

(** The events of [connect] are calls of the callbacks only. *)
Definition heard (event : Event) : Prop :=
  match event with
  | OnStatusChange _ | OnAudioData _ | OnLog _ | OnError _ => True
  | _ => False
  end.

Lemma connect_heard env c : Forall heard (snd (connect env c)).
Proof.
  unfold connect, andThen, emit, connectTry, connectCatch, emit.
  destruct (newInputContext env); [simpl; repeat constructor |].
  destruct (newOutputContext env); [simpl; repeat constructor |].
  destruct (getUserMedia env); simpl; repeat constructor.
Qed.


(** *** The handlers and the mute flag *)

Lemma connectToGemini_mute render apiKey env a :
  let a' := fst (connectToGemini render apiKey env a) in
  app_isMuted a' = app_isMuted a
  /\ (truthy apiKey = true ->
      exists client, app_liveClientRef a' = Some client
                     /\ isMuted client = app_isMuted render)
  /\ (truthy apiKey = false -> a' = a).
Proof.
  unfold connectToGemini. destruct (truthy apiKey).
  - pose proof (connect_isMuted env (fst (setMute (app_isMuted render) newLiveClient)))
      as Hm.
    destruct (connect env (fst (setMute (app_isMuted render) newLiveClient)))
      as [client evs]. simpl in *.
    match goal with
    | |- context [notifyAll evs ?x] => destruct (notifyAll_frame evs x) as [-> ->]
    end.
    simpl. split; [reflexivity |]. split; [| discriminate].
    intros _. exists client. split; [reflexivity | exact Hm].
  - simpl. split; [reflexivity |]. split; [discriminate | reflexivity].
Qed.

Lemma disconnectFromGemini_state a :
  let r := disconnectFromGemini a in
  app_connectionState (fst r) = DISCONNECTED
  /\ app_audioVolume (fst r) = 0
  /\ app_error (fst r) = None
  /\ app_liveClientRef (fst r) = None
  /\ app_isMuted (fst r) = app_isMuted a
  /\ app_logs (fst r) = app_logs a
  /\ app_voiceName (fst r) = app_voiceName a
  /\ app_errorTimers (fst r) = app_errorTimers a
  /\ snd r = match app_liveClientRef a with
             | Some client => snd (disconnect client)
             | None => []
             end.
Proof.
  unfold disconnectFromGemini.
  destruct (app_liveClientRef a) as [client |] eqn:Href.
  - pose proof (disconnect_unheard client) as Hq.
    destruct (disconnect client) as [client' evs]. simpl in *.
    rewrite (notifyAll_unheard evs a Hq). simpl. repeat split; reflexivity.
  - simpl. repeat split; auto.
Qed.

Lemma addLog_frame entry a :
  app_isMuted (addLog entry a) = app_isMuted a
  /\ app_liveClientRef (addLog entry a) = app_liveClientRef a.
Proof. split; reflexivity. Qed.




Lemma deliver_isMuted handler call a :
  app_isMuted (fst (deliver handler call a)) = app_isMuted a.
Proof.
  unfold deliver. destruct (app_liveClientRef a) as [client |]; [| reflexivity].
  destruct (step base64ToUint8Array decodeAudioData float32ToPCM16 arrayBufferToBase64
              handler call client) as [client' evs]. simpl.
  match goal with
  | |- context [notifyAll evs ?x] => destruct (notifyAll_frame evs x) as [-> _]
  end.
  reflexivity.
Qed.

Lemma callbacks_isMuted apiKey handler calls a :
  app_isMuted (fst (uiRun apiKey handler (map Fires calls) a)) = app_isMuted a.
Proof.
  revert a. induction calls as [| call calls IH]; intros a; simpl; [reflexivity |].
  pose proof (deliver_isMuted handler call a) as H1.
  destruct (deliver handler call a) as [a1 evs1]. simpl in H1.
  specialize (IH a1).
  destruct (uiRun apiKey handler (map Fires calls) a1) as [a2 evs2]. simpl in *.
  congruence.
Qed.

(** X19. The reconnect that the [changeVoice] tool starts gives the new
    client the mute flag of the render that created the handler, not the
    current one.  A session is started while the microphone is live, any
    callbacks arrive, the user mutes, and the timer of [changeVoice] fires:
    the component still shows the microphone as muted, and the client it
    now holds is not muted. *)
Theorem tool_reconnect_forgets_mute (apiKey : string)
        (handler : string -> JsValue -> Settled JsValue)
        (env env' : ConnectEnv) (calls : list Call) (a0 : App) :
  truthy apiKey = true ->
  app_isMuted a0 = false ->
  Forall fromOutside calls ->
  let a1 := fst (connectToGemini a0 apiKey env a0) in
  let a2 := fst (uiRun apiKey handler (map Fires calls) a1) in
  let a3 := toggleMute a2 a2 in
  let a4 := fst (changeVoiceTimer a0 apiKey env' a3) in
  app_isMuted a4 = true
  /\ exists client, app_liveClientRef a4 = Some client /\ isMuted client = false.
Proof.
  intros Hkey Hm0 _ a1 a2 a3 a4.
  assert (H1 : app_isMuted a1 = false).
  { subst a1. destruct (connectToGemini_mute a0 apiKey env a0) as (-> & _). exact Hm0. }
  assert (H2 : app_isMuted a2 = false).
  { subst a2. rewrite callbacks_isMuted. exact H1. }
  assert (H3 : app_isMuted a3 = true).
  { subst a3. unfold toggleMute. simpl. rewrite H2.
    destruct (app_liveClientRef a2); reflexivity. }
  subst a4. unfold changeVoiceTimer.
  destruct (disconnectFromGemini_state a3) as (_ & _ & _ & _ & Hmd & _).
  destruct (disconnectFromGemini a3) as [b evs1]. simpl in Hmd.
  destruct (connectToGemini_mute a0 apiKey env' b) as (Hm & Hyes & _).
  destruct (connectToGemini a0 apiKey env' b) as [b' evs2]. simpl in *.
  split; [congruence |].
  destruct (Hyes Hkey) as (client & Href & Hcm).
  exists client. split; [exact Href | congruence].
Qed.

(** X20. A click on the connection button while the component shows
    CONNECTED ends with the state DISCONNECTED, the volume 0, no error and
    no client, whatever the client did; the log and the mute flag are as
    before; the client that was held made exactly the calls of its
    [disconnect], none of them a callback of the component, and is left
    with everything released.  While the component shows CONNECTING the
    button is disabled: a click runs no handler and changes nothing. *)
Theorem disconnect_click_resets (apiKey : string) (env : ConnectEnv) (a : App) :
  let r := connectionButton a apiKey env a in
  (app_connectionState a = CONNECTING -> r = (a, []))
  /\ (app_connectionState a = CONNECTED ->
      app_connectionState (fst r) = DISCONNECTED
      /\ app_audioVolume (fst r) = 0
      /\ app_error (fst r) = None
      /\ app_liveClientRef (fst r) = None
      /\ app_isMuted (fst r) = app_isMuted a
      /\ app_logs (fst r) = app_logs a
      /\ Forall unheard (snd r)
      /\ forall client,
           app_liveClientRef a = Some client ->
           snd r = snd (disconnect client) /\ released (fst (disconnect client))).
Proof.
  intros r. split.
  - intros Hstate. subst r. unfold connectionButton. rewrite Hstate. reflexivity.
  - intros Hstate.
    assert (Hr : r = disconnectFromGemini a).
    { subst r. unfold connectionButton, toggleConnection. rewrite Hstate. reflexivity. }
    rewrite Hr.
    destruct (disconnectFromGemini_state a)
      as (H1 & H2 & H3 & H4 & H5 & H6 & _ & _ & H9).
    repeat (split; [assumption |]). split.
    + rewrite H9. destruct (app_liveClientRef a) as [client |];
        [apply disconnect_unheard | constructor].
    + intros client Href. rewrite H9, Href. split; [reflexivity |].
      apply disconnect_released.
Qed.

(** X21. A failed attempt is never cleaned up by the next one.  When the
    capture device is refused, a click on the connection button shows ERROR
    with the message, and the client left in the ref holds two running
    audio contexts; the next click replaces that client by a fresh one and
    connects it, and neither click closes a context, stops a track or
    closes a session. *)
Theorem retry_abandons_failed_client (apiKey : string) (env env' : ConnectEnv)
        (error : JsThrown) (a0 : App) :
  truthy apiKey = true ->
  app_connectionState a0 = DISCONNECTED \/ app_connectionState a0 = ERROR ->
  newInputContext env = None ->
  newOutputContext env = None ->
  getUserMedia env = Rejected error ->
  let r1 := toggleConnection a0 apiKey env a0 in
  let r2 := toggleConnection (fst r1) apiKey env' (fst r1) in
  app_connectionState (fst r1) = ERROR
  /\ app_error (fst r1) = Some (connectErrorMessage error)
  /\ (exists failed,
        app_liveClientRef (fst r1) = Some failed
        /\ inputAudioContext failed = Some (mkAudioContext 16000%Z Running)
        /\ outputAudioContext failed = Some (mkAudioContext 24000%Z Running))
  /\ Forall heard (snd r1 ++ snd r2)
  /\ app_liveClientRef (fst r2)
     = Some (fst (connect env' (fst (setMute (app_isMuted a0) newLiveClient)))).
Proof.
  intros Hkey Hstate Hin Hout Hmedia r1 r2.
  assert (Hr1 : r1 = connectToGemini a0 apiKey env a0).
  { subst r1. unfold toggleConnection. destruct Hstate as [-> | ->]; reflexivity. }
  assert (Hc1 : connect env (fst (setMute (app_isMuted a0) newLiveClient))
                = (set_outputAudioContext (Some (mkAudioContext 24000%Z Running))
                     (set_inputAudioContext (Some (mkAudioContext 16000%Z Running))
                        (fst (setMute (app_isMuted a0) newLiveClient))),
                   [ OnStatusChange CONNECTING; OnStatusChange ERROR;
                     OnError (connectErrorMessage error);
                     OnLog (mkLog SYSTEM
                              (String.append "Connection Aborted: "
                                 (connectErrorMessage error)) LogError) ])).
  { unfold connect, andThen, emit, connectTry, connectCatch, emit.
    rewrite Hin, Hout, Hmedia. reflexivity. }
  assert (Hstate1 : app_connectionState (fst r1) = ERROR
                    /\ app_error (fst r1) = Some (connectErrorMessage error)
                    /\ app_isMuted (fst r1) = app_isMuted a0
                    /\ app_liveClientRef (fst r1)
                       = Some (set_outputAudioContext
                                 (Some (mkAudioContext 24000%Z Running))
                                 (set_inputAudioContext
                                    (Some (mkAudioContext 16000%Z Running))
                                    (fst (setMute (app_isMuted a0) newLiveClient))))).
  { rewrite Hr1. unfold connectToGemini. rewrite Hkey, Hc1. simpl.
    unfold showError. destruct (autoClears (connectErrorMessage error)); simpl; auto. }
  destruct Hstate1 as (Hs1 & He1 & Hm1 & Hl1).
  assert (Hr2 : r2 = connectToGemini (fst r1) apiKey env' (fst r1)).
  { subst r2. unfold toggleConnection. rewrite Hs1. reflexivity. }
  split; [exact Hs1 |]. split; [exact He1 |]. split.
  { eexists. split; [exact Hl1 |]. split; reflexivity. }
  split.
  - apply Forall_app. split.
    + rewrite Hr1. unfold connectToGemini. rewrite Hkey, Hc1. simpl. repeat constructor.
    + rewrite Hr2. unfold connectToGemini. rewrite Hkey, Hm1.
      pose proof (connect_heard env' (fst (setMute (app_isMuted a0) newLiveClient))) as Hh.
      destruct (connect env' (fst (setMute (app_isMuted a0) newLiveClient))) as [c evs].
      exact Hh.
  - rewrite Hr2. unfold connectToGemini. rewrite Hkey, Hm1.
    destruct (connect env' (fst (setMute (app_isMuted a0) newLiveClient))) as [c evs].
    simpl.
    match goal with
    | |- context [notifyAll evs ?x] => destruct (notifyAll_frame evs x) as [_ ->]
    end.
    reflexivity.
Qed.

(** *** The log box *)

Lemma firstn_app_firstn {A} n (l1 l2 : list A) :
  firstn n (l1 ++ firstn n l2) = firstn n (l1 ++ l2).
Proof.
  rewrite !firstn_app, firstn_firstn. f_equal. f_equal. lia.
Qed.

Lemma addLog_all entries a :
  (List.length (app_logs a) <= 50)%nat ->
  app_logs (fold_left (fun a entry => addLog entry a) entries a)
  = firstn 50 (rev entries ++ app_logs a).
Proof.
  revert a. induction entries as [| entry entries IH]; intros a Hlen.
  - cbn [fold_left rev app]. symmetry. apply firstn_all2. exact Hlen.
  - cbn [fold_left]. rewrite IH by apply firstn_le_length.
    change (app_logs (addLog entry a)) with (firstn 50 (entry :: app_logs a)).
    rewrite firstn_app_firstn. cbn [rev]. rewrite <- app_assoc. reflexivity.
Qed.

(** X22. The log box shows the last fifty entries in the order they were
    logged: after any entries are added, its lines are the last fifty of the
    lines it showed before followed by the new entries, and the list the
    component keeps never exceeds fifty. *)
Theorem log_box_shows_last_fifty (entries : list LogEntry) (a : App) :
  (List.length (app_logs a) <= 50)%nat ->
  let a' := fold_left (fun a entry => addLog entry a) entries a in
  logLines (app_logs a') = lastn 50 (logLines (app_logs a) ++ entries)
  /\ (List.length (app_logs a') <= 50)%nat.
Proof.
  intros Hlen a'. subst a'. rewrite (addLog_all entries a Hlen). split.
  - unfold logLines, lastn.
    rewrite (firstn_skipn_rev 50 (rev entries ++ app_logs a)).
    rewrite rev_involutive, rev_app_distr, rev_involutive.
    rewrite !length_app, !length_rev. f_equal. lia.
  - apply firstn_le_length.
Qed.

(** *** The error banner *)

(** X23. How long an error stays on the banner.  A failed text command
    ("Command Execution Failed: ...") is never cleared by a timer of its own.
    A failure of [connect] always gets a timer when the client replaced the
    message by one of its own texts, and without a timer the banner shows
    the raw message of the error.  The error of the transport gets a timer.
    And a timer clears whatever the banner shows when it fires: an error
    that gets no timer, shown while the timer of an earlier one is pending,
    is cleared by that timer. *)
Theorem error_banner_lifetime :
  (forall msg, autoClears (String.append "Command Execution Failed: " msg) = false)
  /\ (forall error,
        autoClears (connectErrorMessage error) = true
        \/ error = ThrownError (connectErrorMessage error))
  /\ autoClears "WebSocket communication interrupted." = true
  /\ (forall earlier later a,
        autoClears earlier = true ->
        app_error (errorTimerFires (showError later (showError earlier a))) = None).
Proof.
  split; [| split; [| split]].
  - intros msg. unfold autoClears.
    assert (H : includes (String.append "Command Execution Failed: " msg) "Failed" = true)
      by reflexivity.
    rewrite H. apply andb_false_r.
  - intros [| message | message]; [left; reflexivity | | left; reflexivity].
    unfold connectErrorMessage.
    destruct (includes message "403") eqn:H403; [left; reflexivity |].
    destruct (includes message "503") eqn:H503; [left; reflexivity |].
    destruct (includes message "Failed to fetch") eqn:Hfetch; [left; reflexivity |].
    right. reflexivity.
  - reflexivity.
  - intros earlier later a Hauto. unfold showError at 2. rewrite Hauto.
    unfold showError, errorTimerFires.
    destruct (autoClears later); reflexivity.
Qed.

(** *** The telemetry *)

Ltac clamp :=
  unfold Rmax, Rmin; repeat (destruct (Rle_dec _ _)); try lra.

(** X24. After a tick of the status simulation the processor load lies
    in [5, 95] and the memory in [10, 90], whatever they were and whatever
    was drawn.  For such a load the panel never clamps its first and its
    fourth core bar, and the reactor lights between 2 and 38 of its 40
    segments, so the lower bound 1 of [activeCpuSegments] is never used. *)
Theorem telemetry_stays_in_range (random1 random2 cpu memory : number) :
  let cpu' := tickCpu random1 cpu in
  let memory' := tickMemory random2 memory in
  5 <= cpu' <= 95
  /\ 10 <= memory' <= 90
  /\ coreLoads cpu'
     = [cpu' + 5; Rmax 0 (cpu' - 8); Rmin 100 (cpu' + 12); cpu' - 2]
  /\ (2 <= activeCpuSegments cpu' <= 38)%Z
  /\ activeCpuSegments cpu' = Zfloor (cpu' / 100 * 40).
Proof.
  intros cpu' memory'.
  assert (Hc : 5 <= cpu' <= 95) by (subst cpu'; unfold tickCpu; clamp).
  assert (Hm : 10 <= memory' <= 90) by (subst memory'; unfold tickMemory; clamp).
  assert (Hf : (2 <= Zfloor (cpu' / 100 * 40) <= 38)%Z).
  { split.
    - apply Zfloor_lub. lra.
    - apply Z.lt_succ_r. apply lt_IZR.
      pose proof (Zfloor_bound (cpu' / 100 * 40)) as [Hlo _].
      replace (IZR (Z.succ 38)) with 39 by (simpl; lra). lra. }
  split; [exact Hc |]. split; [exact Hm |]. split; [| split].
  - unfold coreLoads. clearbody cpu'.
    f_equal; [| f_equal; [| f_equal; [| f_equal]]].
    + rewrite Rmax_right, Rmin_right by lra. reflexivity.
    + rewrite Rmin_right; [reflexivity |]. apply Rmax_lub; lra.
    + rewrite (Rmax_right 0 (cpu' + 12)) by lra. reflexivity.
    + rewrite Rmax_right, Rmin_right by lra. reflexivity.
  - unfold activeCpuSegments. lia.
  - unfold activeCpuSegments. lia.
Qed.

(** *** The integrity *)

Lemma drawIntegrity_range random :
  0 <= random < 1 -> 85 <= drawIntegrity random <= 99.
Proof.
  intros [Hlo Hhi]. unfold drawIntegrity.
  assert (H : (0 <= Zfloor (random * 15) <= 14)%Z).
  { split.
    - apply Zfloor_lub. lra.
    - apply Z.lt_succ_r. apply lt_IZR.
      pose proof (Zfloor_bound (random * 15)) as [H _].
      replace (IZR (Z.succ 14)) with 15 by (simpl; lra). lra. }
  destruct H as [H0 H14]. apply IZR_le in H0, H14. lra.
Qed.

(** X25. The integrity check, whatever its arguments, sets an integrity
    between 85 and 99 (the source comments "between 85 and 100"; 100 is
    never drawn): after a check the reactor always draws the red broken
    segment, never the expanding rings of the critical state and never the
    text WARNING, and shakes the core by at most 1.2 pixels. *)
Theorem integrity_never_critical (powerState : PowerState) (random : number)
        (args : JsValue) :
  0 <= random < 1 ->
  let newIntegrity := drawIntegrity random in
  handleSystemAction powerState random "checkIntegrity" args
  = ([ info "Running system integrity verification...";
       SetIntegrity newIntegrity;
       good (String.append "Integrity verification complete: "
               (String.append (numberToString newIntegrity) "%")) ],
     Fulfilled (JsObject [ ("integrity", JsNumber newIntegrity);
                           ("status", JsString "STABLE") ]))
  /\ 85 <= newIntegrity <= 99
  /\ criticalRings newIntegrity = false
  /\ brokenSegment newIntegrity = true
  /\ warningText newIntegrity = false
  /\ 0 < jitterAmount newIntegrity <= 12 / 10.
Proof.
  intros Hrandom newIntegrity.
  pose proof (drawIntegrity_range random Hrandom) as Hr. fold newIntegrity in Hr.
  assert (Hf : integrityFactor newIntegrity = newIntegrity / 100).
  { unfold integrityFactor. rewrite Rmax_right by lra. reflexivity. }
  split; [reflexivity |]. split; [exact Hr |].
  unfold warningText, criticalRings, brokenSegment, jitterAmount. rewrite Hf.
  destruct (Rlt_dec newIntegrity 80); [lra |].
  destruct (Rlt_dec (newIntegrity / 100) 1); [| lra].
  destruct (Rlt_dec (newIntegrity / 100) (6 / 10)); [lra |].
  repeat split; try reflexivity; lra.
Qed.

(** *** The reactor and the volume *)

(** X26. The reactor is drawn for a volume between 0 and 1.  With such a
    volume, and while idle, the rings lie one inside the other (core, load,
    memory, radar sweep) and the radar sweep, the widest ring drawn outside
    the critical state, stays below half the side of the canvas.  A level
    that the playback path reports for a chunk of at least one byte is
    such a volume.  The capture path reports [rms * 5] unclamped: for a
    frame at full scale the level is 5, and the memory ring alone is drawn
    outside the canvas. *)
Theorem reactor_fits_canvas_up_to_volume_one :
  (forall isActive currentVol now pulseLoop,
     0 <= currentVol <= 1 -> 0 <= pulseLoop < 1 ->
     0 < radius isActive currentVol now
     /\ radius isActive currentVol now < cpuRadius isActive currentVol now
     /\ cpuRadius isActive currentVol now < memRadius isActive currentVol now
     /\ memRadius isActive currentVol now <= pulseRadius isActive currentVol now pulseLoop
     /\ pulseRadius isActive currentVol now pulseLoop < canvasHalf)
  /\ (forall audioBytes now pulseLoop,
        audioBytes <> [] ->
        0 <= pulseLoop < 1 ->
        pulseRadius true (playbackLevel audioBytes) now pulseLoop < canvasHalf)
  /\ (forall n now,
        (0 < n)%nat ->
        canvasHalf < memRadius true (captureRms (repeat 1 n) * 5) now).
Proof.
  assert (Hfit : forall isActive currentVol now pulseLoop,
             0 <= currentVol <= 1 -> 0 <= pulseLoop < 1 ->
             0 < radius isActive currentVol now
             /\ pulseRadius isActive currentVol now pulseLoop < canvasHalf).
  { intros isActive currentVol now pulseLoop Hv Hp.
    unfold pulseRadius, memRadius, radius, pulse, canvasHalf.
    destruct isActive.
    - split; lra.
    - pose proof (SIN_bound (now / 2000)) as Hs. split; lra. }
  split.
  { intros isActive currentVol now pulseLoop Hv Hp.
    destruct (Hfit isActive currentVol now pulseLoop Hv Hp) as [H0 Hw].
    split; [exact H0 |].
    unfold pulseRadius, memRadius, cpuRadius in *. repeat split; lra. }
  split.
  - intros audioBytes now pulseLoop _ Hp.
    apply Hfit; [apply playbackLevel_bounded | exact Hp].
  - intros n now Hn. rewrite captureRms_constant by (lra || exact Hn).
    unfold memRadius, radius, pulse, canvasHalf. lra.
Qed.

End Application.

(** * More sample runs *)

(** A tool handler that knows [scanSystem] and rejects every other name
    with [undefined]. *)
Definition nullishHandler (name : string) (args : JsValue) : Settled JsValue :=
  if String.eqb name "scanSystem"
  then Fulfilled (JsObject [("status", JsString "OPTIMAL")])
  else Rejected ThrownNullish.

Definition threeToolsMessage : LiveServerMessage :=
  mkMessage (Some [ mkFunctionCall "7" "scanSystem" (JsObject []);
                    mkFunctionCall "2" "Y" (JsObject []);
                    mkFunctionCall "8" "scanSystem" (JsObject []) ])
            (Some (mkServerContent None true)).

(** ASCII stand-ins for [toLowerCase] and [toUpperCase], a rendering of
    numbers that hides the digits, and the message of a [TypeError]. *)
Definition lowerAscii (ch : ascii) : ascii :=
  let n := nat_of_ascii ch in
  if ((65 <=? n) && (n <=? 90))%nat then ascii_of_nat (n + 32) else ch.

Definition upperAscii (ch : ascii) : ascii :=
  let n := nat_of_ascii ch in
  if ((97 <=? n) && (n <=? 122))%nat then ascii_of_nat (n - 32) else ch.

Fixpoint mapString (f : ascii -> ascii) (s : string) : string :=
  match s with
  | EmptyString => EmptyString
  | String ch rest => String (f ch) (mapString f rest)
  end.

Definition asciiLower : string -> string := mapString lowerAscii.
Definition asciiUpper : string -> string := mapString upperAscii.
Definition hiddenDigits : number -> string := fun _ => "#".
Definition sampleTypeError : string := "Cannot read properties of undefined".

(** A stand-in for [window.open]: an address with a space in it does not
    parse, nor does the bare "https://". *)
Definition sampleWindowOpen (url : string) : option string :=
  if includes url " " || String.eqb url "https://"
  then Some "Unable to open a window with invalid URL"
  else None.

(** The tool handler of the application on the stand-ins, with the same
    draw for every call. *)
Definition appHandler (powerState : PowerState) (random : number)
  : string -> JsValue -> Settled JsValue :=
  toolHandler asciiLower asciiUpper hiddenDigits sampleTypeError
    sampleWindowOpen powerState
    (fun _ _ => random).

Definition siteArgs (siteName : string) : JsValue :=
  JsObject [("siteName", JsString siteName)].

(** *** X3 on two chunks *)

Lemma playback_volumes_bounded_witness :
  Forall (fun v => 0 <= v <= 1)
    (volumes (snd (handleMessages base64Decode pcmBuffer sampleHandler
                     sampleArrivals connectedClient))).
Proof.
  apply (playback_volumes_bounded base64Decode pcmBuffer sampleHandler
           sampleArrivals connectedClient).
  repeat constructor; intros base64Audio H; simpl in H; injection H as <-;
    vm_compute; discriminate.
Defined.

(** *** X2 on two chunks *)

Lemma playback_never_in_the_past_witness :
  Forall2 (fun sch enq => fst enq <= fst sch /\ snd sch = snd enq)
          (scheduled (snd (handleMessages base64Decode pcmBuffer sampleHandler
                             sampleArrivals connectedClient)))
          (enqueued base64Decode pcmBuffer sampleHandler sampleArrivals connectedClient).
Proof.
  apply (playback_never_in_the_past base64Decode pcmBuffer sampleHandler
           sampleArrivals connectedClient).
  repeat constructor.
Defined.

(** *** X4: the second of three invocations rejects with [undefined] *)

Lemma nullish_rejection_aborts_message_witness :
  let r := handleMessage base64Decode pcmBuffer nullishHandler
             threeToolsMessage 0 connectedClient in
  completion r = Abrupt
  /\ after r = connectedClient
  /\ effects r =
     flat_map (fun fc' => fst (dispatch nullishHandler connectedClient fc'))
       [mkFunctionCall "7" "scanSystem" (JsObject [])]
     ++ [OnLog (mkLog JARVIS (String.append "Executing protocol: " "Y") LogInfo)].
Proof.
  apply (nullish_rejection_aborts_message base64Decode pcmBuffer nullishHandler
           threeToolsMessage 0 connectedClient
           [mkFunctionCall "7" "scanSystem" (JsObject [])]
           (mkFunctionCall "2" "Y" (JsObject []))
           [mkFunctionCall "8" "scanSystem" (JsObject [])]).
  - reflexivity.
  - repeat constructor. unfold settlesWithValue. simpl. discriminate.
  - reflexivity.
Defined.

(** *** X5 and X6: a frame at full scale, and silence *)

Lemma capture_level_range_witness :
  1 / 20 < captureRms [1] * 5 <= 5.
Proof.
  apply (capture_level_range framePcm frameText [1] connectedClient (captureRms [1] * 5)).
  - repeat constructor; lra.
  - unfold audioprocess, onaudioprocess. simpl.
    destruct (Rgt_dec (captureRms [1]) (1 / 100)) as [_ | Hn].
    + simpl. left. reflexivity.
    + exfalso. apply Hn.
      change [1] with (repeat 1 1%nat).
      rewrite (captureRms_constant 1 1 ltac:(lra) ltac:(lia)). lra.
Defined.

Lemma quiet_frame_sent_unreported_witness :
  audioprocess framePcm frameText [0; 0] connectedClient =
  (connectedClient,
   [SendRealtimeInput "audio/pcm;rate=16000" (frameText (framePcm [0; 0]))]).
Proof.
  apply (quiet_frame_sent_unreported framePcm frameText [0; 0] connectedClient
           (mkScriptProcessor 4096) TheSession).
  - reflexivity.
  - reflexivity.
  - reflexivity.
  - repeat constructor; lra.
Defined.

(** *** X9 and X10: the device is granted *)

Lemma connect_granted_reports_connecting_witness :
  snd (connect grantedEnv newLiveClient) = [OnStatusChange CONNECTING]
  /\ sessionPromise (fst (connect grantedEnv newLiveClient)) = Some (Fulfilled TheSession)
  /\ processor (fst (connect grantedEnv newLiveClient)) = None.
Proof.
  destruct (connect_granted_reports_connecting grantedEnv newLiveClient
              (mkMediaStream [0%nat]))
    as (H1 & _ & _ & _ & H5 & H6 & _).
  - repeat split.
  - exact (conj H1 (conj H5 H6)).
Defined.

Lemma connect_open_disconnect_round_trip_witness :
  disconnect connectedClient =
  (newLiveClient,
   [ProcessorDisconnect; StreamSourceDisconnect; TrackStop 0%nat;
    ContextClose InputContext; ContextClose OutputContext; SessionClose]).
Proof.
  apply (connect_open_disconnect_round_trip grantedEnv newLiveClient
           (mkMediaStream [0%nat]) TheSession).
  - repeat split.
  - repeat split.
  - reflexivity.
Defined.

(** *** X12: the playback of the only handle ends *)

Definition sampleCalls : list Call :=
  [ CallConnect grantedEnv; CallMessage (chunkMessage "AAABAA==") 0 ].

Lemma ended_handle_removes_itself_witness :
  let c := fst (run base64Decode pcmBuffer framePcm frameText sampleHandler
                  sampleCalls newLiveClient) in
  let node := mkSourceNode 0 (pcmBuffer (base64Decode "AAABAA==")) in
  let c' := fst (onended node c) in
  ~ In node (activeSources c')
  /\ (forall other, In other (activeSources c) -> other <> node ->
                    In other (activeSources c'))
  /\ S (List.length (activeSources c')) = List.length (activeSources c)
  /\ snd (onended node c) = []
  /\ nextStartTime c' = nextStartTime c.
Proof.
  intros c node.
  apply (ended_handle_removes_itself base64Decode pcmBuffer framePcm frameText
           sampleHandler sampleCalls node).
  left. reflexivity.
Defined.

(** *** X13: two samples of value -1 *)

Lemma negative_samples_saturate_witness :
  1 <= playbackRms [xff; xff; xff; xff] /\ playbackLevel [xff; xff; xff; xff] = 1.
Proof.
  apply (negative_samples_saturate [xff; xff; xff; xff]).
  - discriminate.
  - unfold samplesNegative. repeat split; vm_compute; discriminate.
Defined.

(** *** X15 and X16: a site whose address does not parse, and one that does *)

Lemma failed_tool_call_does_nothing_witness :
  let r := handleSystemAction asciiLower asciiUpper hiddenDigits sampleTypeError
             sampleWindowOpen ONLINE 0 "openWebsite" (siteArgs "Hacker News") in
  snd r = Rejected (ThrownError "Unable to open a window with invalid URL")
  /\ fst r = [good "Opening external protocol: hacker news"].
Proof.
  intros r.
  destruct (failed_tool_call_does_nothing asciiLower asciiUpper hiddenDigits
              sampleTypeError sampleWindowOpen ONLINE 0 "openWebsite"
              (siteArgs "Hacker News")
              (ThrownError "Unable to open a window with invalid URL"))
    as (_ & [Hnone | (fields & siteName & syntaxError & _ & Hargs & Hsite & _ & _ & Hlog)]).
  - reflexivity.
  - discriminate.
  - split; [reflexivity |].
    injection Hargs as <-. simpl in Hsite. injection Hsite as <-. exact Hlog.
Defined.

(** The same call without arguments fails before anything is done. *)
Example openWebsite_without_arguments :
  handleSystemAction asciiLower asciiUpper hiddenDigits sampleTypeError
    sampleWindowOpen ONLINE 0 "openWebsite" JsUndefined
  = ([], Rejected (ThrownError sampleTypeError)).
Proof. reflexivity. Qed.

Lemma opened_address_starts_with_http_witness :
  String.prefix "http" "https://example.org" = true
  /\ fst (handleSystemAction asciiLower asciiUpper hiddenDigits sampleTypeError
            sampleWindowOpen ONLINE 0 "openWebsite" (siteArgs "Example.ORG"))
     = [ good "Opening external protocol: example.org";
         WindowOpen "https://example.org" ].
Proof.
  destruct (opened_address_starts_with_http asciiLower asciiUpper hiddenDigits
              sampleTypeError sampleWindowOpen ONLINE 0 "openWebsite"
              (siteArgs "Example.ORG") "https://example.org")
    as (H1 & _ & fields & siteName & Hargs & Hsite & _ & Heffects).
  - right. left. reflexivity.
  - split; [exact H1 |].
    injection Hargs as <-. simpl in Hsite. injection Hsite as <-. exact Heffects.
Defined.

(** *** X1: a scan, an unknown tool and audio in one message *)

Definition toolsAndAudioMessage : LiveServerMessage :=
  mkMessage (Some [ mkFunctionCall "7" "scanSystem" (JsObject []);
                    mkFunctionCall "1" "X" (JsObject []) ])
            (Some (mkServerContent
                     (Some (mkContent [mkPart (Some (mkBlob "AAABAA=="))])) true)).

Lemma message_leaves_session_alone_witness :
  let r := handleMessage base64Decode pcmBuffer (appHandler ONLINE 0)
             toolsAndAudioMessage 0 connectedClient in
  statuses (effects r) = []
  /\ errorsReported (effects r) = []
  /\ sessionPromise (after r) = sessionPromise connectedClient
  /\ inputAudioContext (after r) = inputAudioContext connectedClient
  /\ outputAudioContext (after r) = outputAudioContext connectedClient
  /\ stream (after r) = stream connectedClient
  /\ processor (after r) = processor connectedClient
  /\ source (after r) = source connectedClient
  /\ isMuted (after r) = isMuted connectedClient.
Proof.
  apply (message_leaves_session_alone base64Decode pcmBuffer
           asciiLower asciiUpper hiddenDigits sampleTypeError sampleWindowOpen
           ONLINE (fun _ _ => 0) toolsAndAudioMessage 0 connectedClient).
  intros functionCalls H. injection H as <-. repeat constructor.
Defined.

(** *** X17: a scan and an unknown tool in one message *)

Lemma every_tool_call_is_answered_witness :
  let r := handleMessage base64Decode pcmBuffer (appHandler ONLINE 0)
             twoToolsMessage 0 connectedClient in
  completion r = Normal
  /\ In (mkFunctionResponse "1" "X"
           (JsObject
              [("result",
                JsObject [("error", JsString "Unknown protocol action: X");
                          ("status", JsString "FAILED")])]))
        (replies (effects r)).
Proof.
  intros r.
  destruct (every_tool_call_is_answered base64Decode pcmBuffer
              asciiLower asciiUpper hiddenDigits sampleTypeError
              sampleWindowOpen ONLINE (fun _ _ => 0)
              twoToolsMessage 0 connectedClient
              [ mkFunctionCall "7" "scanSystem" (JsObject []);
                mkFunctionCall "1" "X" (JsObject []) ]
              TheSession)
    as (H1 & _ & H3).
  - reflexivity.
  - reflexivity.
  - repeat constructor.
  - split; [exact H1 |].
    apply (H3 (mkFunctionCall "1" "X" (JsObject []))).
    + right. left. reflexivity.
    + simpl. intros H.
      repeat (destruct H as [H | H]; [discriminate |]). exact H.
Defined.

(** *** X18: connect, open, mute, change the voice *)



(** *** X19: the user mutes, then the model changes the voice *)

Lemma tool_reconnect_forgets_mute_witness :
  let a1 := fst (connectToGemini initialApp "key" grantedEnv initialApp) in
  let a2 := fst (uiRun base64Decode pcmBuffer framePcm frameText asciiUpper "key"
                   (appHandler ONLINE 0) (map Fires [CallOpen]) a1) in
  let a3 := toggleMute a2 a2 in
  let a4 := fst (changeVoiceTimer initialApp "key" grantedEnv a3) in
  app_isMuted a4 = true
  /\ exists client, app_liveClientRef a4 = Some client /\ isMuted client = false.
Proof.
  apply (tool_reconnect_forgets_mute base64Decode pcmBuffer framePcm frameText asciiUpper
           "key" (appHandler ONLINE 0) grantedEnv grantedEnv [CallOpen] initialApp).
  - reflexivity.
  - reflexivity.
  - repeat constructor.
Defined.

(** *** X20 and X21: the connection button *)

(** The component with a session open. *)
Definition connectedApp : App :=
  fst (uiRun base64Decode pcmBuffer framePcm frameText asciiUpper "key"
         (appHandler ONLINE 0) [ClickConnection grantedEnv; Fires CallOpen] initialApp).

Lemma disconnect_click_resets_witness :
  let r := connectionButton connectedApp "key" grantedEnv connectedApp in
  app_connectionState (fst r) = DISCONNECTED
  /\ app_liveClientRef (fst r) = None
  /\ snd r = snd (disconnect connectedClient).
Proof.
  intros r.
  destruct (disconnect_click_resets "key" grantedEnv connectedApp) as [_ Hreset].
  destruct (Hreset eq_refl) as (H1 & _ & _ & H4 & _ & _ & _ & H8).
  split; [exact H1 |]. split; [exact H4 |].
  apply (H8 connectedClient). reflexivity.
Defined.

(** While the component shows CONNECTING a click does nothing. *)
Example connecting_click_ignored :
  let connecting := fst (connectToGemini initialApp "key" grantedEnv initialApp) in
  app_connectionState connecting = CONNECTING
  /\ connectionButton connecting "key" grantedEnv connecting = (connecting, []).
Proof. split; reflexivity. Qed.

Lemma retry_abandons_failed_client_witness :
  let r1 := toggleConnection initialApp "key" deniedEnv initialApp in
  let r2 := toggleConnection (fst r1) "key" grantedEnv (fst r1) in
  app_connectionState (fst r1) = ERROR
  /\ app_error (fst r1) = Some "Permission denied"
  /\ Forall heard (snd r1 ++ snd r2).
Proof.
  intros r1 r2.
  destruct (retry_abandons_failed_client "key" deniedEnv grantedEnv
              (ThrownError "Permission denied") initialApp)
    as (H1 & H2 & _ & H4 & _).
  - reflexivity.
  - left. reflexivity.
  - reflexivity.
  - reflexivity.
  - reflexivity.
  - exact (conj H1 (conj H2 H4)).
Defined.

(** *** X22: three entries on an empty log *)

Lemma log_box_shows_last_fifty_witness :
  let entries := [ mkLog SYSTEM "one" LogInfo; mkLog JARVIS "two" LogInfo;
                   mkLog USER "three" LogInfo ] in
  logLines (app_logs (fold_left (fun a entry => addLog entry a) entries initialApp))
  = entries.
Proof.
  intros entries.
  destruct (log_box_shows_last_fifty entries initialApp) as [H _].
  - simpl. lia.
  - exact H.
Defined.

(** *** X25: the integrity check with the draw 1/2 *)

Lemma integrity_never_critical_witness :
  85 <= drawIntegrity (1 / 2) <= 99
  /\ criticalRings (drawIntegrity (1 / 2)) = false
  /\ warningText (drawIntegrity (1 / 2)) = false.
Proof.
  destruct (integrity_never_critical asciiLower asciiUpper hiddenDigits sampleTypeError
              sampleWindowOpen ONLINE (1 / 2) (JsObject []))
    as (_ & H1 & H2 & _ & H4 & _).
  - lra.
  - exact (conj H1 (conj H2 H4)).
Defined.
